(** * mc-controller: reconciliation lifecycle and connection resolution

    A shallow embedding of the parts of the MinIO controller that every
    resource kind shares: the condition bookkeeping of
    [api/v1alpha1/common_types.go], the connection resolver of
    [internal/minio/client.go] (in its alias-aware and in its older form) and
    the reconcile and teardown passes of the User, Policy and Bucket
    reconcilers.

    Calls that leave the process (the Kubernetes API, the clock, the MinIO
    SDK) are operations of a small free monad; a pass is run against an
    arbitrary handler for them and leaves a trace of the operations it issued
    together with their answers. *)

From Stdlib Require Import ZArith Lia.
From stdpp Require Import base strings gmap list.

Open Scope Z_scope.

(** ** Go base types *)

(** [metav1.Time] and [time.Duration], both counted in nanoseconds. *)
Definition Time : Type := Z.
Definition Duration : Type := Z.

Definition Second : Duration := 1000000000.
Definition Minute : Duration := 60 * Second.
Definition Hour : Duration := 60 * Minute.

(** The reason carried by an error of the Kubernetes API machinery. *)
Inductive StatusReason : Type :=
| StatusReasonNotFound
| StatusReasonConflict
| StatusReasonUnknown.

(** Go [error] values as the controller meets them: an API status error, an
    error of the MinIO SDK, a plain [fmt.Errorf], or a [fmt.Errorf] whose
    format ends in [%w] and wraps a cause ([text] is the formatted message up
    to the cause). *)
Inductive error : Type :=
| StatusError (reason : StatusReason) (message : string)
| SDKError (message : string)
| Errorf (text : string)
| Wrapf (text : string) (cause : error).

(** [err.Error()]: the text of a wrapping error is followed by its cause. *)
Fixpoint Error (e : error) : string :=
  match e with
  | StatusError _ m => m
  | SDKError m => m
  | Errorf t => t
  | Wrapf t w => t +:+ Error w
  end.

(** [apierrors.ReasonForError] looks through wrappers. *)
Fixpoint ReasonForError (e : error) : StatusReason :=
  match e with
  | StatusError r _ => r
  | SDKError _ => StatusReasonUnknown
  | Errorf _ => StatusReasonUnknown
  | Wrapf _ w => ReasonForError w
  end.

Definition IsNotFound (e : error) : bool :=
  match ReasonForError e with StatusReasonNotFound => true | _ => false end.

Definition IsConflict (e : error) : bool :=
  match ReasonForError e with StatusReasonConflict => true | _ => false end.

(** [ctrl.Result]. *)
Module Result.
Record t : Type := mk { Requeue : bool; RequeueAfter : Duration }.
Definition empty : t := mk false 0.
Definition after (d : Duration) : t := mk false d.
End Result.

(** [client.ObjectKey]. *)
Module ObjectKey.
Record t : Type := mk { Namespace : string; Name : string }.
End ObjectKey.

(** ** API types ([api/v1alpha1]) *)

Module SecretReference.
Record t : Type := mk {
  Name : string;
  Namespace : option string;
  AccessKeyIDKey : string;
  SecretAccessKeyKey : string }.
End SecretReference.

(** [CABundle] is never read by the code embedded here and is left out. *)
Module TLSConfig.
Record t : Type := mk { Insecure : bool }.
End TLSConfig.

Module EndpointReference.
Record t : Type := mk { Name : string; Namespace : option string }.
End EndpointReference.

Module AliasReference.
Record t : Type := mk { Name : string; Namespace : option string }.
End AliasReference.

(** Modelled from the spec: the declaration of the alias-aware
    [MinIOConnection] is not among the sources ([common_types.go] declares
    the older one, [Legacy.MinIOConnection] below).  Its fields are the ones
    the alias-aware [buildClientConfig] and the Alias reconciler read: three
    optional connection sources, an optional secret reference and an
    optional TLS block. *)
Module MinIOConnection.
Record t : Type := mk {
  AliasRef : option AliasReference.t;
  EndpointRef : option EndpointReference.t;
  URL : option string;
  SecretRef : option SecretReference.t;
  TLS : option TLSConfig.t }.
End MinIOConnection.

(** [ConditionType] and [metav1.ConditionStatus] are string types. *)
Definition ConditionType : Type := string.
Definition ConditionReady : ConditionType := "Ready".
Definition ConditionProgressing : ConditionType := "Progressing".
Definition ConditionDegraded : ConditionType := "Degraded".
Definition ConditionError : ConditionType := "Error".

Definition ConditionStatus : Type := string.
Definition ConditionTrue : ConditionStatus := "True".
Definition ConditionFalse : ConditionStatus := "False".
Definition ConditionUnknown : ConditionStatus := "Unknown".

Module Condition.
Record t : Type := mk {
  Type_ : ConditionType;
  Status : ConditionStatus;
  LastTransitionTime : Time;
  Reason : string;
  Message : string }.
End Condition.

(** The fields of [AliasSpec] and [AliasStatus] the resolver reads. *)
Module AliasSpec.
Record t : Type := mk {
  URL : string;
  SecretRef : SecretReference.t;
  TLS : option TLSConfig.t;
  Region : option string;
  PathStyle : bool }.
End AliasSpec.

Module AliasStatus.
Record t : Type := mk { Ready : bool }.
End AliasStatus.

Module Alias.
Record t : Type := mk { Spec : AliasSpec.t; Status : AliasStatus.t }.
End Alias.

Module EndpointSpec.
Record t : Type := mk {
  URL : string;
  SecretRef : SecretReference.t;
  TLS : option TLSConfig.t;
  Region : option string;
  PathStyle : bool }.
End EndpointSpec.

Module EndpointStatus.
Record t : Type := mk { Ready : bool }.
End EndpointStatus.

Module Endpoint.
Record t : Type := mk { Spec : EndpointSpec.t; Status : EndpointStatus.t }.
End Endpoint.

(** [corev1.Secret]: only [Data] is read; byte slices are strings. *)
Module Secret.
Record t : Type := mk { Data : gmap string string }.
End Secret.

(** The part of [metav1.ObjectMeta] the reconcilers use. *)
Module ObjectMeta.
Record t : Type := mk {
  Name : string;
  Namespace : string;
  Generation : Z;
  DeletionTimestamp : option Time;
  Finalizers : list string }.
Definition with_Finalizers (fs : list string) (m : t) : t :=
  mk (Name m) (Namespace m) (Generation m) (DeletionTimestamp m) fs.
End ObjectMeta.

(** *** User *)

Definition UserFinalizer : string := "user.minio.mxcd.dev/finalizer".

Definition UserStatusType : Type := string.
Definition UserStatusEnabled : UserStatusType := "enabled".
Definition UserStatusDisabled : UserStatusType := "disabled".

Module UserSpec.
Record t : Type := mk {
  Connection : MinIOConnection.t;
  Username : string;
  SecretRef : option SecretReference.t;
  Password : option string;
  Status : UserStatusType;
  Groups : list string;
  Policies : list string }.
End UserSpec.

Module UserStatus.
Record t : Type := mk {
  Conditions : list Condition.t;
  Ready : bool;
  Username : string;
  Status : UserStatusType;
  Groups : list string;
  Policies : list string;
  CreationDate : option Time;
  LastSyncTime : option Time;
  ObservedGeneration : Z }.
End UserStatus.

Module User.
Record t : Type := mk {
  Meta : ObjectMeta.t;
  Spec : UserSpec.t;
  Status : UserStatus.t }.
Definition with_Meta (m : ObjectMeta.t) (u : t) : t := mk m (Spec u) (Status u).
Definition with_Status (s : UserStatus.t) (u : t) : t := mk (Meta u) (Spec u) s.
(** Assignments to single status fields, [user.Status.F = v]. *)
Definition set_Conditions (v : list Condition.t) (u : t) : t :=
  let s := Status u in
  with_Status (UserStatus.mk v (UserStatus.Ready s) (UserStatus.Username s)
    (UserStatus.Status s) (UserStatus.Groups s) (UserStatus.Policies s)
    (UserStatus.CreationDate s) (UserStatus.LastSyncTime s)
    (UserStatus.ObservedGeneration s)) u.
Definition set_Ready (v : bool) (u : t) : t :=
  let s := Status u in
  with_Status (UserStatus.mk (UserStatus.Conditions s) v (UserStatus.Username s)
    (UserStatus.Status s) (UserStatus.Groups s) (UserStatus.Policies s)
    (UserStatus.CreationDate s) (UserStatus.LastSyncTime s)
    (UserStatus.ObservedGeneration s)) u.
Definition set_Username (v : string) (u : t) : t :=
  let s := Status u in
  with_Status (UserStatus.mk (UserStatus.Conditions s) (UserStatus.Ready s) v
    (UserStatus.Status s) (UserStatus.Groups s) (UserStatus.Policies s)
    (UserStatus.CreationDate s) (UserStatus.LastSyncTime s)
    (UserStatus.ObservedGeneration s)) u.
Definition set_Status (v : UserStatusType) (u : t) : t :=
  let s := Status u in
  with_Status (UserStatus.mk (UserStatus.Conditions s) (UserStatus.Ready s)
    (UserStatus.Username s) v (UserStatus.Groups s) (UserStatus.Policies s)
    (UserStatus.CreationDate s) (UserStatus.LastSyncTime s)
    (UserStatus.ObservedGeneration s)) u.
Definition set_Groups (v : list string) (u : t) : t :=
  let s := Status u in
  with_Status (UserStatus.mk (UserStatus.Conditions s) (UserStatus.Ready s)
    (UserStatus.Username s) (UserStatus.Status s) v (UserStatus.Policies s)
    (UserStatus.CreationDate s) (UserStatus.LastSyncTime s)
    (UserStatus.ObservedGeneration s)) u.
Definition set_Policies (v : list string) (u : t) : t :=
  let s := Status u in
  with_Status (UserStatus.mk (UserStatus.Conditions s) (UserStatus.Ready s)
    (UserStatus.Username s) (UserStatus.Status s) (UserStatus.Groups s) v
    (UserStatus.CreationDate s) (UserStatus.LastSyncTime s)
    (UserStatus.ObservedGeneration s)) u.
Definition set_CreationDate (v : option Time) (u : t) : t :=
  let s := Status u in
  with_Status (UserStatus.mk (UserStatus.Conditions s) (UserStatus.Ready s)
    (UserStatus.Username s) (UserStatus.Status s) (UserStatus.Groups s)
    (UserStatus.Policies s) v (UserStatus.LastSyncTime s)
    (UserStatus.ObservedGeneration s)) u.
Definition set_LastSyncTime (v : option Time) (u : t) : t :=
  let s := Status u in
  with_Status (UserStatus.mk (UserStatus.Conditions s) (UserStatus.Ready s)
    (UserStatus.Username s) (UserStatus.Status s) (UserStatus.Groups s)
    (UserStatus.Policies s) (UserStatus.CreationDate s) v
    (UserStatus.ObservedGeneration s)) u.
Definition set_ObservedGeneration (v : Z) (u : t) : t :=
  let s := Status u in
  with_Status (UserStatus.mk (UserStatus.Conditions s) (UserStatus.Ready s)
    (UserStatus.Username s) (UserStatus.Status s) (UserStatus.Groups s)
    (UserStatus.Policies s) (UserStatus.CreationDate s)
    (UserStatus.LastSyncTime s) v) u.
End User.

(** *** Policy *)

Definition PolicyFinalizer : string := "policy.mc-controller.mxcd.de/finalizer".

Module PolicySpec.
Record t : Type := mk {
  Connection : MinIOConnection.t;
  PolicyName : string;
  Policy : string }.
End PolicySpec.

Module PolicyStatus.
Record t : Type := mk {
  Conditions : list Condition.t;
  Ready : bool;
  PolicyName : string;
  PolicyHash : string;
  CreationDate : option Time;
  LastSyncTime : option Time;
  ObservedGeneration : Z }.
End PolicyStatus.

Module Policy.
Record t : Type := mk {
  Meta : ObjectMeta.t;
  Spec : PolicySpec.t;
  Status : PolicyStatus.t }.
Definition with_Meta (m : ObjectMeta.t) (p : t) : t := mk m (Spec p) (Status p).
Definition with_Status (s : PolicyStatus.t) (p : t) : t := mk (Meta p) (Spec p) s.
Definition set_Conditions (v : list Condition.t) (p : t) : t :=
  let s := Status p in
  with_Status (PolicyStatus.mk v (PolicyStatus.Ready s) (PolicyStatus.PolicyName s)
    (PolicyStatus.PolicyHash s) (PolicyStatus.CreationDate s)
    (PolicyStatus.LastSyncTime s) (PolicyStatus.ObservedGeneration s)) p.
Definition set_Ready (v : bool) (p : t) : t :=
  let s := Status p in
  with_Status (PolicyStatus.mk (PolicyStatus.Conditions s) v (PolicyStatus.PolicyName s)
    (PolicyStatus.PolicyHash s) (PolicyStatus.CreationDate s)
    (PolicyStatus.LastSyncTime s) (PolicyStatus.ObservedGeneration s)) p.
Definition set_PolicyName (v : string) (p : t) : t :=
  let s := Status p in
  with_Status (PolicyStatus.mk (PolicyStatus.Conditions s) (PolicyStatus.Ready s) v
    (PolicyStatus.PolicyHash s) (PolicyStatus.CreationDate s)
    (PolicyStatus.LastSyncTime s) (PolicyStatus.ObservedGeneration s)) p.
Definition set_PolicyHash (v : string) (p : t) : t :=
  let s := Status p in
  with_Status (PolicyStatus.mk (PolicyStatus.Conditions s) (PolicyStatus.Ready s)
    (PolicyStatus.PolicyName s) v (PolicyStatus.CreationDate s)
    (PolicyStatus.LastSyncTime s) (PolicyStatus.ObservedGeneration s)) p.
Definition set_CreationDate (v : option Time) (p : t) : t :=
  let s := Status p in
  with_Status (PolicyStatus.mk (PolicyStatus.Conditions s) (PolicyStatus.Ready s)
    (PolicyStatus.PolicyName s) (PolicyStatus.PolicyHash s) v
    (PolicyStatus.LastSyncTime s) (PolicyStatus.ObservedGeneration s)) p.
Definition set_LastSyncTime (v : option Time) (p : t) : t :=
  let s := Status p in
  with_Status (PolicyStatus.mk (PolicyStatus.Conditions s) (PolicyStatus.Ready s)
    (PolicyStatus.PolicyName s) (PolicyStatus.PolicyHash s)
    (PolicyStatus.CreationDate s) v (PolicyStatus.ObservedGeneration s)) p.
Definition set_ObservedGeneration (v : Z) (p : t) : t :=
  let s := Status p in
  with_Status (PolicyStatus.mk (PolicyStatus.Conditions s) (PolicyStatus.Ready s)
    (PolicyStatus.PolicyName s) (PolicyStatus.PolicyHash s)
    (PolicyStatus.CreationDate s) (PolicyStatus.LastSyncTime s) v) p.
End Policy.

(** *** Bucket: what teardown reads *)

Definition BucketFinalizer : string := "bucket.mc-controller.mxcd.de/finalizer".

Module BucketSpec.
Record t : Type := mk { Connection : MinIOConnection.t; BucketName : string }.
End BucketSpec.

Module Bucket.
Record t : Type := mk { Meta : ObjectMeta.t; Spec : BucketSpec.t }.
Definition with_Meta (m : ObjectMeta.t) (b : t) : t := mk m (Spec b).
End Bucket.

(** A resource handed to [Update] or [Status().Update]. *)
Inductive Object : Type :=
| ObjUser (u : User.t)
| ObjPolicy (p : Policy.t)
| ObjBucket (b : Bucket.t).

Definition MetaOf (o : Object) : ObjectMeta.t :=
  match o with
  | ObjUser u => User.Meta u
  | ObjPolicy p => Policy.Meta p
  | ObjBucket b => Bucket.Meta b
  end.

(** ** The MinIO client ([internal/minio]) *)

Module ClientConfig.
Record t : Type := mk {
  Endpoint : string;
  AccessKeyID : string;
  SecretAccessKey : string;
  UseSSL : bool;
  Insecure : bool;
  PathStyle : bool;
  Region : string }.
Definition set_Endpoint (v : string) (c : t) : t :=
  mk v (AccessKeyID c) (SecretAccessKey c) (UseSSL c) (Insecure c) (PathStyle c) (Region c).
Definition set_AccessKeyID (v : string) (c : t) : t :=
  mk (Endpoint c) v (SecretAccessKey c) (UseSSL c) (Insecure c) (PathStyle c) (Region c).
Definition set_SecretAccessKey (v : string) (c : t) : t :=
  mk (Endpoint c) (AccessKeyID c) v (UseSSL c) (Insecure c) (PathStyle c) (Region c).
Definition set_Insecure (v : bool) (c : t) : t :=
  mk (Endpoint c) (AccessKeyID c) (SecretAccessKey c) (UseSSL c) v (PathStyle c) (Region c).
Definition set_PathStyle (v : bool) (c : t) : t :=
  mk (Endpoint c) (AccessKeyID c) (SecretAccessKey c) (UseSSL c) (Insecure c) v (Region c).
Definition set_Region (v : string) (c : t) : t :=
  mk (Endpoint c) (AccessKeyID c) (SecretAccessKey c) (UseSSL c) (Insecure c) (PathStyle c) v.
End ClientConfig.

(** [Client]: the S3 and the admin handle are determined by the
    configuration they were built from. *)
Module Client.
Record t : Type := mk { config : ClientConfig.t }.
End Client.

(** [madmin.AccountStatus]. *)
Definition AccountStatus : Type := string.
Definition AccountEnabled : AccountStatus := "enabled".
Definition AccountDisabled : AccountStatus := "disabled".

(** Calls on [Client.Admin] that answer with an error only (the controller
    drops what [GetUserInfo] returns besides). *)
Inductive AdminCall : Type :=
| GetUserInfo (accessKey : string)
| AddUser (accessKey secretKey : string)
| SetUser (accessKey secretKey : string) (status : AccountStatus)
| SetUserStatus (accessKey : string) (status : AccountStatus)
| SetPolicy (policyName entityName : string) (isGroup : bool)
| RemoveUser (accessKey : string)
| AddCannedPolicy (policyName : string) (policy : string)
| RemoveCannedPolicy (policyName : string).

(** Calls on [Client.S3] that answer with an error only. *)
Inductive S3Call : Type :=
| RemoveObject (bucketName key : string)
| RemoveBucket (bucketName : string).

(** An element of the channel [ListObjects] returns. *)
Module ObjectInfo.
Record t : Type := mk { Key : string; Err : option error }.
End ObjectInfo.

(** ** Operations, programs and runs *)

(** Every call that leaves the reconciler, indexed by the type of its
    answer.  [Update] and [StatusUpdate] answer [None] when the API server
    accepted the write. *)
Inductive Op : Type -> Type :=
| GetUser (key : ObjectKey.t) : Op (User.t + error)
| GetPolicy (key : ObjectKey.t) : Op (Policy.t + error)
| GetAlias (key : ObjectKey.t) : Op (Alias.t + error)
| GetEndpoint (key : ObjectKey.t) : Op (Endpoint.t + error)
| GetSecret (key : ObjectKey.t) : Op (Secret.t + error)
| Update (o : Object) : Op (option error)
| StatusUpdate (o : Object) : Op (option error)
| Now : Op Time
| MinioNew (config : ClientConfig.t) : Op (option error)
| MadminNew (config : ClientConfig.t) : Op (option error)
| Admin (c : Client.t) (call : AdminCall) : Op (option error)
| AdminInfoCannedPolicy (c : Client.t) (policyName : string) : Op (string + error)
| S3 (c : Client.t) (call : S3Call) : Op (option error)
| S3BucketExists (c : Client.t) (bucketName : string) : Op (bool + error)
| S3ListObjects (c : Client.t) (bucketName : string) : Op (list ObjectInfo.t).

Inductive Prog (A : Type) : Type :=
| Ret (a : A)
| Vis {R : Type} (op : Op R) (k : R -> Prog A).
Arguments Ret {A} a.
Arguments Vis {A R} op k.

Fixpoint bind {A B : Type} (p : Prog A) (f : A -> Prog B) : Prog B :=
  match p with
  | Ret a => f a
  | Vis op k => Vis op (fun r => bind (k r) f)
  end.

#[global] Instance Prog_ret : MRet Prog := @Ret.
#[global] Instance Prog_bind : MBind Prog := fun A B f p => bind p f.

Definition call {R : Type} (op : Op R) : Prog R := Vis op Ret.

(** Early return of an error: [x ←? p; k] goes on with [k] when [p] answers
    [inl x] and returns the error of [p] otherwise. *)
Definition bindE {A B : Type} (p : Prog (A + error)) (k : A -> Prog (B + error))
  : Prog (B + error) :=
  r ← p; match r with inl a => k a | inr e => mret (inr e) end.

Notation "x ←? p ; k" := (bindE p (fun x => k))
  (at level 20, p at level 100, k at level 200, only parsing).

Definition fail {A : Type} (e : error) : Prog (A + error) := mret (inr e).

(** One operation of a run together with its answer. *)
Inductive Event : Type :=
| Ev {R : Type} (op : Op R) (r : R).

(** The world outside: any state [W] and any way to answer the operations
    from it. *)
Definition Handler (W : Type) : Type := forall R : Type, Op R -> W -> R * W.

Fixpoint run {W A : Type} (h : Handler W) (p : Prog A) (w : W) : A * list Event * W :=
  match p with
  | Ret a => (a, [], w)
  | Vis op k =>
      let '(r, w1) := h _ op w in
      let '(a, tr, w2) := run h (k r) w1 in
      (a, Ev op r :: tr, w2)
  end.

Definition result_of {W A : Type} (x : A * list Event * W) : A := x.1.1.
Definition trace_of {W A : Type} (x : A * list Event * W) : list Event := x.1.2.
Definition world_of {W A : Type} (x : A * list Event * W) : W := x.2.

(** A postcondition on the trace and the result that holds whatever the
    operations answer. *)
Fixpoint wp {A : Type} (p : Prog A) (Q : list Event -> A -> Prop) : Prop :=
  match p with
  | Ret a => Q [] a
  | Vis op k => forall r, wp (k r) (fun tr a => Q (Ev op r :: tr) a)
  end.

(** ** [controllerutil]: finalizers of an object

    The three helpers of controller-runtime, on the metadata they act on:
    membership, append unless present, and removal of every occurrence. *)
Module controllerutil.
Definition ContainsFinalizer (m : ObjectMeta.t) (finalizer : string) : bool :=
  bool_decide (finalizer ∈ ObjectMeta.Finalizers m).
Definition AddFinalizer (m : ObjectMeta.t) (finalizer : string) : ObjectMeta.t :=
  if ContainsFinalizer m finalizer then m
  else ObjectMeta.with_Finalizers (ObjectMeta.Finalizers m ++ [finalizer]) m.
Definition RemoveFinalizer (m : ObjectMeta.t) (finalizer : string) : ObjectMeta.t :=
  ObjectMeta.with_Finalizers
    (filter (fun e => e ≠ finalizer) (ObjectMeta.Finalizers m)) m.
End controllerutil.

(** ** Conditions ([common_types.go]) *)

(** The loop of [SetCondition] at the time [now]: the first condition of the
    type is rewritten in place, and a list without one gets the new
    condition appended. *)
Fixpoint setConditionAt (now : Time) (conditions : list Condition.t)
    (conditionType : ConditionType) (status : ConditionStatus)
    (reason message : string) : list Condition.t :=
  match conditions with
  | [] => [Condition.mk conditionType status now reason message]
  | condition :: rest =>
      if decide (Condition.Type_ condition = conditionType) then
        (if decide (Condition.Status condition ≠ status) then
           Condition.mk (Condition.Type_ condition) status now reason message
         else
           Condition.mk (Condition.Type_ condition) (Condition.Status condition)
             (Condition.LastTransitionTime condition) reason message) :: rest
      else
        condition :: setConditionAt now rest conditionType status reason message
  end.

(** [SetCondition] reads the clock first ([metav1.Now()]). *)
Definition SetCondition (conditions : list Condition.t)
    (conditionType : ConditionType) (status : ConditionStatus)
    (reason message : string) : Prog (list Condition.t) :=
  now ← call Now;
  mret (setConditionAt now conditions conditionType status reason message).

(** [GetCondition]. *)
Fixpoint GetCondition (conditions : list Condition.t) (conditionType : ConditionType)
  : option Condition.t :=
  match conditions with
  | [] => None
  | condition :: rest =>
      if decide (Condition.Type_ condition = conditionType) then Some condition
      else GetCondition rest conditionType
  end.

(** ** Connection resolution ([buildClientConfig], alias-aware) *)

(** [namespace/name] as the error texts print it. *)
Definition slash (namespace name : string) : string := namespace +:+ "/" +:+ name.

(** The errors of [buildClientConfig], one per [fmt.Errorf] of the source. *)
Definition errGetAlias (ns name : string) (err : error) : error :=
  Wrapf ("failed to get alias " +:+ slash ns name +:+ ": ") err.
Definition errAliasNotReady (ns name : string) : error :=
  Errorf ("alias " +:+ slash ns name +:+ " is not ready").
Definition errGetAliasSecret (ns name : string) (err : error) : error :=
  Wrapf ("failed to get alias secret " +:+ slash ns name +:+ ": ") err.
Definition errAliasAccessKey (ns name key : string) : error :=
  Errorf ("access key ID not found in alias secret " +:+ slash ns name +:+ " with key " +:+ key).
Definition errAliasSecretKey (ns name key : string) : error :=
  Errorf ("secret access key not found in alias secret " +:+ slash ns name +:+ " with key " +:+ key).
Definition errGetEndpoint (ns name : string) (err : error) : error :=
  Wrapf ("failed to get endpoint " +:+ slash ns name +:+ ": ") err.
Definition errEndpointNotReady (ns name : string) : error :=
  Errorf ("endpoint " +:+ slash ns name +:+ " is not ready").
Definition errGetEndpointSecret (ns name : string) (err : error) : error :=
  Wrapf ("failed to get endpoint secret " +:+ slash ns name +:+ ": ") err.
Definition errEndpointAccessKey (ns name key : string) : error :=
  Errorf ("access key ID not found in endpoint secret " +:+ slash ns name +:+ " with key " +:+ key).
Definition errEndpointSecretKey (ns name key : string) : error :=
  Errorf ("secret access key not found in endpoint secret " +:+ slash ns name +:+ " with key " +:+ key).
Definition errNoSource : error :=
  Errorf "either AliasRef, URL, or EndpointRef must be specified".
Definition errGetSecret (ns name : string) (err : error) : error :=
  Wrapf ("failed to get secret " +:+ slash ns name +:+ ": ") err.
Definition errAccessKey (ns name key : string) : error :=
  Errorf ("access key ID not found in secret " +:+ slash ns name +:+ " with key " +:+ key).
Definition errSecretKey (ns name key : string) : error :=
  Errorf ("secret access key not found in secret " +:+ slash ns name +:+ " with key " +:+ key).

(** The key under which a credential is looked up: the configured name, or
    the conventional one when none is configured. *)
Definition keyOr (configured conventional : string) : string :=
  if decide (configured = "") then conventional else configured.

Definition buildClientConfig (conn : MinIOConnection.t) (defaultNamespace : string)
  : Prog (ClientConfig.t + error) :=
  let config := ClientConfig.mk "" "" "" true false false "" in
  config ←?
    match MinIOConnection.AliasRef conn with
    | Some aliasRef =>
        let aliasNamespace := default defaultNamespace (AliasReference.Namespace aliasRef) in
        let aliasName := AliasReference.Name aliasRef in
        r ← call (GetAlias (ObjectKey.mk aliasNamespace aliasName));
        match r with
        | inr err => fail (errGetAlias aliasNamespace aliasName err)
        | inl alias =>
            let spec := Alias.Spec alias in
            if negb (AliasStatus.Ready (Alias.Status alias)) then
              fail (errAliasNotReady aliasNamespace aliasName)
            else
              let config := ClientConfig.set_Endpoint (AliasSpec.URL spec) config in
              let config :=
                if AliasSpec.PathStyle spec then ClientConfig.set_PathStyle true config
                else config in
              let config :=
                match AliasSpec.Region spec with
                | Some region => ClientConfig.set_Region region config
                | None => config
                end in
              let config :=
                match AliasSpec.TLS spec with
                | Some tls => ClientConfig.set_Insecure (TLSConfig.Insecure tls) config
                | None => config
                end in
              let secretRef := AliasSpec.SecretRef spec in
              let secretNamespace :=
                default aliasNamespace (SecretReference.Namespace secretRef) in
              let secretName := SecretReference.Name secretRef in
              r ← call (GetSecret (ObjectKey.mk secretNamespace secretName));
              match r with
              | inr err => fail (errGetAliasSecret secretNamespace secretName err)
              | inl secret =>
                  let accessKeyIDKey :=
                    keyOr (SecretReference.AccessKeyIDKey secretRef) "accessKeyID" in
                  match Secret.Data secret !! accessKeyIDKey with
                  | None => fail (errAliasAccessKey secretNamespace secretName accessKeyIDKey)
                  | Some accessKeyIDBytes =>
                      let config := ClientConfig.set_AccessKeyID accessKeyIDBytes config in
                      let secretAccessKeyKey :=
                        keyOr (SecretReference.SecretAccessKeyKey secretRef) "secretAccessKey" in
                      match Secret.Data secret !! secretAccessKeyKey with
                      | None =>
                          fail (errAliasSecretKey secretNamespace secretName secretAccessKeyKey)
                      | Some secretAccessKeyBytes =>
                          mret (inl (ClientConfig.set_SecretAccessKey secretAccessKeyBytes config))
                      end
                  end
              end
        end
    | None =>
        match MinIOConnection.URL conn with
        | Some url => mret (inl (ClientConfig.set_Endpoint url config))
        | None =>
            match MinIOConnection.EndpointRef conn with
            | Some endpointRef =>
                let endpointNamespace :=
                  default defaultNamespace (EndpointReference.Namespace endpointRef) in
                let endpointName := EndpointReference.Name endpointRef in
                r ← call (GetEndpoint (ObjectKey.mk endpointNamespace endpointName));
                match r with
                | inr err => fail (errGetEndpoint endpointNamespace endpointName err)
                | inl endpoint =>
                    let spec := Endpoint.Spec endpoint in
                    if negb (EndpointStatus.Ready (Endpoint.Status endpoint)) then
                      fail (errEndpointNotReady endpointNamespace endpointName)
                    else
                      let config := ClientConfig.set_Endpoint (EndpointSpec.URL spec) config in
                      let config :=
                        if EndpointSpec.PathStyle spec then ClientConfig.set_PathStyle true config
                        else config in
                      let config :=
                        match EndpointSpec.Region spec with
                        | Some region => ClientConfig.set_Region region config
                        | None => config
                        end in
                      let config :=
                        match EndpointSpec.TLS spec with
                        | Some tls => ClientConfig.set_Insecure (TLSConfig.Insecure tls) config
                        | None => config
                        end in
                      let secretRef := EndpointSpec.SecretRef spec in
                      let secretNamespace :=
                        default endpointNamespace (SecretReference.Namespace secretRef) in
                      let secretName := SecretReference.Name secretRef in
                      r ← call (GetSecret (ObjectKey.mk secretNamespace secretName));
                      match r with
                      | inr err => fail (errGetEndpointSecret secretNamespace secretName err)
                      | inl secret =>
                          let accessKeyIDKey :=
                            keyOr (SecretReference.AccessKeyIDKey secretRef) "accessKeyID" in
                          match Secret.Data secret !! accessKeyIDKey with
                          | None =>
                              fail (errEndpointAccessKey secretNamespace secretName accessKeyIDKey)
                          | Some accessKeyIDBytes =>
                              let config := ClientConfig.set_AccessKeyID accessKeyIDBytes config in
                              let secretAccessKeyKey :=
                                keyOr (SecretReference.SecretAccessKeyKey secretRef)
                                  "secretAccessKey" in
                              match Secret.Data secret !! secretAccessKeyKey with
                              | None =>
                                  fail (errEndpointSecretKey secretNamespace secretName
                                          secretAccessKeyKey)
                              | Some secretAccessKeyBytes =>
                                  mret (inl (ClientConfig.set_SecretAccessKey
                                               secretAccessKeyBytes config))
                              end
                          end
                      end
                end
            | None => fail errNoSource
            end
        end
    end;
  (* credentials when the URL is given directly *)
  match MinIOConnection.URL conn, MinIOConnection.SecretRef conn with
  | Some _, Some secretRef =>
      let secretNamespace := default defaultNamespace (SecretReference.Namespace secretRef) in
      let secretName := SecretReference.Name secretRef in
      r ← call (GetSecret (ObjectKey.mk secretNamespace secretName));
      match r with
      | inr err => fail (errGetSecret secretNamespace secretName err)
      | inl secret =>
          let accessKeyIDKey :=
            keyOr (SecretReference.AccessKeyIDKey secretRef) "accessKeyID" in
          match Secret.Data secret !! accessKeyIDKey with
          | None => fail (errAccessKey secretNamespace secretName accessKeyIDKey)
          | Some accessKeyIDBytes =>
              let config := ClientConfig.set_AccessKeyID accessKeyIDBytes config in
              let secretAccessKeyKey :=
                keyOr (SecretReference.SecretAccessKeyKey secretRef) "secretAccessKey" in
              match Secret.Data secret !! secretAccessKeyKey with
              | None => fail (errSecretKey secretNamespace secretName secretAccessKeyKey)
              | Some secretAccessKeyBytes =>
                  let config := ClientConfig.set_SecretAccessKey secretAccessKeyBytes config in
                  let config :=
                    match MinIOConnection.TLS conn with
                    | Some tls => ClientConfig.set_Insecure (TLSConfig.Insecure tls) config
                    | None => config
                    end in
                  mret (inl config)
              end
          end
      end
  | _, _ => mret (inl config)
  end.

(** [NewClient]: resolve, then build the S3 and the admin client.  Setting
    the application info and the custom transport changes the handles only
    and issues no call. *)
Definition NewClient (conn : MinIOConnection.t) (namespace : string)
  : Prog (Client.t + error) :=
  r ← buildClientConfig conn namespace;
  match r with
  | inr err => fail (Wrapf "failed to build client config: " err)
  | inl config =>
      e ← call (MinioNew config);
      match e with
      | Some err => fail (Wrapf "failed to create S3 client: " err)
      | None =>
          e ← call (MadminNew config);
          match e with
          | Some err => fail (Wrapf "failed to create admin client: " err)
          | None => mret (inl (Client.mk config))
          end
      end
  end.

(** ** The older resolver ([internal/minio/client.go])

    It knows no alias: the URL comes from the connection or from an
    Endpoint, the credentials always from the connection's own secret
    reference, and the connection's TLS block is applied last. *)
Module Legacy.

Module MinIOConnection.
Record t : Type := mk {
  EndpointRef : option EndpointReference.t;
  URL : option string;
  SecretRef : SecretReference.t;
  TLS : option TLSConfig.t }.
End MinIOConnection.

Definition errNoSource : error := Errorf "either URL or EndpointRef must be specified".

Definition buildClientConfig (conn : MinIOConnection.t) (defaultNamespace : string)
  : Prog (ClientConfig.t + error) :=
  let config := ClientConfig.mk "" "" "" true false false "" in
  config ←?
    match MinIOConnection.URL conn with
    | Some url => mret (inl (ClientConfig.set_Endpoint url config))
    | None =>
        match MinIOConnection.EndpointRef conn with
        | Some endpointRef =>
            let endpointNamespace :=
              default defaultNamespace (EndpointReference.Namespace endpointRef) in
            let endpointName := EndpointReference.Name endpointRef in
            r ← call (GetEndpoint (ObjectKey.mk endpointNamespace endpointName));
            match r with
            | inr err => fail (errGetEndpoint endpointNamespace endpointName err)
            | inl endpoint =>
                let spec := Endpoint.Spec endpoint in
                if negb (EndpointStatus.Ready (Endpoint.Status endpoint)) then
                  fail (errEndpointNotReady endpointNamespace endpointName)
                else
                  let config := ClientConfig.set_Endpoint (EndpointSpec.URL spec) config in
                  let config :=
                    if EndpointSpec.PathStyle spec then ClientConfig.set_PathStyle true config
                    else config in
                  let config :=
                    match EndpointSpec.Region spec with
                    | Some region => ClientConfig.set_Region region config
                    | None => config
                    end in
                  let config :=
                    match EndpointSpec.TLS spec with
                    | Some tls => ClientConfig.set_Insecure (TLSConfig.Insecure tls) config
                    | None => config
                    end in
                  mret (inl config)
            end
        | None => fail errNoSource
        end
    end;
  let secretRef := MinIOConnection.SecretRef conn in
  let secretNamespace := default defaultNamespace (SecretReference.Namespace secretRef) in
  let secretName := SecretReference.Name secretRef in
  r ← call (GetSecret (ObjectKey.mk secretNamespace secretName));
  match r with
  | inr err => fail (errGetSecret secretNamespace secretName err)
  | inl secret =>
      let accessKeyIDKey := keyOr (SecretReference.AccessKeyIDKey secretRef) "accessKeyID" in
      match Secret.Data secret !! accessKeyIDKey with
      | None => fail (errAccessKey secretNamespace secretName accessKeyIDKey)
      | Some accessKeyIDBytes =>
          let config := ClientConfig.set_AccessKeyID accessKeyIDBytes config in
          let secretAccessKeyKey :=
            keyOr (SecretReference.SecretAccessKeyKey secretRef) "secretAccessKey" in
          match Secret.Data secret !! secretAccessKeyKey with
          | None => fail (errSecretKey secretNamespace secretName secretAccessKeyKey)
          | Some secretAccessKeyBytes =>
              let config := ClientConfig.set_SecretAccessKey secretAccessKeyBytes config in
              let config :=
                match MinIOConnection.TLS conn with
                | Some tls => ClientConfig.set_Insecure (TLSConfig.Insecure tls) config
                | None => config
                end in
              mret (inl config)
          end
      end
  end.

End Legacy.

(** ** The User reconciler

    A successful [Update] or [Status().Update] refreshes the object in
    memory from the answer of the API server; the answer carries what was
    sent (with a new resource version, which the reconcilers never read), so
    the object is threaded on unchanged. *)
Module UserReconciler.

Definition getPassword (user : User.t) : Prog (string + error) :=
  match UserSpec.Password (User.Spec user) with
  | Some password => mret (inl password)
  | None =>
      match UserSpec.SecretRef (User.Spec user) with
      | None => fail (Errorf "either password or secretRef must be specified")
      | Some secretRef =>
          let secretNamespace :=
            default (ObjectMeta.Namespace (User.Meta user))
              (SecretReference.Namespace secretRef) in
          r ← call (GetSecret (ObjectKey.mk secretNamespace (SecretReference.Name secretRef)));
          match r with
          | inr err => fail (Wrapf "failed to get password secret: " err)
          | inl secret =>
              let passwordKey := keyOr (SecretReference.SecretAccessKeyKey secretRef) "password" in
              match Secret.Data secret !! passwordKey with
              | None => fail (Errorf ("password not found in secret with key " +:+ passwordKey))
              | Some passwordBytes => mret (inl passwordBytes)
              end
          end
      end
  end.

(** [reconcileUser] changes the status of [user] in place; the object is
    returned next to the result and the error. *)
Definition reconcileUser (user : User.t) (minioClient : Client.t)
  : Prog (User.t * Result.t * option error) :=
  let username := UserSpec.Username (User.Spec user) in
  r ← getPassword user;
  match r with
  | inr err =>
      mret (user, Result.after Minute, Some (Wrapf "failed to get password: " err))
  | inl password =>
      e ← call (Admin minioClient (GetUserInfo username));
      let userExists := match e with None => true | Some _ => false end in
      (* what follows the creation or the update of the user *)
      let proceed (user : User.t) : Prog (User.t * Result.t * option error) :=
        let status :=
          if decide (UserSpec.Status (User.Spec user) = UserStatusDisabled)
          then AccountDisabled else AccountEnabled in
        e ← call (Admin minioClient (SetUserStatus username status));
        match e with
        | Some err =>
            mret (user, Result.after Minute, Some (Wrapf "failed to set user status: " err))
        | None =>
            let user := User.set_Status (UserSpec.Status (User.Spec user)) user in
            let user := User.set_Groups (UserSpec.Groups (User.Spec user)) user in
            let user := User.set_Policies (UserSpec.Policies (User.Spec user)) user in
            match UserSpec.Policies (User.Spec user) with
            | policy0 :: _ =>
                (* a failure to set the policy is logged and not fatal *)
                _ ← call (Admin minioClient (SetPolicy policy0 username false));
                mret (user, Result.after Hour, None)
            | [] => mret (user, Result.after Hour, None)
            end
        end in
      if negb userExists then
        e ← call (Admin minioClient (AddUser username password));
        match e with
        | Some err =>
            mret (user, Result.after Minute, Some (Wrapf "failed to create user: " err))
        | None =>
            now ← call Now;
            proceed (User.set_CreationDate (Some now) user)
        end
      else
        e ← call (Admin minioClient (SetUser username password AccountEnabled));
        match e with
        | Some err =>
            mret (user, Result.after Minute, Some (Wrapf "failed to update user: " err))
        | None => proceed user
        end
  end.

Definition handleDeletion (user : User.t) : Prog (Result.t * option error) :=
  if controllerutil.ContainsFinalizer (User.Meta user) UserFinalizer then
    r ← NewClient (UserSpec.Connection (User.Spec user)) (ObjectMeta.Namespace (User.Meta user));
    match r with
    | inr _ => mret (Result.after Minute, None)
    | inl minioClient =>
        let username := UserSpec.Username (User.Spec user) in
        let removeFinalizer : Prog (Result.t * option error) :=
          let user :=
            User.with_Meta (controllerutil.RemoveFinalizer (User.Meta user) UserFinalizer) user in
          e ← call (Update (ObjUser user));
          mret (Result.empty, e) in
        e ← call (Admin minioClient (GetUserInfo username));
        match e with
        | None =>
            (* the user exists: delete it *)
            e ← call (Admin minioClient (RemoveUser username));
            match e with
            | Some _ => mret (Result.after Minute, None)
            | None => removeFinalizer
            end
        | Some _ => removeFinalizer
        end
    end
  else mret (Result.empty, None).

Definition Reconcile (req : ObjectKey.t) : Prog (Result.t * option error) :=
  r ← call (GetUser req);
  match r with
  | inr err =>
      if IsNotFound err then mret (Result.empty, None) else mret (Result.empty, Some err)
  | inl user =>
      match ObjectMeta.DeletionTimestamp (User.Meta user) with
      | Some _ => handleDeletion user
      | None =>
          if negb (controllerutil.ContainsFinalizer (User.Meta user) UserFinalizer) then
            let user :=
              User.with_Meta (controllerutil.AddFinalizer (User.Meta user) UserFinalizer) user in
            e ← call (Update (ObjUser user));
            mret (Result.empty, e)
          else
            conditions ← SetCondition (UserStatus.Conditions (User.Status user))
              ConditionProgressing ConditionTrue "Reconciling" "Reconciling user";
            let user := User.set_Conditions conditions user in
            let user := User.set_ObservedGeneration (ObjectMeta.Generation (User.Meta user)) user in
            e ← call (StatusUpdate (ObjUser user));
            match e with
            | Some err => mret (Result.empty, Some err)
            | None =>
                r ← NewClient (UserSpec.Connection (User.Spec user))
                      (ObjectMeta.Namespace (User.Meta user));
                match r with
                | inr err =>
                    conditions ← SetCondition (UserStatus.Conditions (User.Status user))
                      ConditionError ConditionTrue "ClientError"
                      ("Failed to create MinIO client: " +:+ Error err);
                    let user := User.set_Conditions conditions user in
                    let user := User.set_Ready false user in
                    _ ← call (StatusUpdate (ObjUser user));
                    mret (Result.after Minute, None)
                | inl minioClient =>
                    '(user, result, err) ← reconcileUser user minioClient;
                    match err with
                    | Some err =>
                        conditions ← SetCondition (UserStatus.Conditions (User.Status user))
                          ConditionError ConditionTrue "ReconcileError"
                          ("Failed to reconcile user: " +:+ Error err);
                        let user := User.set_Conditions conditions user in
                        let user := User.set_Ready false user in
                        now ← call Now;
                        let user := User.set_LastSyncTime (Some now) user in
                        _ ← call (StatusUpdate (ObjUser user));
                        mret (result, Some err)
                    | None =>
                        conditions ← SetCondition (UserStatus.Conditions (User.Status user))
                          ConditionReady ConditionTrue "Ready" "User is ready";
                        let user := User.set_Conditions conditions user in
                        conditions ← SetCondition (UserStatus.Conditions (User.Status user))
                          ConditionProgressing ConditionFalse "Ready"
                          "User reconciliation completed";
                        let user := User.set_Conditions conditions user in
                        let user := User.set_Ready true user in
                        let user := User.set_Username (UserSpec.Username (User.Spec user)) user in
                        now ← call Now;
                        let user := User.set_LastSyncTime (Some now) user in
                        e ← call (StatusUpdate (ObjUser user));
                        match e with
                        | Some err => mret (Result.empty, Some err)
                        | None => mret (result, None)
                        end
                    end
                end
            end
      end
  end.

End UserReconciler.

(** ** The Policy reconciler *)
Module PolicyReconciler.

Section WithHash.

(** [hex.EncodeToString] of [sha256.Sum256]. *)
Variable sha256hex : string -> string.

Definition reconcilePolicy (policy : Policy.t) (minioClient : Client.t)
  : Prog (Policy.t * Result.t * option error) :=
  let policyName := PolicySpec.PolicyName (Policy.Spec policy) in
  let desiredBytes := PolicySpec.Policy (Policy.Spec policy) in
  if decide (String.length desiredBytes = 0%nat) then
    mret (policy, Result.empty, Some (Errorf "policy document is empty"))
  else
    let hash := sha256hex desiredBytes in
    r ← call (AdminInfoCannedPolicy minioClient policyName);
    let exists_ :=
      match r with
      | inl existing => bool_decide (0 < String.length existing)%nat
      | inr _ => false
      end in
    let finish (policy : Policy.t) : Prog (Policy.t * Result.t * option error) :=
      mret (Policy.set_PolicyHash hash policy, Result.after Hour, None) in
    if negb exists_ || bool_decide (PolicyStatus.PolicyHash (Policy.Status policy) ≠ hash) then
      e ← call (Admin minioClient (AddCannedPolicy policyName desiredBytes));
      match e with
      | Some err =>
          mret (policy, Result.after Minute,
                Some (Wrapf "failed to add/update canned policy: " err))
      | None =>
          if negb exists_ then
            now ← call Now;
            finish (Policy.set_CreationDate (Some now) policy)
          else finish policy
      end
    else finish policy.

Definition handleDeletion (policy : Policy.t) : Prog (Result.t * option error) :=
  if controllerutil.ContainsFinalizer (Policy.Meta policy) PolicyFinalizer then
    r ← NewClient (PolicySpec.Connection (Policy.Spec policy))
          (ObjectMeta.Namespace (Policy.Meta policy));
    match r with
    | inl minioClient =>
        e ← call (Admin minioClient
                    (RemoveCannedPolicy (PolicySpec.PolicyName (Policy.Spec policy))));
        match e with
        | Some _ => mret (Result.after Minute, None)
        | None =>
            let policy :=
              Policy.with_Meta
                (controllerutil.RemoveFinalizer (Policy.Meta policy) PolicyFinalizer) policy in
            e ← call (Update (ObjPolicy policy));
            match e with
            | Some err => mret (Result.empty, Some err)
            | None => mret (Result.empty, None)
            end
        end
    | inr _ => mret (Result.after Minute, None)
    end
  else mret (Result.empty, None).

Definition Reconcile (req : ObjectKey.t) : Prog (Result.t * option error) :=
  r ← call (GetPolicy req);
  match r with
  | inr err =>
      if IsNotFound err then mret (Result.empty, None) else mret (Result.empty, Some err)
  | inl policy =>
      match ObjectMeta.DeletionTimestamp (Policy.Meta policy) with
      | Some _ => handleDeletion policy
      | None =>
          (* add the finalizer; an error of the write ends the pass *)
          r ← (if negb (controllerutil.ContainsFinalizer (Policy.Meta policy) PolicyFinalizer)
               then
                 let policy :=
                   Policy.with_Meta
                     (controllerutil.AddFinalizer (Policy.Meta policy) PolicyFinalizer) policy in
                 e ← call (Update (ObjPolicy policy));
                 match e with
                 | Some err => fail err
                 | None => mret (inl policy)
                 end
               else mret (inl policy));
          match r with
          | inr err => mret (Result.empty, Some err)
          | inl policy =>
              conditions ← SetCondition (PolicyStatus.Conditions (Policy.Status policy))
                ConditionProgressing ConditionTrue "Reconciling" "Reconciling policy";
              let policy := Policy.set_Conditions conditions policy in
              let policy :=
                Policy.set_ObservedGeneration (ObjectMeta.Generation (Policy.Meta policy))
                  policy in
              e ← call (StatusUpdate (ObjPolicy policy));
              match e with
              | Some err =>
                  if IsConflict err then mret (Result.after Second, None)
                  else mret (Result.empty, Some err)
              | None =>
                  r ← NewClient (PolicySpec.Connection (Policy.Spec policy))
                        (ObjectMeta.Namespace (Policy.Meta policy));
                  match r with
                  | inr err =>
                      conditions ← SetCondition (PolicyStatus.Conditions (Policy.Status policy))
                        ConditionError ConditionTrue "ClientError"
                        ("Failed to create MinIO client: " +:+ Error err);
                      let policy := Policy.set_Conditions conditions policy in
                      let policy := Policy.set_Ready false policy in
                      _ ← call (StatusUpdate (ObjPolicy policy));
                      mret (Result.after Minute, None)
                  | inl minioClient =>
                      '(policy, result, err) ← reconcilePolicy policy minioClient;
                      match err with
                      | Some err =>
                          conditions ←
                            SetCondition (PolicyStatus.Conditions (Policy.Status policy))
                              ConditionError ConditionTrue "ReconcileError"
                              ("Failed to reconcile policy: " +:+ Error err);
                          let policy := Policy.set_Conditions conditions policy in
                          let policy := Policy.set_Ready false policy in
                          now ← call Now;
                          let policy := Policy.set_LastSyncTime (Some now) policy in
                          _ ← call (StatusUpdate (ObjPolicy policy));
                          mret (result, Some err)
                      | None =>
                          conditions ←
                            SetCondition (PolicyStatus.Conditions (Policy.Status policy))
                              ConditionReady ConditionTrue "Ready" "Policy is ready";
                          let policy := Policy.set_Conditions conditions policy in
                          conditions ←
                            SetCondition (PolicyStatus.Conditions (Policy.Status policy))
                              ConditionProgressing ConditionFalse "Ready"
                              "Policy reconciliation completed";
                          let policy := Policy.set_Conditions conditions policy in
                          let policy := Policy.set_Ready true policy in
                          let policy :=
                            Policy.set_PolicyName (PolicySpec.PolicyName (Policy.Spec policy))
                              policy in
                          now ← call Now;
                          let policy := Policy.set_LastSyncTime (Some now) policy in
                          e ← call (StatusUpdate (ObjPolicy policy));
                          match e with
                          | Some err =>
                              if IsConflict err then mret (Result.after Second, None)
                              else mret (Result.empty, Some err)
                          | None => mret (result, None)
                          end
                      end
                  end
              end
          end
      end
  end.

End WithHash.

End PolicyReconciler.

(** ** Teardown of a Bucket *)
Module BucketReconciler.

(** The body of the loop of [emptyBucket] over the listed objects. *)
Fixpoint emptyBucketFrom (minioClient : Client.t) (bucketName : string)
    (objects : list ObjectInfo.t) : Prog (option error) :=
  match objects with
  | [] => mret None
  | object :: rest =>
      match ObjectInfo.Err object with
      | Some err => mret (Some (Wrapf "error listing objects: " err))
      | None =>
          e ← call (S3 minioClient (RemoveObject bucketName (ObjectInfo.Key object)));
          match e with
          | Some err =>
              mret (Some (Wrapf ("error removing object " +:+ ObjectInfo.Key object +:+ ": ") err))
          | None => emptyBucketFrom minioClient bucketName rest
          end
      end
  end.

Definition emptyBucket (minioClient : Client.t) (bucketName : string) : Prog (option error) :=
  objects ← call (S3ListObjects minioClient bucketName);
  emptyBucketFrom minioClient bucketName objects.

Definition handleDeletion (bucket : Bucket.t) : Prog (Result.t * option error) :=
  if controllerutil.ContainsFinalizer (Bucket.Meta bucket) BucketFinalizer then
    r ← NewClient (BucketSpec.Connection (Bucket.Spec bucket))
          (ObjectMeta.Namespace (Bucket.Meta bucket));
    match r with
    | inr _ => mret (Result.after Minute, None)
    | inl minioClient =>
        let bucketName := BucketSpec.BucketName (Bucket.Spec bucket) in
        let removeFinalizer : Prog (Result.t * option error) :=
          let bucket :=
            Bucket.with_Meta
              (controllerutil.RemoveFinalizer (Bucket.Meta bucket) BucketFinalizer) bucket in
          e ← call (Update (ObjBucket bucket));
          mret (Result.empty, e) in
        r ← call (S3BucketExists minioClient bucketName);
        match r with
        | inr _ => mret (Result.after Minute, None)
        | inl true =>
            e ← emptyBucket minioClient bucketName;
            match e with
            | Some _ => mret (Result.after Minute, None)
            | None =>
                e ← call (S3 minioClient (RemoveBucket bucketName));
                match e with
                | Some _ => mret (Result.after Minute, None)
                | None => removeFinalizer
                end
            end
        | inl false => removeFinalizer
        end
    end
  else mret (Result.empty, None).

End BucketReconciler.

(** ** Reading traces *)

(** The passes of the reconcilers, each with the finalizer of its kind. *)
Inductive ReconcilePass : Prog (Result.t * option error) -> string -> Prop :=
| pass_user (req : ObjectKey.t) :
    ReconcilePass (UserReconciler.Reconcile req) UserFinalizer
| pass_policy (sha256hex : string -> string) (req : ObjectKey.t) :
    ReconcilePass (PolicyReconciler.Reconcile sha256hex req) PolicyFinalizer.

(** A call to the MinIO server, through the S3 or the admin handle. *)
Definition is_remote (e : Event) : bool :=
  match e with
  | Ev op _ =>
      match op with
      | Admin _ _ | AdminInfoCannedPolicy _ _ | S3 _ _
      | S3BucketExists _ _ | S3ListObjects _ _ => true
      | _ => false
      end
  end.

(** A step of the connection resolver or of the client construction. *)
Definition is_resolve (e : Event) : bool :=
  match e with
  | Ev op _ =>
      match op with
      | GetAlias _ | GetEndpoint _ | GetSecret _ | MinioNew _ | MadminNew _ => true
      | _ => false
      end
  end.

(** The event shows the finalizer in the backing store: the object was read
    with it, or a write of the object carrying it was accepted. *)
Definition marker_stored (finalizer : string) (e : Event) : bool :=
  match e with
  | @Ev R op r =>
      match op in Op R return R -> bool with
      | GetUser _ => fun r =>
          match r with
          | inl u => controllerutil.ContainsFinalizer (User.Meta u) finalizer
          | inr _ => false
          end
      | GetPolicy _ => fun r =>
          match r with
          | inl p => controllerutil.ContainsFinalizer (Policy.Meta p) finalizer
          | inr _ => false
          end
      | Update o => fun r =>
          match r with
          | None => controllerutil.ContainsFinalizer (MetaOf o) finalizer
          | Some _ => false
          end
      | _ => fun _ => false
      end r
  end.

(** The object a pass loaded, when its first operation read one. *)
Definition loaded (tr : list Event) : option Object :=
  match tr with
  | @Ev R op r :: _ =>
      match op in Op R return R -> option Object with
      | GetUser _ => fun r => match r with inl u => Some (ObjUser u) | inr _ => None end
      | GetPolicy _ => fun r => match r with inl p => Some (ObjPolicy p) | inr _ => None end
      | _ => fun _ => None
      end r
  | [] => None
  end.

(** The writes of the object and of its status, each with the answer of the
    API server, in the order of the trace. *)
Definition update_of (e : Event) : option (Object * option error) :=
  match e with
  | @Ev R op r =>
      match op in Op R return R -> option (Object * option error) with
      | Update o => fun r => Some (o, r)
      | _ => fun _ => None
      end r
  end.

Definition status_write_of (e : Event) : option (Object * option error) :=
  match e with
  | @Ev R op r =>
      match op in Op R return R -> option (Object * option error) with
      | StatusUpdate o => fun r => Some (o, r)
      | _ => fun _ => None
      end r
  end.

Definition updates (tr : list Event) : list (Object * option error) := omap update_of tr.
Definition status_writes (tr : list Event) : list (Object * option error) :=
  omap status_write_of tr.

(** The readings of the clock. *)
Definition clock_reading (e : Event) : option Time :=
  match e with
  | @Ev R op r =>
      match op in Op R return R -> option Time with
      | Now => fun r => Some r
      | _ => fun _ => None
      end r
  end.

Definition clock_readings (tr : list Event) : list Time := omap clock_reading tr.

(** The admin client was built: the last step of [NewClient] succeeded. *)
Definition client_built (e : Event) : bool :=
  match e with
  | @Ev R op r =>
      match op in Op R return R -> bool with
      | MadminNew _ => fun r => match r with None => true | Some _ => false end
      | _ => fun _ => false
      end r
  end.

(** Outcomes of the remote cleanup of a teardown.  [delete_ok]: the remote
    object was deleted.  [found_absent]: the existence probe did not find
    it (for a user that is any error of [GetUserInfo], which is how the
    reconciler reads it).  [cleanup_failed]: a removal, the existence probe
    of a bucket or the listing of its objects failed. *)
Definition delete_ok (e : Event) : bool :=
  match e with
  | @Ev R op r =>
      match op in Op R return R -> bool with
      | Admin _ (RemoveUser _) | Admin _ (RemoveCannedPolicy _) | S3 _ (RemoveBucket _) =>
          fun r => match r with None => true | Some _ => false end
      | _ => fun _ => false
      end r
  end.

Definition found_absent (e : Event) : bool :=
  match e with
  | @Ev R op r =>
      match op in Op R return R -> bool with
      | Admin _ (GetUserInfo _) => fun r => match r with Some _ => true | None => false end
      | S3BucketExists _ _ => fun r => match r with inl false => true | _ => false end
      | _ => fun _ => false
      end r
  end.

Definition listing_failed (objects : list ObjectInfo.t) : bool :=
  existsb (fun o => match ObjectInfo.Err o with Some _ => true | None => false end) objects.

Definition cleanup_failed (e : Event) : bool :=
  match e with
  | @Ev R op r =>
      match op in Op R return R -> bool with
      | Admin _ (RemoveUser _) | Admin _ (RemoveCannedPolicy _) | S3 _ _ =>
          fun r => match r with Some _ => true | None => false end
      | S3BucketExists _ _ => fun r => match r with inr _ => true | inl _ => false end
      | S3ListObjects _ _ => fun r => listing_failed r
      | _ => fun _ => false
      end r
  end.

(** Status fields of a written object, whatever its kind. *)
Definition GenerationOf (o : Object) : Z := ObjectMeta.Generation (MetaOf o).

Definition ObservedGenerationOf (o : Object) : option Z :=
  match o with
  | ObjUser u => Some (UserStatus.ObservedGeneration (User.Status u))
  | ObjPolicy p => Some (PolicyStatus.ObservedGeneration (Policy.Status p))
  | ObjBucket _ => None
  end.

Definition LastSyncTimeOf (o : Object) : option Time :=
  match o with
  | ObjUser u => UserStatus.LastSyncTime (User.Status u)
  | ObjPolicy p => PolicyStatus.LastSyncTime (Policy.Status p)
  | ObjBucket _ => None
  end.

Definition ConditionsOf (o : Object) : list Condition.t :=
  match o with
  | ObjUser u => UserStatus.Conditions (User.Status u)
  | ObjPolicy p => PolicyStatus.Conditions (Policy.Status p)
  | ObjBucket _ => []
  end.

Definition ReadyOf (o : Object) : bool :=
  match o with
  | ObjUser u => UserStatus.Ready (User.Status u)
  | ObjPolicy p => PolicyStatus.Ready (Policy.Status p)
  | ObjBucket _ => false
  end.

(** The pass loaded an object that carries a deletion timestamp. *)
Definition loaded_deleting (tr : list Event) : bool :=
  match loaded tr with
  | Some o => bool_decide (ObjectMeta.DeletionTimestamp (MetaOf o) ≠ None)
  | None => false
  end.

(** An accepted status write that records the generation [generation] as
    observed. *)
Definition observes (generation : Z) (write : Object * option error) : bool :=
  match ObservedGenerationOf write.1 with
  | Some g => g =? generation
  | None => false
  end.

Definition records_generation (generation : Z) (e : Event) : bool :=
  match status_write_of e with
  | Some (o, None) => observes generation (o, None)
  | _ => false
  end.

(** Every step of the resolver and every call to the MinIO server comes
    after an accepted status write that records [generation]: [recorded]
    says whether an earlier event of the trace was one. *)
Fixpoint recorded_before (generation : Z) (recorded : bool) (tr : list Event) : bool :=
  match tr with
  | [] => true
  | e :: tr' =>
      (negb (is_resolve e || is_remote e) || recorded)
      && recorded_before generation (recorded || records_generation generation e) tr'
  end.

(** [NewClient] returned a client. *)
Definition built (r : Client.t + error) : bool :=
  match r with inl _ => true | inr _ => false end.

(** ** The error taxonomy of the specification

    The source has no error types: every failure is a [fmt.Errorf].  The
    relation gives each failure of the resolver the class the taxonomy of
    the design (its section 7) files it under. *)
Inductive ErrorKind : Type :=
| ConfigurationError
| NotReadyError
| SecretError.

Inductive has_kind : error -> ErrorKind -> Prop :=
| kind_no_source : has_kind errNoSource ConfigurationError
| kind_no_source_legacy : has_kind Legacy.errNoSource ConfigurationError
| kind_alias_not_ready ns name : has_kind (errAliasNotReady ns name) NotReadyError
| kind_endpoint_not_ready ns name : has_kind (errEndpointNotReady ns name) NotReadyError
| kind_get_alias_secret ns name err : has_kind (errGetAliasSecret ns name err) SecretError
| kind_alias_access_key ns name key : has_kind (errAliasAccessKey ns name key) SecretError
| kind_alias_secret_key ns name key : has_kind (errAliasSecretKey ns name key) SecretError
| kind_get_endpoint_secret ns name err : has_kind (errGetEndpointSecret ns name err) SecretError
| kind_endpoint_access_key ns name key : has_kind (errEndpointAccessKey ns name key) SecretError
| kind_endpoint_secret_key ns name key : has_kind (errEndpointSecretKey ns name key) SecretError
| kind_get_secret ns name err : has_kind (errGetSecret ns name err) SecretError
| kind_access_key ns name key : has_kind (errAccessKey ns name key) SecretError
| kind_secret_key ns name key : has_kind (errSecretKey ns name key) SecretError.

(** How many of the three connection sources a reference sets. *)
Definition sourcesSet (conn : MinIOConnection.t) : nat :=
  ((if MinIOConnection.AliasRef conn is Some _ then 1 else 0)
   + (if MinIOConnection.URL conn is Some _ then 1 else 0)
   + (if MinIOConnection.EndpointRef conn is Some _ then 1 else 0))%nat.

(** ** An in-memory world

    A small API server and a small MinIO server, to run the passes on
    concrete inputs.  The API server keeps the status of an object apart
    from the rest of it, as a status subresource does, and can be told to
    refuse the next status writes with a conflict; the MinIO server can be
    made unreachable. *)
Module Fake.

Record World : Type := mk {
  users : gmap (string * string) User.t;
  policies : gmap (string * string) Policy.t;
  aliases : gmap (string * string) Alias.t;
  endpoints : gmap (string * string) Endpoint.t;
  secrets : gmap (string * string) Secret.t;
  clock : Time;
  conflicts : nat;
  reachable : bool;
  remoteUsers : gset string;
  remotePolicies : gmap string string }.

Definition set_users (v : gmap (string * string) User.t) (w : World) : World :=
  mk v (policies w) (aliases w) (endpoints w) (secrets w) (clock w) (conflicts w)
    (reachable w) (remoteUsers w) (remotePolicies w).
Definition set_policies (v : gmap (string * string) Policy.t) (w : World) : World :=
  mk (users w) v (aliases w) (endpoints w) (secrets w) (clock w) (conflicts w)
    (reachable w) (remoteUsers w) (remotePolicies w).
Definition set_clock (v : Time) (w : World) : World :=
  mk (users w) (policies w) (aliases w) (endpoints w) (secrets w) v (conflicts w)
    (reachable w) (remoteUsers w) (remotePolicies w).
Definition set_conflicts (v : nat) (w : World) : World :=
  mk (users w) (policies w) (aliases w) (endpoints w) (secrets w) (clock w) v
    (reachable w) (remoteUsers w) (remotePolicies w).
Definition set_remoteUsers (v : gset string) (w : World) : World :=
  mk (users w) (policies w) (aliases w) (endpoints w) (secrets w) (clock w) (conflicts w)
    (reachable w) v (remotePolicies w).
Definition set_remotePolicies (v : gmap string string) (w : World) : World :=
  mk (users w) (policies w) (aliases w) (endpoints w) (secrets w) (clock w) (conflicts w)
    (reachable w) (remoteUsers w) v.

Definition notFound : error := StatusError StatusReasonNotFound "not found".
Definition conflict : error :=
  StatusError StatusReasonConflict "the object has been modified".
Definition unreachable : error := SDKError "connection refused".
Definition noSuchUser : error := SDKError "The specified user does not exist".
Definition noSuchPolicy : error := SDKError "The canned policy does not exist".

Definition keyOf (k : ObjectKey.t) : string * string :=
  (ObjectKey.Namespace k, ObjectKey.Name k).
Definition metaKey (m : ObjectMeta.t) : string * string :=
  (ObjectMeta.Namespace m, ObjectMeta.Name m).

Definition get {A : Type} (m : gmap (string * string) A) (k : ObjectKey.t) : A + error :=
  match m !! keyOf k with
  | Some a => inl a
  | None => inr notFound
  end.

(** A write of the object keeps the stored status. *)
Definition update (o : Object) (w : World) : option error * World :=
  match o with
  | ObjUser u =>
      match users w !! metaKey (User.Meta u) with
      | Some old =>
          (None, set_users (<[metaKey (User.Meta u) := User.with_Status (User.Status old) u]>
                              (users w)) w)
      | None => (Some notFound, w)
      end
  | ObjPolicy p =>
      match policies w !! metaKey (Policy.Meta p) with
      | Some old =>
          (None, set_policies
                   (<[metaKey (Policy.Meta p) := Policy.with_Status (Policy.Status old) p]>
                      (policies w)) w)
      | None => (Some notFound, w)
      end
  | ObjBucket _ => (None, w)
  end.

(** A write of the status keeps the rest of the stored object. *)
Definition statusUpdate (o : Object) (w : World) : option error * World :=
  match conflicts w with
  | S n => (Some conflict, set_conflicts n w)
  | O =>
      match o with
      | ObjUser u =>
          match users w !! metaKey (User.Meta u) with
          | Some old =>
              (None, set_users (<[metaKey (User.Meta u) := User.with_Status (User.Status u) old]>
                                  (users w)) w)
          | None => (Some notFound, w)
          end
      | ObjPolicy p =>
          match policies w !! metaKey (Policy.Meta p) with
          | Some old =>
              (None, set_policies
                       (<[metaKey (Policy.Meta p) := Policy.with_Status (Policy.Status p) old]>
                          (policies w)) w)
          | None => (Some notFound, w)
          end
      | ObjBucket _ => (None, w)
      end
  end.

Definition admin (call : AdminCall) (w : World) : option error * World :=
  if negb (reachable w) then (Some unreachable, w)
  else
    match call with
    | GetUserInfo name =>
        (if bool_decide (name ∈ remoteUsers w) then None else Some noSuchUser, w)
    | AddUser name _ => (None, set_remoteUsers ({[name]} ∪ remoteUsers w) w)
    | RemoveUser name => (None, set_remoteUsers (remoteUsers w ∖ {[name]}) w)
    | AddCannedPolicy name policy =>
        (None, set_remotePolicies (<[name := policy]> (remotePolicies w)) w)
    | RemoveCannedPolicy name =>
        (None, set_remotePolicies (delete name (remotePolicies w)) w)
    | SetUser _ _ _ | SetUserStatus _ _ | SetPolicy _ _ _ => (None, w)
    end.

Definition handle : Handler World :=
  fun R op =>
    match op in Op R return World -> R * World with
    | GetUser k => fun w => (get (users w) k, w)
    | GetPolicy k => fun w => (get (policies w) k, w)
    | GetAlias k => fun w => (get (aliases w) k, w)
    | GetEndpoint k => fun w => (get (endpoints w) k, w)
    | GetSecret k => fun w => (get (secrets w) k, w)
    | Update o => fun w => update o w
    | StatusUpdate o => fun w => statusUpdate o w
    | Now => fun w => (clock w, set_clock (clock w + 1) w)
    | MinioNew _ => fun w => (None, w)
    | MadminNew _ => fun w => (None, w)
    | Admin _ call => fun w => admin call w
    | AdminInfoCannedPolicy _ name => fun w =>
        if negb (reachable w) then (inr unreachable, w)
        else
          match remotePolicies w !! name with
          | Some p => (inl p, w)
          | None => (inr noSuchPolicy, w)
          end
    | S3 _ _ => fun w => (if reachable w then None else Some unreachable, w)
    | S3BucketExists _ _ => fun w => (if reachable w then inl false else inr unreachable, w)
    | S3ListObjects _ _ => fun w => ([], w)
    end.

End Fake.

(** The TLS-insecure flag an optional TLS block stands for. *)
Definition insecureOf (tls : option TLSConfig.t) : bool :=
  match tls with
  | Some t => TLSConfig.Insecure t
  | None => false
  end.

(** A secret answer is usable for a reference when the secret was found and
    holds both credentials under the names the reference asks for. *)
Definition usable (secretRef : SecretReference.t) (answer : Secret.t + error) : bool :=
  match answer with
  | inl secret =>
      bool_decide (is_Some (Secret.Data secret
                              !! keyOr (SecretReference.AccessKeyIDKey secretRef) "accessKeyID"))
      && bool_decide (is_Some (Secret.Data secret
                                 !! keyOr (SecretReference.SecretAccessKeyKey secretRef)
                                      "secretAccessKey"))
  | inr _ => false
  end.

(** A marker around the postcondition of a path, so that the exploration of
    a program stops where the program ends. *)
Inductive Leaf (P : Prop) : Prop :=
| leaf (p : P).

(** No call reaches the MinIO server unless the finalizer is known to be in
    the store: [stored] says whether an earlier event of the trace showed
    it there. *)
Fixpoint guarded (finalizer : string) (stored : bool) (tr : list Event) : bool :=
  match tr with
  | [] => true
  | e :: tr' =>
      (negb (is_remote e) || stored)
      && guarded finalizer (stored || marker_stored finalizer e) tr'
  end.


(** ** What a pass leaves behind, as one predicate on its trace *)

(** A pass on an object that is not being deleted records the generation
    of the object before it resolves a connection or calls the server, and
    every status it writes carries that generation as observed. *)
Definition generation_post (tr : list Event) : Prop :=
  forall o0, loaded tr = Some o0 ->
    ObjectMeta.DeletionTimestamp (MetaOf o0) = None ->
    recorded_before (GenerationOf o0) false tr = true
    /\ forallb (observes (GenerationOf o0)) (status_writes tr) = true.

(** A pass on an object that is not being deleted: when it got a client,
    its last status write carries the last reading of the clock as the time
    of the last sync; when it got none, every status it writes carries the
    time of the last sync the object was loaded with. *)
Definition sync_post (tr : list Event) : Prop :=
  forall o0, loaded tr = Some o0 ->
    ObjectMeta.DeletionTimestamp (MetaOf o0) = None ->
    (existsb client_built tr = true ->
     exists o a t,
       last (status_writes tr) = Some (o, a)
       /\ LastSyncTimeOf o = Some t
       /\ last (clock_readings tr) = Some t)
    /\ (existsb client_built tr = false ->
        Forall (fun write => LastSyncTimeOf write.1 = LastSyncTimeOf o0) (status_writes tr)).

(** The API server refused, with the error [err], the first status write of
    the pass (the Progressing write) or its last one when that is the write
    of a ready status; [o] is the status document it refused. *)
Definition refused (tr : list Event) (o : Object) (err : error) : Prop :=
  head (status_writes tr) = Some (o, Some err)
  \/ (last (status_writes tr) = Some (o, Some err) /\ ReadyOf o = true).

(** The Policy reconciler on a refused write that is a conflict: no error,
    a retry after one second, the Error condition of the refused document is
    the one the object was loaded with, and a refused Progressing write is
    the only status write of the pass. *)
Definition policy_conflict_post (tr : list Event) (res : Result.t * option error) : Prop :=
  forall o0 o err,
    loaded tr = Some o0 -> IsConflict err = true -> refused tr o err ->
    res = (Result.after Second, None)
    /\ GetCondition (ConditionsOf o) ConditionError
       = GetCondition (ConditionsOf o0) ConditionError
    /\ (head (status_writes tr) = Some (o, Some err) -> status_writes tr = [(o, Some err)]).



(** ** Concrete resources and worlds *)
Module Scenario.

Definition credentials : Secret.t :=
  Secret.mk {[ "accessKeyID" := "k"; "secretAccessKey" := "s" ]}.

(** A secret without the access key under its conventional name. *)
Definition halfCredentials : Secret.t :=
  Secret.mk {[ "secretAccessKey" := "s" ]}.

Definition credentialsRef : SecretReference.t :=
  SecretReference.mk "minio-creds" None "" "".

Definition aliasSpec : AliasSpec.t :=
  AliasSpec.mk "http://minio:9000" credentialsRef None (Some "eu-1") true.

Definition readyAlias : Alias.t := Alias.mk aliasSpec (AliasStatus.mk true).
Definition coldAlias : Alias.t := Alias.mk aliasSpec (AliasStatus.mk false).

Definition endpointSpec : EndpointSpec.t :=
  EndpointSpec.mk "http://edge:9000" credentialsRef None None false.

Definition readyEndpoint : Endpoint.t := Endpoint.mk endpointSpec (EndpointStatus.mk true).
Definition coldEndpoint : Endpoint.t := Endpoint.mk endpointSpec (EndpointStatus.mk false).

Definition insecureTLS : TLSConfig.t := TLSConfig.mk true.

(** Connection references. *)
Definition noSource : MinIOConnection.t :=
  MinIOConnection.mk None None None None None.
Definition viaAlias : MinIOConnection.t :=
  MinIOConnection.mk (Some (AliasReference.mk "minio" None)) None None None None.
Definition viaColdEndpoint : MinIOConnection.t :=
  MinIOConnection.mk None (Some (EndpointReference.mk "old" None)) None None None.
Definition viaEndpoint : MinIOConnection.t :=
  MinIOConnection.mk None (Some (EndpointReference.mk "edge" None)) None None
    (Some insecureTLS).
Definition aliasAndURL : MinIOConnection.t :=
  MinIOConnection.mk (Some (AliasReference.mk "minio" None)) None
    (Some "http://other:9000") None None.
Definition aliasAndURLWithTLS : MinIOConnection.t :=
  MinIOConnection.mk (Some (AliasReference.mk "minio" None)) None
    (Some "http://other:9000") (Some credentialsRef) (Some insecureTLS).
Definition urlAndColdEndpoint : MinIOConnection.t :=
  MinIOConnection.mk None (Some (EndpointReference.mk "old" None))
    (Some "http://minio:9000") None None.
Definition urlOnly : MinIOConnection.t :=
  MinIOConnection.mk None None (Some "http://minio:9000") None None.
Definition urlWithSecret : MinIOConnection.t :=
  MinIOConnection.mk None None (Some "http://minio:9000") (Some credentialsRef) None.
Definition urlWithHalfSecret : MinIOConnection.t :=
  MinIOConnection.mk None None (Some "http://minio:9000")
    (Some (SecretReference.mk "half-creds" None "" "")) None.

(** The older connection block: an Endpoint together with a TLS override. *)
Definition legacyViaEndpoint : Legacy.MinIOConnection.t :=
  Legacy.MinIOConnection.mk (Some (EndpointReference.mk "edge" None)) None
    credentialsRef (Some insecureTLS).
Definition legacyNoSource : Legacy.MinIOConnection.t :=
  Legacy.MinIOConnection.mk None None credentialsRef None.

(** A user whose spec is at generation 2; the last pass that wrote its
    status saw generation 1 and synced at time 50. *)
Definition aliceStatus : UserStatus.t :=
  UserStatus.mk
    [Condition.mk ConditionReady ConditionTrue 50 "Ready" "User is ready"]
    true "alice" UserStatusEnabled [] [] (Some 40) (Some 50) 1.

Definition aliceSpec (conn : MinIOConnection.t) : UserSpec.t :=
  UserSpec.mk conn "alice" None (Some "secret-password") UserStatusEnabled [] [].

Definition alice (conn : MinIOConnection.t) (finalizers : list string)
    (deletion : option Time) : User.t :=
  User.mk (ObjectMeta.mk "alice" "default" 2 deletion finalizers) (aliceSpec conn)
    aliceStatus.

Definition aliceKey : ObjectKey.t := ObjectKey.mk "default" "alice".

(** A policy that has not been reconciled yet. *)
Definition readonly (finalizers : list string) : Policy.t :=
  Policy.mk (ObjectMeta.mk "readonly" "default" 1 None finalizers)
    (PolicySpec.mk viaAlias "readonly" "{}")
    (PolicyStatus.mk [] false "" "" None None 0).

Definition readonlyKey : ObjectKey.t := ObjectKey.mk "default" "readonly".

Definition sha : string -> string := fun _ => "9f86d081".

(** The world: the given user and policy in the API server, the aliases,
    endpoints and secrets above, the clock at 100, [conflicts] status writes
    to be refused, MinIO reachable and holding the users [remote]. *)
Definition world (user : User.t) (policy : Policy.t) (conflicts : nat)
    (remote : gset string) : Fake.World :=
  Fake.mk
    {[ ("default", "alice") := user ]}
    {[ ("default", "readonly") := policy ]}
    {[ ("default", "minio") := readyAlias; ("default", "cold") := coldAlias ]}
    {[ ("default", "edge") := readyEndpoint; ("default", "old") := coldEndpoint ]}
    {[ ("default", "minio-creds") := credentials;
       ("default", "half-creds") := halfCredentials ]}
    100 conflicts true remote ∅.

(** The default world of the examples. *)
Definition world0 : Fake.World :=
  world (alice viaAlias [UserFinalizer] None) (readonly []) 0 ∅.

(** The client a resolution through the ready alias builds. *)
Definition aliasClient : Client.t :=
  Client.mk (ClientConfig.mk "http://minio:9000" "k" "s" true false true "eu-1").

(** The status of the stored user. *)
Definition storedStatus (w : Fake.World) : option UserStatus.t :=
  User.Status <$> Fake.users w !! ("default", "alice").

(** The runs the examples look at. *)


(** A pass on the user, whose finalizer is in place. *)
Definition userPass : Result.t * option error * list Event * Fake.World :=
  run Fake.handle (UserReconciler.Reconcile aliceKey) world0.

(** A pass on the user when its connection names no source. *)
Definition unresolvedWorld : Fake.World :=
  world (alice noSource [UserFinalizer] None) (readonly [PolicyFinalizer]) 0 ∅.
Definition unresolvedPass : Result.t * option error * list Event * Fake.World :=
  run Fake.handle (UserReconciler.Reconcile aliceKey) unresolvedWorld.

(** Passes in a world that refuses the next status write with a conflict. *)
Definition conflictWorld : Fake.World :=
  world (alice viaAlias [UserFinalizer] None) (readonly [PolicyFinalizer]) 1 ∅.
Definition userConflictPass : Result.t * option error * list Event * Fake.World :=
  run Fake.handle (UserReconciler.Reconcile aliceKey) conflictWorld.
Definition policyConflictPass : Result.t * option error * list Event * Fake.World :=
  run Fake.handle (PolicyReconciler.Reconcile sha readonlyKey) conflictWorld.

(** The status document of the policy that the API server refuses there. *)
Definition refusedPolicy : Policy.t :=
  Policy.set_ObservedGeneration 1
    (Policy.set_Conditions
       [Condition.mk ConditionProgressing ConditionTrue 100
          "Reconciling" "Reconciling policy"]
       (readonly [PolicyFinalizer])).


End Scenario.

(** ** Further readings of a trace *)

(** The calls on the admin handle that answer with an error only, and the
    calls on the S3 handle, each with its answer, in the order of the
    trace. *)
Definition admin_call_of (e : Event) : option (AdminCall * option error) :=
  match e with
  | @Ev R op r =>
      match op in Op R return R -> option (AdminCall * option error) with
      | Admin _ call => fun r => Some (call, r)
      | _ => fun _ => None
      end r
  end.

Definition admin_calls (tr : list Event) : list (AdminCall * option error) :=
  omap admin_call_of tr.

Definition s3_call_of (e : Event) : option (S3Call * option error) :=
  match e with
  | @Ev R op r =>
      match op in Op R return R -> option (S3Call * option error) with
      | S3 _ call => fun r => Some (call, r)
      | _ => fun _ => None
      end r
  end.

Definition s3_calls (tr : list Event) : list (S3Call * option error) :=
  omap s3_call_of tr.

(** ** What the steps of the reconcilers leave behind *)

(** [reconcileUser] once the password is known, on the rest of its trace.
    Without an error: the existence probe, the creation of the user or the
    update of its password, the account status, and the first policy of the
    spec when there is one, in this order; a retry after one hour; the
    status, the groups and the policies of the spec copied to the status,
    and the creation date read from the clock when the user was created.
    With an error: a retry after one minute, the error wraps the cause the
    failed call answered, nothing was copied and no policy was attached. *)
Definition reconcileUser_post (user : User.t) (password : string)
    (tr : list Event) (res : User.t * Result.t * option error) : Prop :=
  let username := UserSpec.Username (User.Spec user) in
  let account :=
    if decide (UserSpec.Status (User.Spec user) = UserStatusDisabled)
    then AccountDisabled else AccountEnabled in
  let user' := res.1.1 in
  User.Meta user' = User.Meta user
  /\ User.Spec user' = User.Spec user
  /\ match res.2 with
     | None =>
         (exists probe attached,
            admin_calls tr
            = (GetUserInfo username, probe)
              :: (match probe with
                  | None => SetUser username password AccountEnabled
                  | Some _ => AddUser username password
                  end, None)
              :: (SetUserStatus username account, None)
              :: match UserSpec.Policies (User.Spec user) with
                 | policy0 :: _ => [(SetPolicy policy0 username false, attached)]
                 | [] => []
                 end
            /\ UserStatus.CreationDate (User.Status user')
               = match probe with
                 | None => UserStatus.CreationDate (User.Status user)
                 | Some _ => head (clock_readings tr)
                 end)
         /\ res.1.2 = Result.after Hour
         /\ UserStatus.Status (User.Status user') = UserSpec.Status (User.Spec user)
         /\ UserStatus.Groups (User.Status user') = UserSpec.Groups (User.Spec user)
         /\ UserStatus.Policies (User.Status user') = UserSpec.Policies (User.Spec user)
     | Some err =>
         res.1.2 = Result.after Minute
         /\ (exists text call cause,
               err = Wrapf text cause /\ last (admin_calls tr) = Some (call, Some cause))
         /\ UserStatus.Status (User.Status user') = UserStatus.Status (User.Status user)
         /\ UserStatus.Groups (User.Status user') = UserStatus.Groups (User.Status user)
         /\ UserStatus.Policies (User.Status user') = UserStatus.Policies (User.Status user)
         /\ Forall (fun c => forall p e g, c.1 <> SetPolicy p e g) (admin_calls tr)
     end.

(** The probes for a canned policy, each with the name asked for and the
    answer. *)
Definition policy_probe_of (e : Event) : option (string * (string + error)) :=
  match e with
  | @Ev R op r =>
      match op in Op R return R -> option (string * (string + error)) with
      | AdminInfoCannedPolicy _ policyName => fun r => Some (policyName, r)
      | _ => fun _ => None
      end r
  end.

Definition policy_probes (tr : list Event) : list (string * (string + error)) :=
  omap policy_probe_of tr.

(** ** The status a pass leaves behind *)

(** The condition of a type has this status and this reason. *)
Definition condition_is (conditions : list Condition.t) (conditionType : ConditionType)
    (status : ConditionStatus) (reason : string) : Prop :=
  exists c,
    GetCondition conditions conditionType = Some c
    /\ Condition.Status c = status /\ Condition.Reason c = reason.

(** How the message of a [ReconcileError] condition starts, by kind. *)
Definition reconcileErrorPrefix (o : Object) : string :=
  match o with
  | ObjUser _ => "Failed to reconcile user: "
  | ObjPolicy _ => "Failed to reconcile policy: "
  | ObjBucket _ => "Failed to reconcile bucket: "
  end.

(** The three outcomes of a pass on an object that is not being deleted,
    read off the status writes [writes] of the pass, whether it got a
    client ([clientBuilt]) and what it returned; [o0] is the object as the
    pass loaded it. *)

(** A pass that converged (it asks for the hourly re-check and returns no
    error): it got a client, the API server accepted every status it wrote,
    and the last one says ready, with the Ready condition true, the
    Progressing condition false and the Error condition as the object was
    loaded with it. *)
Definition converged_post (o0 : Object) (writes : list (Object * option error))
    (clientBuilt : bool) (res : Result.t * option error) : Prop :=
  res = (Result.after Hour, None) ->
  clientBuilt = true
  /\ Forall (fun write => write.2 = None) writes
  /\ exists o,
       last writes = Some (o, None)
       /\ ReadyOf o = true
       /\ condition_is (ConditionsOf o) ConditionReady ConditionTrue "Ready"
       /\ condition_is (ConditionsOf o) ConditionProgressing ConditionFalse "Ready"
       /\ GetCondition (ConditionsOf o) ConditionError
          = GetCondition (ConditionsOf o0) ConditionError.

(** A pass that got no client and asks for a retry in a minute: its last
    status write says not ready, with an Error condition of reason
    [ClientError] that quotes the error, the Progressing condition still
    true and the Ready condition as the object was loaded with it. *)
Definition client_error_post (o0 : Object) (writes : list (Object * option error))
    (clientBuilt : bool) (res : Result.t * option error) : Prop :=
  clientBuilt = false ->
  res = (Result.after Minute, None) ->
  exists o answer c,
    last writes = Some (o, answer)
    /\ ReadyOf o = false
    /\ GetCondition (ConditionsOf o) ConditionError = Some c
    /\ Condition.Status c = ConditionTrue
    /\ Condition.Reason c = "ClientError"
    /\ (exists err, Condition.Message c = "Failed to create MinIO client: " +:+ Error err)
    /\ condition_is (ConditionsOf o) ConditionProgressing ConditionTrue "Reconciling"
    /\ GetCondition (ConditionsOf o) ConditionReady
       = GetCondition (ConditionsOf o0) ConditionReady.

(** A pass that got a client and returns an error: either the API server
    refused its final write of a ready status, and the error is that
    refusal, or convergence failed and its last status write says not
    ready, with an Error condition of reason [ReconcileError] that quotes
    the error of the pass, the Progressing condition still true and the
    Ready condition as the object was loaded with it. *)
Definition reconcile_error_post (o0 : Object) (writes : list (Object * option error))
    (clientBuilt : bool) (res : Result.t * option error) : Prop :=
  clientBuilt = true ->
  forall err, res.2 = Some err ->
  exists o answer,
    last writes = Some (o, answer)
    /\ ((ReadyOf o = true /\ answer = Some err /\ res.1 = Result.empty)
        \/ (ReadyOf o = false
            /\ (exists c,
                  GetCondition (ConditionsOf o) ConditionError = Some c
                  /\ Condition.Status c = ConditionTrue
                  /\ Condition.Reason c = "ReconcileError"
                  /\ Condition.Message c = reconcileErrorPrefix o +:+ Error err)
            /\ condition_is (ConditionsOf o) ConditionProgressing ConditionTrue "Reconciling"
            /\ GetCondition (ConditionsOf o) ConditionReady
               = GetCondition (ConditionsOf o0) ConditionReady)).

(** The writes of a pass: at most one write of the object and at most two
    of its status; none of the status while the object is being deleted;
    and, otherwise, the three outcomes above. *)
Definition writes_post (first : option Object)
    (objectWrites statusWrites : list (Object * option error)) (clientBuilt : bool)
    (res : Result.t * option error) : Prop :=
  (length objectWrites <= 1)%nat
  /\ (length statusWrites <= 2)%nat
  /\ forall o0,
       first = Some o0 ->
       match ObjectMeta.DeletionTimestamp (MetaOf o0) with
       | Some _ => statusWrites = []
       | None =>
           converged_post o0 statusWrites clientBuilt res
           /\ client_error_post o0 statusWrites clientBuilt res
           /\ reconcile_error_post o0 statusWrites clientBuilt res
       end.

Definition status_post (tr : list Event) (res : Result.t * option error) : Prop :=
  writes_post (loaded tr) (updates tr) (status_writes tr) (existsb client_built tr) res.

(** ** Emptying and removing a bucket *)

(** The existence probes and the listings of a bucket, each with the name
    asked for and the answer. *)
Definition bucket_probe_of (e : Event) : option (string * (bool + error)) :=
  match e with
  | @Ev R op r =>
      match op in Op R return R -> option (string * (bool + error)) with
      | S3BucketExists _ bucketName => fun r => Some (bucketName, r)
      | _ => fun _ => None
      end r
  end.

Definition bucket_probes (tr : list Event) : list (string * (bool + error)) :=
  omap bucket_probe_of tr.

Definition listing_of (e : Event) : option (string * list ObjectInfo.t) :=
  match e with
  | @Ev R op r =>
      match op in Op R return R -> option (string * list ObjectInfo.t) with
      | S3ListObjects _ bucketName => fun r => Some (bucketName, r)
      | _ => fun _ => None
      end r
  end.

Definition listings (tr : list Event) : list (string * list ObjectInfo.t) :=
  omap listing_of tr.

(** The successful removal of a listed object. *)
Definition removal (bucketName : string) (object : ObjectInfo.t) : S3Call * option error :=
  (RemoveObject bucketName (ObjectInfo.Key object), None).

(** What the loop of [emptyBucket] did on the listed [objects].  Without an
    error: the listing carried no error, and every listed object was
    removed, once, in the order of the listing.  With an error: the objects
    before the failing one were removed, and either the failing one carried
    a listing error (it was not touched) or its removal failed; nothing
    after it was touched. *)
Definition emptied_in_order (bucketName : string) (objects : list ObjectInfo.t)
    (tr : list Event) (r : option error) : Prop :=
  length (s3_calls tr) = length tr
  /\ match r with
     | None =>
         listing_failed objects = false
         /\ s3_calls tr = removal bucketName <$> objects
     | Some err =>
         exists done object rest cause,
           objects = done ++ object :: rest
           /\ listing_failed done = false
           /\ ((ObjectInfo.Err object = Some cause
                /\ s3_calls tr = removal bucketName <$> done
                /\ err = Wrapf "error listing objects: " cause)
               \/ (ObjectInfo.Err object = None
                   /\ s3_calls tr
                      = (removal bucketName <$> done)
                        ++ [(RemoveObject bucketName (ObjectInfo.Key object), Some cause)]
                   /\ err = Wrapf ("error removing object " +:+ ObjectInfo.Key object
                                   +:+ ": ") cause))
     end.

(** The teardown of a bucket removes the bucket only after it has emptied
    it: a [RemoveBucket] in the trace is for the bucket of the spec, comes
    after an existence probe that answered yes and a listing without
    errors, and after the removal of every listed object and of nothing
    else. *)
Definition removed_after_emptying (bucketName : string) (tr : list Event) : Prop :=
  forall name answer,
    (RemoveBucket name, answer) ∈ s3_calls tr ->
    name = bucketName
    /\ exists objects,
         bucket_probes tr = [(bucketName, inl true)]
         /\ listings tr = [(bucketName, objects)]
         /\ listing_failed objects = false
         /\ s3_calls tr
            = (removal bucketName <$> objects) ++ [(RemoveBucket bucketName, answer)].


(** ** The reconcilers of the other kinds

    The reconcilers of policy attachments, aliases and buckets use the
    operations above and, on their own resource of type [A], the three
    calls on the API server ([Get], [Update] and [Status().Update]).  The
    alias reconciler also lists the buckets (its health check) and asks for
    the server information; the bucket reconciler makes a bucket, switches
    versioning on and sets tags.  [minio.NewTags] and [tags.Set] are calls
    into the SDK that can fail as well; they are operations too, answered
    by the world. *)
Inductive KindOp (A : Type) : Type -> Type :=
| Core {R : Type} (op : Op R) : KindOp A R
| KGet (key : ObjectKey.t) : KindOp A (A + error)
| KUpdate (a : A) : KindOp A (option error)
| KStatusUpdate (a : A) : KindOp A (option error)
| S3ListBuckets (c : Client.t) : KindOp A (option error)
| AdminServerInfo (c : Client.t) : KindOp A (string + error)
| S3MakeBucket (c : Client.t) (bucketName region : string) (objectLocking : bool)
  : KindOp A (option error)
| S3SetBucketVersioning (c : Client.t) (bucketName status : string) : KindOp A (option error)
| NewTags : KindOp A (option error)
| TagsSet (key value : string) : KindOp A (option error)
| S3SetBucketTagging (c : Client.t) (bucketName : string) (tags : list (string * string))
  : KindOp A (option error).
Arguments Core {A R} op.
Arguments KGet {A} key.
Arguments KUpdate {A} a.
Arguments KStatusUpdate {A} a.
Arguments S3ListBuckets {A} c.
Arguments AdminServerInfo {A} c.
Arguments S3MakeBucket {A} c bucketName region objectLocking.
Arguments S3SetBucketVersioning {A} c bucketName status.
Arguments NewTags {A}.
Arguments TagsSet {A} key value.
Arguments S3SetBucketTagging {A} c bucketName tags.

Inductive KProg (A R : Type) : Type :=
| KRet (r : R)
| KVis {X : Type} (op : KindOp A X) (k : X -> KProg A R).
Arguments KRet {A R} r.
Arguments KVis {A R X} op k.

Fixpoint kbind {A R S : Type} (p : KProg A R) (f : R -> KProg A S) : KProg A S :=
  match p with
  | KRet r => f r
  | KVis op k => KVis op (fun x => kbind (k x) f)
  end.

#[global] Instance KProg_ret {A : Type} : MRet (KProg A) := @KRet A.
#[global] Instance KProg_bind {A : Type} : MBind (KProg A) := fun R S f p => kbind p f.

Definition kcall {A X : Type} (op : KindOp A X) : KProg A X := KVis op KRet.

(** A program over the operations every kind shares, run by the reconciler
    of a kind. *)
Fixpoint lift {A R : Type} (p : Prog R) : KProg A R :=
  match p with
  | Ret r => KRet r
  | Vis op k => KVis (Core op) (fun x => lift (k x))
  end.

Inductive KEvent (A : Type) : Type :=
| KEv {X : Type} (op : KindOp A X) (x : X).
Arguments KEv {A X} op x.

Definition KHandler (A W : Type) : Type := forall X : Type, KindOp A X -> W -> X * W.

Fixpoint krun {A W R : Type} (h : KHandler A W) (p : KProg A R) (w : W)
  : R * list (KEvent A) * W :=
  match p with
  | KRet r => (r, [], w)
  | KVis op k =>
      let '(x, w1) := h _ op w in
      let '(r, tr, w2) := krun h (k x) w1 in
      (r, KEv op x :: tr, w2)
  end.

Definition kresult_of {A W R : Type} (x : R * list (KEvent A) * W) : R := x.1.1.
Definition ktrace_of {A W R : Type} (x : R * list (KEvent A) * W) : list (KEvent A) := x.1.2.

Fixpoint kwp {A R : Type} (p : KProg A R) (Q : list (KEvent A) -> R -> Prop) : Prop :=
  match p with
  | KRet r => Q [] r
  | KVis op k => forall x, kwp (k x) (fun tr r => Q (KEv op x :: tr) r)
  end.

(** An operation every kind shares, as an event of the run of a kind. *)
Definition core {A : Type} (e : Event) : KEvent A :=
  match e with Ev op r => KEv (Core op) r end.

(** *** Reading the traces of a kind *)

(** The events of the shared operations, to be read as before. *)
Definition core_of {A : Type} (e : KEvent A) : option Event :=
  match e with
  | @KEv _ X op x =>
      match op in KindOp _ X return X -> option Event with
      | Core op' => fun x => Some (Ev op' x)
      | _ => fun _ => None
      end x
  end.

Definition cores {A : Type} (tr : list (KEvent A)) : list Event := omap core_of tr.

(** The writes of the resource and of its status, with their answers. *)
Definition kupdate_of {A : Type} (e : KEvent A) : option (A * option error) :=
  match e with
  | @KEv _ X op x =>
      match op in KindOp _ X return X -> option (A * option error) with
      | KUpdate a => fun x => Some (a, x)
      | _ => fun _ => None
      end x
  end.

Definition kstatus_write_of {A : Type} (e : KEvent A) : option (A * option error) :=
  match e with
  | @KEv _ X op x =>
      match op in KindOp _ X return X -> option (A * option error) with
      | KStatusUpdate a => fun x => Some (a, x)
      | _ => fun _ => None
      end x
  end.

Definition kupdates {A : Type} (tr : list (KEvent A)) : list (A * option error) :=
  omap kupdate_of tr.
Definition kstatus_writes {A : Type} (tr : list (KEvent A)) : list (A * option error) :=
  omap kstatus_write_of tr.

(** The resource a pass loaded, when its first operation read one. *)
Definition kloaded {A : Type} (tr : list (KEvent A)) : option A :=
  match tr with
  | @KEv _ X op x :: _ =>
      match op in KindOp _ X return X -> option A with
      | KGet _ => fun x => match x with inl a => Some a | inr _ => None end
      | _ => fun _ => None
      end x
  | [] => None
  end.

(** The calls the alias and the bucket reconciler make on the SDK beyond
    the shared ones, with what they were asked and what they answered. *)
Inductive SdkCall : Type :=
| ListBuckets
| ServerInfo
| MakeBucket (bucketName region : string) (objectLocking : bool)
| SetBucketVersioning (bucketName status : string)
| SetBucketTagging (bucketName : string) (tags : list (string * string)).

Definition failed {A : Type} (r : A + error) : option error :=
  match r with inl _ => None | inr err => Some err end.

Definition sdk_call_of {A : Type} (e : KEvent A) : option (SdkCall * option error) :=
  match e with
  | @KEv _ X op x =>
      match op in KindOp _ X return X -> option (SdkCall * option error) with
      | S3ListBuckets _ => fun x => Some (ListBuckets, x)
      | AdminServerInfo _ => fun x => Some (ServerInfo, failed x)
      | S3MakeBucket _ bucketName region objectLocking =>
          fun x => Some (MakeBucket bucketName region objectLocking, x)
      | S3SetBucketVersioning _ bucketName status =>
          fun x => Some (SetBucketVersioning bucketName status, x)
      | S3SetBucketTagging _ bucketName tags =>
          fun x => Some (SetBucketTagging bucketName tags, x)
      | _ => fun _ => None
      end x
  end.

Definition sdk_calls {A : Type} (tr : list (KEvent A)) : list (SdkCall * option error) :=
  omap sdk_call_of tr.

(** ** PolicyAttachment *)

Definition PolicyAttachmentFinalizer : string :=
  "policyattachment.mc-controller.mxcd.de/finalizer".

Module PolicyAttachmentTarget.
Record t : Type := mk {
  User : option string;
  Group : option string;
  ServiceAccount : option string }.
End PolicyAttachmentTarget.

Module PolicyAttachmentSpec.
Record t : Type := mk {
  Connection : MinIOConnection.t;
  PolicyName : string;
  Target : PolicyAttachmentTarget.t }.
End PolicyAttachmentSpec.

Module PolicyAttachmentStatus.
Record t : Type := mk {
  Conditions : list Condition.t;
  Ready : bool;
  PolicyName : string;
  Target : string;
  AttachedAt : option Time;
  LastSyncTime : option Time;
  ObservedGeneration : Z }.
End PolicyAttachmentStatus.

Module PolicyAttachment.
Record t : Type := mk {
  Meta : ObjectMeta.t;
  Spec : PolicyAttachmentSpec.t;
  Status : PolicyAttachmentStatus.t }.
Definition with_Meta (m : ObjectMeta.t) (a : t) : t := mk m (Spec a) (Status a).
Definition with_Status (s : PolicyAttachmentStatus.t) (a : t) : t := mk (Meta a) (Spec a) s.
Definition set_Conditions (v : list Condition.t) (a : t) : t :=
  let s := Status a in
  with_Status (PolicyAttachmentStatus.mk v (PolicyAttachmentStatus.Ready s)
    (PolicyAttachmentStatus.PolicyName s) (PolicyAttachmentStatus.Target s)
    (PolicyAttachmentStatus.AttachedAt s) (PolicyAttachmentStatus.LastSyncTime s)
    (PolicyAttachmentStatus.ObservedGeneration s)) a.
Definition set_Ready (v : bool) (a : t) : t :=
  let s := Status a in
  with_Status (PolicyAttachmentStatus.mk (PolicyAttachmentStatus.Conditions s) v
    (PolicyAttachmentStatus.PolicyName s) (PolicyAttachmentStatus.Target s)
    (PolicyAttachmentStatus.AttachedAt s) (PolicyAttachmentStatus.LastSyncTime s)
    (PolicyAttachmentStatus.ObservedGeneration s)) a.
Definition set_PolicyName (v : string) (a : t) : t :=
  let s := Status a in
  with_Status (PolicyAttachmentStatus.mk (PolicyAttachmentStatus.Conditions s)
    (PolicyAttachmentStatus.Ready s) v (PolicyAttachmentStatus.Target s)
    (PolicyAttachmentStatus.AttachedAt s) (PolicyAttachmentStatus.LastSyncTime s)
    (PolicyAttachmentStatus.ObservedGeneration s)) a.
Definition set_Target (v : string) (a : t) : t :=
  let s := Status a in
  with_Status (PolicyAttachmentStatus.mk (PolicyAttachmentStatus.Conditions s)
    (PolicyAttachmentStatus.Ready s) (PolicyAttachmentStatus.PolicyName s) v
    (PolicyAttachmentStatus.AttachedAt s) (PolicyAttachmentStatus.LastSyncTime s)
    (PolicyAttachmentStatus.ObservedGeneration s)) a.
Definition set_AttachedAt (v : option Time) (a : t) : t :=
  let s := Status a in
  with_Status (PolicyAttachmentStatus.mk (PolicyAttachmentStatus.Conditions s)
    (PolicyAttachmentStatus.Ready s) (PolicyAttachmentStatus.PolicyName s)
    (PolicyAttachmentStatus.Target s) v (PolicyAttachmentStatus.LastSyncTime s)
    (PolicyAttachmentStatus.ObservedGeneration s)) a.
Definition set_LastSyncTime (v : option Time) (a : t) : t :=
  let s := Status a in
  with_Status (PolicyAttachmentStatus.mk (PolicyAttachmentStatus.Conditions s)
    (PolicyAttachmentStatus.Ready s) (PolicyAttachmentStatus.PolicyName s)
    (PolicyAttachmentStatus.Target s) (PolicyAttachmentStatus.AttachedAt s) v
    (PolicyAttachmentStatus.ObservedGeneration s)) a.
Definition set_ObservedGeneration (v : Z) (a : t) : t :=
  let s := Status a in
  with_Status (PolicyAttachmentStatus.mk (PolicyAttachmentStatus.Conditions s)
    (PolicyAttachmentStatus.Ready s) (PolicyAttachmentStatus.PolicyName s)
    (PolicyAttachmentStatus.Target s) (PolicyAttachmentStatus.AttachedAt s)
    (PolicyAttachmentStatus.LastSyncTime s) v) a.
End PolicyAttachment.

(** [*p != ""] for an optional string: the pointer is set and the string it
    points to is not empty. *)
Definition given (p : option string) : bool :=
  match p with
  | Some s => bool_decide (s ≠ "")
  | None => false
  end.

Definition errTarget : error :=
  Errorf "exactly one of user or group (serviceAccount not supported) must be specified".

(** [resolveTarget]: the name, whether it is a group, and the error. *)
Definition resolveTarget (t : PolicyAttachmentTarget.t) : string * bool * option error :=
  let count := 0 in
  let name := "" in
  let isGroup := false in
  let '(count, name, isGroup) :=
    match PolicyAttachmentTarget.User t with
    | Some user =>
        if bool_decide (user ≠ "") then (count + 1, user, false) else (count, name, isGroup)
    | None => (count, name, isGroup)
    end in
  let '(count, name, isGroup) :=
    match PolicyAttachmentTarget.Group t with
    | Some group =>
        if bool_decide (group ≠ "") then (count + 1, group, true) else (count, name, isGroup)
    | None => (count, name, isGroup)
    end in
  let count :=
    match PolicyAttachmentTarget.ServiceAccount t with
    | Some serviceAccount =>
        (* ServiceAccount not implemented yet *)
        if bool_decide (serviceAccount ≠ "") then count + 1 else count
    | None => count
    end in
  if bool_decide (count ≠ 1) then ("", false, Some errTarget)
  else (name, isGroup, None).

(** ** The PolicyAttachment reconciler *)
Module PolicyAttachmentReconciler.

(** [reconcileAttachment] sets the target in the status of [attachment];
    the object is returned next to the result and the error. *)
Definition reconcileAttachment (attachment : PolicyAttachment.t) (minioClient : Client.t)
  : Prog (PolicyAttachment.t * Result.t * option error) :=
  let spec := PolicyAttachment.Spec attachment in
  let '(target, isGroup, err) := resolveTarget (PolicyAttachmentSpec.Target spec) in
  match err with
  | Some err => mret (attachment, Result.empty, Some (Wrapf "invalid target: " err))
  | None =>
      (* validate that the target exists *)
      if isGroup then
        mret (attachment, Result.empty, Some (Errorf "group targets not implemented"))
      else
        e ← call (Admin minioClient (GetUserInfo target));
        match e with
        | Some err =>
            mret (attachment, Result.after Minute,
                  Some (Wrapf ("user " +:+ target +:+ " not found or not ready: ") err))
        | None =>
            (* attach the policy *)
            e ← call (Admin minioClient
                        (SetPolicy (PolicyAttachmentSpec.PolicyName spec) target isGroup));
            match e with
            | Some err =>
                mret (attachment, Result.after Minute,
                      Some (Wrapf "failed to set policy: " err))
            | None =>
                mret (PolicyAttachment.set_Target target attachment, Result.after Hour, None)
            end
        end
  end.

Definition handleDeletion (attachment : PolicyAttachment.t)
  : KProg PolicyAttachment.t (Result.t * option error) :=
  if controllerutil.ContainsFinalizer (PolicyAttachment.Meta attachment)
       PolicyAttachmentFinalizer
  then
    let spec := PolicyAttachment.Spec attachment in
    let removeFinalizer : KProg PolicyAttachment.t (Result.t * option error) :=
      let attachment :=
        PolicyAttachment.with_Meta
          (controllerutil.RemoveFinalizer (PolicyAttachment.Meta attachment)
             PolicyAttachmentFinalizer) attachment in
      e ← kcall (KUpdate attachment);
      match e with
      | Some err => mret (Result.empty, Some err)
      | None => mret (Result.empty, None)
      end in
    r ← lift (NewClient (PolicyAttachmentSpec.Connection spec)
                (ObjectMeta.Namespace (PolicyAttachment.Meta attachment)));
    match r with
    | inl minioClient =>
        (* detach the policy by setting the empty policy *)
        let '(target, isGroup, err2) := resolveTarget (PolicyAttachmentSpec.Target spec) in
        if match err2 with None => true | Some _ => false end
           && bool_decide (target ≠ "")
        then
          e ← kcall (Core (Admin minioClient (SetPolicy "" target isGroup)));
          match e with
          | Some _ => mret (Result.after Minute, None)
          | None => removeFinalizer
          end
        else removeFinalizer
    | inr _ => mret (Result.after Minute, None)
    end
  else mret (Result.empty, None).

Definition Reconcile (req : ObjectKey.t)
  : KProg PolicyAttachment.t (Result.t * option error) :=
  r ← kcall (KGet req);
  match r with
  | inr err =>
      if IsNotFound err then mret (Result.empty, None) else mret (Result.empty, Some err)
  | inl attachment =>
      match ObjectMeta.DeletionTimestamp (PolicyAttachment.Meta attachment) with
      | Some _ => handleDeletion attachment
      | None =>
          (* add the finalizer; an error of the write ends the pass *)
          r ← (if negb (controllerutil.ContainsFinalizer
                          (PolicyAttachment.Meta attachment) PolicyAttachmentFinalizer)
               then
                 let attachment :=
                   PolicyAttachment.with_Meta
                     (controllerutil.AddFinalizer (PolicyAttachment.Meta attachment)
                        PolicyAttachmentFinalizer) attachment in
                 e ← kcall (KUpdate attachment);
                 match e with
                 | Some err => mret (inr err)
                 | None => mret (inl attachment)
                 end
               else mret (inl attachment));
          match r with
          | inr err => mret (Result.empty, Some err)
          | inl attachment =>
              conditions ← lift (SetCondition
                                   (PolicyAttachmentStatus.Conditions
                                      (PolicyAttachment.Status attachment))
                                   ConditionProgressing ConditionTrue "Reconciling"
                                   "Reconciling policy attachment");
              let attachment := PolicyAttachment.set_Conditions conditions attachment in
              let attachment :=
                PolicyAttachment.set_ObservedGeneration
                  (ObjectMeta.Generation (PolicyAttachment.Meta attachment)) attachment in
              e ← kcall (KStatusUpdate attachment);
              match e with
              | Some err =>
                  if IsConflict err then mret (Result.after Second, None)
                  else mret (Result.empty, Some err)
              | None =>
                  r ← lift (NewClient
                              (PolicyAttachmentSpec.Connection
                                 (PolicyAttachment.Spec attachment))
                              (ObjectMeta.Namespace (PolicyAttachment.Meta attachment)));
                  match r with
                  | inr err =>
                      conditions ← lift (SetCondition
                                           (PolicyAttachmentStatus.Conditions
                                              (PolicyAttachment.Status attachment))
                                           ConditionError ConditionTrue "ClientError"
                                           ("Failed to create MinIO client: " +:+ Error err));
                      let attachment := PolicyAttachment.set_Conditions conditions attachment in
                      let attachment := PolicyAttachment.set_Ready false attachment in
                      _ ← kcall (KStatusUpdate attachment);
                      mret (Result.after Minute, None)
                  | inl minioClient =>
                      '(attachment, result, err) ←
                        lift (PolicyAttachmentReconciler.reconcileAttachment
                                attachment minioClient);
                      match err with
                      | Some err =>
                          conditions ← lift (SetCondition
                                               (PolicyAttachmentStatus.Conditions
                                                  (PolicyAttachment.Status attachment))
                                               ConditionError ConditionTrue "ReconcileError"
                                               ("Failed to reconcile policy attachment: "
                                                +:+ Error err));
                          let attachment :=
                            PolicyAttachment.set_Conditions conditions attachment in
                          let attachment := PolicyAttachment.set_Ready false attachment in
                          now ← kcall (Core Now);
                          let attachment :=
                            PolicyAttachment.set_LastSyncTime (Some now) attachment in
                          _ ← kcall (KStatusUpdate attachment);
                          mret (result, Some err)
                      | None =>
                          conditions ← lift (SetCondition
                                               (PolicyAttachmentStatus.Conditions
                                                  (PolicyAttachment.Status attachment))
                                               ConditionReady ConditionTrue "Ready"
                                               "Policy attachment is ready");
                          let attachment :=
                            PolicyAttachment.set_Conditions conditions attachment in
                          conditions ← lift (SetCondition
                                               (PolicyAttachmentStatus.Conditions
                                                  (PolicyAttachment.Status attachment))
                                               ConditionProgressing ConditionFalse "Ready"
                                               "Policy attachment reconciliation completed");
                          let attachment :=
                            PolicyAttachment.set_Conditions conditions attachment in
                          let attachment := PolicyAttachment.set_Ready true attachment in
                          let attachment :=
                            PolicyAttachment.set_PolicyName
                              (PolicyAttachmentSpec.PolicyName
                                 (PolicyAttachment.Spec attachment)) attachment in
                          now ← kcall (Core Now);
                          let attachment :=
                            PolicyAttachment.set_LastSyncTime (Some now) attachment in
                          attachment ←
                            match PolicyAttachmentStatus.AttachedAt
                                    (PolicyAttachment.Status attachment) with
                            | None =>
                                now ← kcall (Core Now);
                                mret (PolicyAttachment.set_AttachedAt (Some now) attachment)
                            | Some _ => mret attachment
                            end;
                          e ← kcall (KStatusUpdate attachment);
                          match e with
                          | Some err =>
                              if IsConflict err then mret (Result.after Second, None)
                              else mret (Result.empty, Some err)
                          | None => mret (result, None)
                          end
                      end
                  end
              end
          end
      end
  end.

End PolicyAttachmentReconciler.

(** What [reconcileAttachment] leaves behind.  Without an error: the target
    is a valid user, the run probed the user and then attached the policy
    of the spec to it, both with success; the target is recorded in the
    status and the retry is hourly.  With an error: the attachment is
    returned as it came, no attachment succeeded, a target that is invalid
    or a group made no call at all and asks for no retry delay, and any
    other failure wraps the cause of the failed call and asks for a retry
    in a minute. *)
Definition reconcileAttachment_post (attachment : PolicyAttachment.t)
    (tr : list Event) (res : PolicyAttachment.t * Result.t * option error) : Prop :=
  let spec := PolicyAttachment.Spec attachment in
  let resolved := resolveTarget (PolicyAttachmentSpec.Target spec) in
  let target := resolved.1.1 in
  let isGroup := resolved.1.2 in
  match res.2 with
  | None =>
      resolved.2 = None /\ isGroup = false
      /\ admin_calls tr
         = [(GetUserInfo target, None);
            (SetPolicy (PolicyAttachmentSpec.PolicyName spec) target false, None)]
      /\ length tr = 2%nat
      /\ res.1.2 = Result.after Hour
      /\ res.1.1 = PolicyAttachment.set_Target target attachment
  | Some err =>
      res.1.1 = attachment
      /\ Forall (fun c => c.2 = None -> forall p e g, c.1 <> SetPolicy p e g) (admin_calls tr)
      /\ match resolved.2, isGroup with
         | None, false =>
             res.1.2 = Result.after Minute
             /\ exists text call cause,
                  err = Wrapf text cause /\ last (admin_calls tr) = Some (call, Some cause)
         | _, _ => tr = [] /\ res.1.2 = Result.empty
         end
  end.

(** What the teardown of an attachment that carries the finalizer leaves
    behind, read off whether the run got a client ([clientBuilt]), its calls
    on the admin handle and its writes of the attachment.  Without a client:
    no call, no write, a retry in a minute.  With a client and a target
    that resolves to a name: one call, [SetPolicy] with the empty policy for
    that name, and the finalizer is removed (the attachment is written back
    without it, once) only when the call succeeded; when it failed nothing
    is written and the retry is in a minute.  With a client and a target
    that is invalid or resolves to the empty name: no call, and the
    finalizer is removed. *)
Definition detached_post (attachment : PolicyAttachment.t) (clientBuilt : bool)
    (adminCalls : list (AdminCall * option error))
    (writes : list (PolicyAttachment.t * option error))
    (res : Result.t * option error) : Prop :=
  let resolved :=
    resolveTarget (PolicyAttachmentSpec.Target (PolicyAttachment.Spec attachment)) in
  let target := resolved.1.1 in
  let isGroup := resolved.1.2 in
  let released :=
    PolicyAttachment.with_Meta
      (controllerutil.RemoveFinalizer (PolicyAttachment.Meta attachment)
         PolicyAttachmentFinalizer) attachment in
  let detach :=
    match resolved.2 with
    | None => bool_decide (target ≠ "")
    | Some _ => false
    end in
  if clientBuilt then
    if detach then
      exists answer,
        adminCalls = [(SetPolicy "" target isGroup, answer)]
        /\ match answer with
           | Some _ => writes = [] /\ res = (Result.after Minute, None)
           | None =>
               exists written, writes = [(released, written)] /\ res = (Result.empty, written)
           end
    else
      adminCalls = []
      /\ exists written, writes = [(released, written)] /\ res = (Result.empty, written)
  else adminCalls = [] /\ writes = [] /\ res = (Result.after Minute, None).

Definition attachment_teardown_post (attachment : PolicyAttachment.t)
    (tr : list (KEvent PolicyAttachment.t)) (res : Result.t * option error) : Prop :=
  detached_post attachment (existsb client_built (cores tr)) (admin_calls (cores tr))
    (kupdates tr) res.

(** What a pass on an attachment that is not being deleted does with the
    time of attachment and with a refused status write, read off the
    attachment it loaded ([first]), its status writes, its readings of the
    clock and its result.  A time of attachment the attachment was loaded
    with is in every status the pass writes; without one, a status the pass
    writes has none either, unless it is the final write of a ready status,
    which carries the last reading of the clock.  And when the API server
    refuses with a conflict the first status write, or the final write of a
    ready status, the pass returns no error and asks for a retry after one
    second. *)
Definition attached_post (first : option PolicyAttachment.t)
    (writes : list (PolicyAttachment.t * option error)) (clock : list Time)
    (res : Result.t * option error) : Prop :=
  forall a0,
    first = Some a0 ->
    ObjectMeta.DeletionTimestamp (PolicyAttachment.Meta a0) = None ->
    let attachedAt a := PolicyAttachmentStatus.AttachedAt (PolicyAttachment.Status a) in
    let ready a := PolicyAttachmentStatus.Ready (PolicyAttachment.Status a) in
    match attachedAt a0 with
    | Some t => Forall (fun write => attachedAt write.1 = Some t) writes
    | None =>
        Forall (fun write =>
                  attachedAt write.1 = None
                  \/ (ready write.1 = true /\ attachedAt write.1 = last clock
                      /\ last writes = Some write)) writes
    end
    /\ (forall a err,
          IsConflict err = true ->
          head writes = Some (a, Some err)
          \/ (last writes = Some (a, Some err) /\ ready a = true) ->
          res = (Result.after Second, None)).

Definition attachment_pass_post (tr : list (KEvent PolicyAttachment.t))
    (res : Result.t * option error) : Prop :=
  attached_post (kloaded tr) (kstatus_writes tr) (clock_readings (cores tr)) res.

(** ** Alias, in full

    The Alias resource as its own reconciler reads and writes it; [Alias.t]
    above is the part of it the resolver reads.  Of the health check
    settings the reconciler reads [Enabled] and [IntervalSeconds] (an
    [int32]; multiplied by [time.Second] it stays within an [int64]). *)
Definition AliasFinalizer : string := "alias.minio.mxcd.dev/finalizer".

Module AliasHealthCheck.
Record t : Type := mk { Enabled : bool; IntervalSeconds : option Z }.
End AliasHealthCheck.

Module AliasKind.

Module Spec.
Record t : Type := mk {
  URL : string;
  SecretRef : SecretReference.t;
  TLS : option TLSConfig.t;
  HealthCheck : option AliasHealthCheck.t;
  Region : option string;
  PathStyle : bool }.
End Spec.

Module Status.
Record t : Type := mk {
  Conditions : list Condition.t;
  Ready : bool;
  URL : string;
  Healthy : bool;
  LastHealthCheck : option Time;
  Version : string;
  Region : string;
  ConnectedAt : option Time;
  LastSyncTime : option Time;
  ObservedGeneration : Z }.
Definition set_Conditions (v : list Condition.t) (s : t) : t :=
  mk v (Ready s) (URL s) (Healthy s) (LastHealthCheck s) (Version s) (Region s)
    (ConnectedAt s) (LastSyncTime s) (ObservedGeneration s).
Definition set_Ready (v : bool) (s : t) : t :=
  mk (Conditions s) v (URL s) (Healthy s) (LastHealthCheck s) (Version s) (Region s)
    (ConnectedAt s) (LastSyncTime s) (ObservedGeneration s).
Definition set_URL (v : string) (s : t) : t :=
  mk (Conditions s) (Ready s) v (Healthy s) (LastHealthCheck s) (Version s) (Region s)
    (ConnectedAt s) (LastSyncTime s) (ObservedGeneration s).
Definition set_Healthy (v : bool) (s : t) : t :=
  mk (Conditions s) (Ready s) (URL s) v (LastHealthCheck s) (Version s) (Region s)
    (ConnectedAt s) (LastSyncTime s) (ObservedGeneration s).
Definition set_LastHealthCheck (v : option Time) (s : t) : t :=
  mk (Conditions s) (Ready s) (URL s) (Healthy s) v (Version s) (Region s)
    (ConnectedAt s) (LastSyncTime s) (ObservedGeneration s).
Definition set_Version (v : string) (s : t) : t :=
  mk (Conditions s) (Ready s) (URL s) (Healthy s) (LastHealthCheck s) v (Region s)
    (ConnectedAt s) (LastSyncTime s) (ObservedGeneration s).
Definition set_Region (v : string) (s : t) : t :=
  mk (Conditions s) (Ready s) (URL s) (Healthy s) (LastHealthCheck s) (Version s) v
    (ConnectedAt s) (LastSyncTime s) (ObservedGeneration s).
Definition set_ConnectedAt (v : option Time) (s : t) : t :=
  mk (Conditions s) (Ready s) (URL s) (Healthy s) (LastHealthCheck s) (Version s) (Region s)
    v (LastSyncTime s) (ObservedGeneration s).
Definition set_LastSyncTime (v : option Time) (s : t) : t :=
  mk (Conditions s) (Ready s) (URL s) (Healthy s) (LastHealthCheck s) (Version s) (Region s)
    (ConnectedAt s) v (ObservedGeneration s).
Definition set_ObservedGeneration (v : Z) (s : t) : t :=
  mk (Conditions s) (Ready s) (URL s) (Healthy s) (LastHealthCheck s) (Version s) (Region s)
    (ConnectedAt s) (LastSyncTime s) v.
End Status.

Record t : Type := mk {
  Meta : ObjectMeta.t;
  Spec : Spec.t;
  Status : Status.t }.
Definition with_Meta (m : ObjectMeta.t) (a : t) : t := mk m (Spec a) (Status a).
(** An assignment to a status field, [alias.Status.F = v]. *)
Definition on_Status (f : Status.t -> Status.t) (a : t) : t :=
  mk (Meta a) (Spec a) (f (Status a)).

(** What the resolver reads of an alias. *)
Definition view (a : t) : Alias.t :=
  Alias.mk
    (AliasSpec.mk (Spec.URL (Spec a)) (Spec.SecretRef (Spec a)) (Spec.TLS (Spec a))
       (Spec.Region (Spec a)) (Spec.PathStyle (Spec a)))
    (AliasStatus.mk (Status.Ready (Status a))).

End AliasKind.

(** ** The Alias reconciler *)
Module AliasReconciler.

(** [Client.HealthCheck] lists the buckets; [Client.GetServerInfo] asks the
    admin API, and the reconciler reads [MinioVersion] of the answer. *)
Definition HealthCheck (c : Client.t) : KProg AliasKind.t (option error) :=
  kcall (S3ListBuckets c).

Definition GetServerInfo (c : Client.t) : KProg AliasKind.t (string + error) :=
  kcall (AdminServerInfo c).

Definition reconcileAlias (alias : AliasKind.t) (minioClient : Client.t)
  : KProg AliasKind.t (AliasKind.t * Result.t * option error) :=
  (* perform the health check *)
  now ← kcall (Core Now);
  let alias := AliasKind.on_Status (AliasKind.Status.set_LastHealthCheck (Some now)) alias in
  e ← HealthCheck minioClient;
  match e with
  | Some _ =>
      let alias := AliasKind.on_Status (AliasKind.Status.set_Healthy false) alias in
      mret (alias, Result.after Minute, None)
  | None =>
      let alias := AliasKind.on_Status (AliasKind.Status.set_Healthy true) alias in
      let alias :=
        match AliasKind.Status.ConnectedAt (AliasKind.Status alias) with
        | None => AliasKind.on_Status (AliasKind.Status.set_ConnectedAt (Some now)) alias
        | Some _ => alias
        end in
      (* the server information fills in the version and the region *)
      r ← GetServerInfo minioClient;
      let alias :=
        match r with
        | inr _ => alias  (* the reconciliation does not fail for this *)
        | inl minioVersion =>
            let alias := AliasKind.on_Status (AliasKind.Status.set_Version minioVersion) alias in
            match AliasKind.Spec.Region (AliasKind.Spec alias) with
            | Some region => AliasKind.on_Status (AliasKind.Status.set_Region region) alias
            | None => alias
            end
        end in
      (* the next health check *)
      let interval := Minute * 5 in
      let interval :=
        match AliasKind.Spec.HealthCheck (AliasKind.Spec alias) with
        | Some healthCheck =>
            if AliasHealthCheck.Enabled healthCheck then
              match AliasHealthCheck.IntervalSeconds healthCheck with
              | Some intervalSeconds => intervalSeconds * Second
              | None => interval
              end
            else interval
        | None => interval
        end in
      mret (alias, Result.after interval, None)
  end.

Definition handleDeletion (alias : AliasKind.t) : KProg AliasKind.t (Result.t * option error) :=
  if controllerutil.ContainsFinalizer (AliasKind.Meta alias) AliasFinalizer then
    (* nothing to clean up in MinIO *)
    let alias :=
      AliasKind.with_Meta
        (controllerutil.RemoveFinalizer (AliasKind.Meta alias) AliasFinalizer) alias in
    e ← kcall (KUpdate alias);
    mret (Result.empty, e)
  else mret (Result.empty, None).

Definition Reconcile (req : ObjectKey.t) : KProg AliasKind.t (Result.t * option error) :=
  r ← kcall (KGet req);
  match r with
  | inr err =>
      if IsNotFound err then mret (Result.empty, None) else mret (Result.empty, Some err)
  | inl alias =>
      match ObjectMeta.DeletionTimestamp (AliasKind.Meta alias) with
      | Some _ => handleDeletion alias
      | None =>
          if negb (controllerutil.ContainsFinalizer (AliasKind.Meta alias) AliasFinalizer) then
            let alias :=
              AliasKind.with_Meta
                (controllerutil.AddFinalizer (AliasKind.Meta alias) AliasFinalizer) alias in
            e ← kcall (KUpdate alias);
            mret (Result.empty, e)
          else
            conditions ← lift (SetCondition
                                 (AliasKind.Status.Conditions (AliasKind.Status alias))
                                 ConditionProgressing ConditionTrue "Reconciling"
                                 "Reconciling alias");
            let alias :=
              AliasKind.on_Status (AliasKind.Status.set_Conditions conditions) alias in
            let alias :=
              AliasKind.on_Status
                (AliasKind.Status.set_ObservedGeneration
                   (ObjectMeta.Generation (AliasKind.Meta alias))) alias in
            e ← kcall (KStatusUpdate alias);
            match e with
            | Some err => mret (Result.empty, Some err)
            | None =>
                (* a connection of its own, for the health check *)
                let conn :=
                  MinIOConnection.mk None None
                    (Some (AliasKind.Spec.URL (AliasKind.Spec alias)))
                    (Some (AliasKind.Spec.SecretRef (AliasKind.Spec alias)))
                    (AliasKind.Spec.TLS (AliasKind.Spec alias)) in
                r ← lift (NewClient conn (ObjectMeta.Namespace (AliasKind.Meta alias)));
                match r with
                | inr err =>
                    conditions ← lift (SetCondition
                                         (AliasKind.Status.Conditions (AliasKind.Status alias))
                                         ConditionError ConditionTrue "ClientError"
                                         ("Failed to create MinIO client: " +:+ Error err));
                    let alias :=
                      AliasKind.on_Status (AliasKind.Status.set_Conditions conditions) alias in
                    let alias := AliasKind.on_Status (AliasKind.Status.set_Ready false) alias in
                    let alias :=
                      AliasKind.on_Status (AliasKind.Status.set_Healthy false) alias in
                    _ ← kcall (KStatusUpdate alias);
                    mret (Result.after Minute, None)
                | inl minioClient =>
                    '(alias, result, err) ← reconcileAlias alias minioClient;
                    match err with
                    | Some err =>
                        conditions ← lift (SetCondition
                                             (AliasKind.Status.Conditions
                                                (AliasKind.Status alias))
                                             ConditionError ConditionTrue "ReconcileError"
                                             ("Failed to reconcile alias: " +:+ Error err));
                        let alias :=
                          AliasKind.on_Status (AliasKind.Status.set_Conditions conditions)
                            alias in
                        let alias :=
                          AliasKind.on_Status (AliasKind.Status.set_Ready false) alias in
                        let alias :=
                          AliasKind.on_Status (AliasKind.Status.set_Healthy false) alias in
                        now ← kcall (Core Now);
                        let alias :=
                          AliasKind.on_Status (AliasKind.Status.set_LastSyncTime (Some now))
                            alias in
                        _ ← kcall (KStatusUpdate alias);
                        mret (result, Some err)
                    | None =>
                        conditions ← lift (SetCondition
                                             (AliasKind.Status.Conditions
                                                (AliasKind.Status alias))
                                             ConditionReady ConditionTrue "Ready"
                                             "Alias is ready");
                        let alias :=
                          AliasKind.on_Status (AliasKind.Status.set_Conditions conditions)
                            alias in
                        conditions ← lift (SetCondition
                                             (AliasKind.Status.Conditions
                                                (AliasKind.Status alias))
                                             ConditionProgressing ConditionFalse "Ready"
                                             "Alias reconciliation completed");
                        let alias :=
                          AliasKind.on_Status (AliasKind.Status.set_Conditions conditions)
                            alias in
                        let alias :=
                          AliasKind.on_Status (AliasKind.Status.set_Ready true) alias in
                        let alias :=
                          AliasKind.on_Status
                            (AliasKind.Status.set_URL
                               (AliasKind.Spec.URL (AliasKind.Spec alias))) alias in
                        now ← kcall (Core Now);
                        let alias :=
                          AliasKind.on_Status (AliasKind.Status.set_LastSyncTime (Some now))
                            alias in
                        e ← kcall (KStatusUpdate alias);
                        match e with
                        | Some err => mret (Result.empty, Some err)
                        | None => mret (result, None)
                        end
                    end
                end
            end
      end
  end.

End AliasReconciler.

(** What a pass on an alias that is not being deleted leaves behind once it
    has made its health check, read off the alias it loaded ([first]), its
    calls on the SDK, its status writes and its result.  A failed health
    check is the only call of the pass; after a successful one the pass
    asks for the server information and nothing else.  In both cases the
    last status write says ready and carries the address of the spec;
    it says healthy exactly when the health check succeeded; the time the
    connection was established is the one the alias was loaded with or,
    without one and after a successful health check, the time of this
    health check.  When the API server accepts that write, the pass returns
    no error and asks for a retry after one minute when the health check
    failed, and otherwise after the interval of the spec (in seconds) when
    health checks are enabled with an interval, and after five minutes when
    they are not. *)
Definition alias_health_post (first : option AliasKind.t)
    (sdkCalls : list (SdkCall * option error))
    (writes : list (AliasKind.t * option error)) (res : Result.t * option error) : Prop :=
  forall a0,
    first = Some a0 ->
    ObjectMeta.DeletionTimestamp (AliasKind.Meta a0) = None ->
    forall answer rest,
      sdkCalls = (ListBuckets, answer) :: rest ->
      exists a written,
        last writes = Some (a, written)
        /\ AliasKind.Status.Ready (AliasKind.Status a) = true
        /\ AliasKind.Status.URL (AliasKind.Status a) = AliasKind.Spec.URL (AliasKind.Spec a0)
        /\ AliasKind.Status.LastHealthCheck (AliasKind.Status a) <> None
        /\ match answer with
           | Some _ =>
               rest = []
               /\ AliasKind.Status.Healthy (AliasKind.Status a) = false
               /\ AliasKind.Status.ConnectedAt (AliasKind.Status a)
                  = AliasKind.Status.ConnectedAt (AliasKind.Status a0)
               /\ (written = None -> res = (Result.after Minute, None))
           | None =>
               (exists info, rest = [(ServerInfo, info)])
               /\ AliasKind.Status.Healthy (AliasKind.Status a) = true
               /\ AliasKind.Status.ConnectedAt (AliasKind.Status a)
                  = match AliasKind.Status.ConnectedAt (AliasKind.Status a0) with
                    | Some t => Some t
                    | None => AliasKind.Status.LastHealthCheck (AliasKind.Status a)
                    end
               /\ (written = None ->
                   res.2 = None
                   /\ Result.RequeueAfter res.1
                      = match AliasKind.Spec.HealthCheck (AliasKind.Spec a0) with
                        | Some (AliasHealthCheck.mk true (Some intervalSeconds)) =>
                            intervalSeconds * Second
                        | _ => 5 * Minute
                        end)
           end.

Definition alias_pass_post (tr : list (KEvent AliasKind.t)) (res : Result.t * option error)
  : Prop :=
  alias_health_post (kloaded tr) (sdk_calls tr) (kstatus_writes tr) res.

(** ** Bucket, in full

    The Bucket resource as [reconcileBucket] reads and writes it;
    [Bucket.t] above is the part of it the teardown reads.  The retention,
    notification and quota settings of the spec are read nowhere in the
    controller.  [Tags] is a Go map: the list holds its entries in the
    order in which the [range] statement of the pass visits them, and
    [len] of the map is the length of the list. *)
Module BucketKind.

Module Spec.
Record t : Type := mk {
  Connection : MinIOConnection.t;
  BucketName : string;
  Region : option string;
  ObjectLocking : bool;
  Versioning : bool;
  Tags : list (string * string) }.
End Spec.

Module Status.
Record t : Type := mk {
  Conditions : list Condition.t;
  Ready : bool;
  BucketName : string;
  Region : string;
  CreationDate : option Time;
  LastSyncTime : option Time;
  ObservedGeneration : Z }.
Definition set_Region (v : string) (s : t) : t :=
  mk (Conditions s) (Ready s) (BucketName s) v (CreationDate s) (LastSyncTime s)
    (ObservedGeneration s).
Definition set_CreationDate (v : option Time) (s : t) : t :=
  mk (Conditions s) (Ready s) (BucketName s) (Region s) v (LastSyncTime s)
    (ObservedGeneration s).
End Status.

Record t : Type := mk {
  Meta : ObjectMeta.t;
  Spec : Spec.t;
  Status : Status.t }.
(** An assignment to a status field, [bucket.Status.F = v]. *)
Definition on_Status (f : Status.t -> Status.t) (b : t) : t :=
  mk (Meta b) (Spec b) (f (Status b)).

End BucketKind.

(** *** [reconcileBucket] *)
Module BucketCreation.

(** The loop over the tags of the spec: [tags] holds what [tags.Set] has
    accepted so far. *)
Fixpoint setTags (tags entries : list (string * string))
  : KProg BucketKind.t (list (string * string) + error) :=
  match entries with
  | [] => mret (inl tags)
  | (key, value) :: rest =>
      e ← kcall (TagsSet key value);
      match e with
      | Some err => mret (inr (Wrapf ("failed to set tag " +:+ key +:+ ": ") err))
      | None => setTags (tags ++ [(key, value)]) rest
      end
  end.

Definition reconcileBucket (bucket : BucketKind.t) (minioClient : Client.t)
  : KProg BucketKind.t (BucketKind.t * Result.t * option error) :=
  let spec := BucketKind.Spec bucket in
  let bucketName := BucketKind.Spec.BucketName spec in
  (* set the tags when the spec has some *)
  let tagging (bucket : BucketKind.t)
    : KProg BucketKind.t (BucketKind.t * Result.t * option error) :=
    if (0 <? length (BucketKind.Spec.Tags spec))%nat then
      e ← kcall NewTags;
      match e with
      | Some err =>
          mret (bucket, Result.after Minute, Some (Wrapf "failed to create tags: " err))
      | None =>
          r ← setTags [] (BucketKind.Spec.Tags spec);
          match r with
          | inr err => mret (bucket, Result.after Minute, Some err)
          | inl tags =>
              e ← kcall (S3SetBucketTagging minioClient bucketName tags);
              match e with
              | Some err =>
                  mret (bucket, Result.after Minute,
                        Some (Wrapf "failed to set bucket tags: " err))
              | None => mret (bucket, Result.after Hour, None)
              end
          end
      end
    else mret (bucket, Result.after Hour, None) in
  (* switch versioning on when the spec asks for it *)
  let versioning (bucket : BucketKind.t)
    : KProg BucketKind.t (BucketKind.t * Result.t * option error) :=
    if BucketKind.Spec.Versioning spec then
      e ← kcall (S3SetBucketVersioning minioClient bucketName "Enabled");
      match e with
      | Some err =>
          mret (bucket, Result.after Minute, Some (Wrapf "failed to enable versioning: " err))
      | None => tagging bucket
      end
    else tagging bucket in
  (* does the bucket exist? *)
  r ← kcall (Core (S3BucketExists minioClient bucketName));
  match r with
  | inr err =>
      mret (bucket, Result.after Minute,
            Some (Wrapf "failed to check bucket existence: " err))
  | inl false =>
      (* make it *)
      let region := default "" (BucketKind.Spec.Region spec) in
      let bucket :=
        match BucketKind.Spec.Region spec with
        | Some region => BucketKind.on_Status (BucketKind.Status.set_Region region) bucket
        | None => bucket
        end in
      e ← kcall (S3MakeBucket minioClient bucketName region
                   (BucketKind.Spec.ObjectLocking spec));
      match e with
      | Some err =>
          mret (bucket, Result.after Minute, Some (Wrapf "failed to create bucket: " err))
      | None =>
          now ← kcall (Core Now);
          let bucket :=
            BucketKind.on_Status (BucketKind.Status.set_CreationDate (Some now)) bucket in
          versioning bucket
      end
  | inl true => versioning bucket
  end.

End BucketCreation.

(** The calls on the SDK the spec of a bucket asks for, all of them
    answered without an error: the bucket is made when it is [absent],
    versioning is switched on when the spec says so, and the tags of the
    spec are set when there are some. *)
Definition wanted_calls (spec : BucketKind.Spec.t) (absent : bool)
  : list (SdkCall * option error) :=
  (if absent then
     [(MakeBucket (BucketKind.Spec.BucketName spec)
         (default "" (BucketKind.Spec.Region spec)) (BucketKind.Spec.ObjectLocking spec),
       None)]
   else [])
  ++ (if BucketKind.Spec.Versioning spec then
        [(SetBucketVersioning (BucketKind.Spec.BucketName spec) "Enabled", None)]
      else [])
  ++ (match BucketKind.Spec.Tags spec with
      | [] => []
      | tags => [(SetBucketTagging (BucketKind.Spec.BucketName spec) tags, None)]
      end).

Definition is_MakeBucket (call : SdkCall * option error) : bool :=
  match call.1 with MakeBucket _ _ _ => true | _ => false end.

(** What [reconcileBucket] leaves behind on a bucket whose existence probe
    answered [probe]: its calls on the SDK, the bucket it hands back and
    its result. *)
Definition reconcileBucket_post (bucket : BucketKind.t) (probe : bool + error)
    (sdkCalls : list (SdkCall * option error)) (clock : list Time)
    (res : BucketKind.t * Result.t * option error) : Prop :=
  let spec := BucketKind.Spec bucket in
  let status b := BucketKind.Status b in
  (* the result *)
  match res.2 with
  | Some _ => res.1.2 = Result.after Minute
  | None =>
      res.1.2 = Result.after Hour
      /\ exists absent, probe = inl (negb absent) /\ sdkCalls = wanted_calls spec absent
  end
  (* making the bucket *)
  /\ match probe with
     | inr _ => sdkCalls = [] /\ res.2 <> None /\ res.1.1 = bucket
     | inl true =>
         filter is_MakeBucket sdkCalls = [] /\ status res.1.1 = status bucket
     | inl false =>
         exists made rest,
           sdkCalls =
             (MakeBucket (BucketKind.Spec.BucketName spec)
                (default "" (BucketKind.Spec.Region spec))
                (BucketKind.Spec.ObjectLocking spec), made) :: rest
           /\ filter is_MakeBucket rest = []
           /\ BucketKind.Status.Region (status res.1.1)
              = default (BucketKind.Status.Region (status bucket))
                  (BucketKind.Spec.Region spec)
           /\ match made with
              | Some _ =>
                  rest = [] /\ res.2 <> None
                  /\ BucketKind.Status.CreationDate (status res.1.1)
                     = BucketKind.Status.CreationDate (status bucket)
              | None =>
                  exists now,
                    clock = [now]
                    /\ BucketKind.Status.CreationDate (status res.1.1) = Some now
              end
     end.

(** ** A world for the reconcilers of the other kinds

    The shared world together with the stored resource of the kind.  The
    API server refuses a status write while the shared world counts
    conflicts; MinIO answers the calls of the SDK when it is reachable. *)
Module FakeKind.

Definition World (A : Type) : Type := Fake.World * option A.

Definition sdk {A : Type} (w : World A) : option error * World A :=
  (if Fake.reachable w.1 then None else Some Fake.unreachable, w).

Definition handle {A : Type} : KHandler A (World A) :=
  fun X op =>
    match op in KindOp _ X return World A -> X * World A with
    | Core op' => fun w => let '(x, shared) := Fake.handle _ op' w.1 in (x, (shared, w.2))
    | KGet _ => fun w =>
        (match w.2 with Some a => inl a | None => inr Fake.notFound end, w)
    | KUpdate a => fun w => (None, (w.1, Some a))
    | KStatusUpdate a => fun w =>
        match Fake.conflicts w.1 with
        | S n => (Some Fake.conflict, (Fake.set_conflicts n w.1, w.2))
        | O => (None, (w.1, Some a))
        end
    | S3ListBuckets _ => sdk
    | AdminServerInfo _ => fun w =>
        (if Fake.reachable w.1 then inl "RELEASE.2025-01-01" else inr Fake.unreachable, w)
    | S3MakeBucket _ _ _ _ => sdk
    | S3SetBucketVersioning _ _ _ => sdk
    | NewTags => fun w => (None, w)
    | TagsSet _ _ => fun w => (None, w)
    | S3SetBucketTagging _ _ _ => sdk
    end.

End FakeKind.

(** ** More concrete resources and worlds *)
Module Examples.

Import Scenario.

(** The world of the scenario with MinIO out of reach. *)
Definition offlineWorld : Fake.World :=
  Fake.mk
    {[ ("default", "alice") := alice viaAlias [UserFinalizer] None ]}
    {[ ("default", "readonly") := readonly [PolicyFinalizer] ]}
    {[ ("default", "minio") := readyAlias ]}
    ∅
    {[ ("default", "minio-creds") := credentials ]}
    100 0 false ∅ ∅.

(** A pass on the user while MinIO is out of reach. *)
Definition offlinePass : Result.t * option error * list Event * Fake.World :=
  run Fake.handle (UserReconciler.Reconcile aliceKey) offlineWorld.

(** A bucket in teardown, and a MinIO that holds it with two objects. *)
Definition logs : Bucket.t :=
  Bucket.mk (ObjectMeta.mk "logs" "default" 1 (Some 90) [BucketFinalizer])
    (BucketSpec.mk viaAlias "logs").

Definition stocked : Handler Fake.World :=
  fun R op =>
    match op in Op R return Fake.World -> R * Fake.World with
    | S3BucketExists _ _ => fun w => (inl true, w)
    | S3ListObjects _ _ => fun w =>
        ([ObjectInfo.mk "2025/01.log" None; ObjectInfo.mk "2025/02.log" None], w)
    | op' => Fake.handle _ op'
    end.

(** A policy attachment for the user of the scenario, not attached yet. *)
Definition grant (finalizers : list string) (deletion : option Time) : PolicyAttachment.t :=
  PolicyAttachment.mk
    (ObjectMeta.mk "alice-readonly" "default" 1 deletion finalizers)
    (PolicyAttachmentSpec.mk viaAlias "readonly"
       (PolicyAttachmentTarget.mk (Some "alice") None None))
    (PolicyAttachmentStatus.mk [] false "" "" None None 0).

Definition grantKey : ObjectKey.t := ObjectKey.mk "default" "alice-readonly".

(** MinIO holds the user of the scenario. *)
Definition worldWithAlice (conflicts : nat) : Fake.World :=
  world (alice viaAlias [UserFinalizer] None) (readonly [PolicyFinalizer]) conflicts
    {[ "alice" ]}.

(** An alias that asks for a health check every thirty seconds. *)
Definition minioAlias : AliasKind.t :=
  AliasKind.mk
    (ObjectMeta.mk "minio" "default" 1 None [AliasFinalizer])
    (AliasKind.Spec.mk "http://minio:9000" credentialsRef None
       (Some (AliasHealthCheck.mk true (Some 30))) (Some "eu-1") true)
    (AliasKind.Status.mk [] false "" false None "" "" None None 0).

Definition minioAliasKey : ObjectKey.t := ObjectKey.mk "default" "minio".

End Examples.

(** * Properties *)

(** ** Runs *)

Lemma run_bind {W A B : Type} (h : Handler W) (p : Prog A) (f : A -> Prog B) (w : W) :
  run h (p ≫= f) w =
  let '(a, tr1, w1) := run h p w in
  let '(b, tr2, w2) := run h (f a) w1 in
  (b, tr1 ++ tr2, w2).
Proof.
  revert w. induction p as [a | R op k IH]; intros w.
  - change (run h (Ret a ≫= f) w) with (run h (f a) w). simpl.
    destruct (run h (f a) w) as [[b tr] w2]. reflexivity.
  - change (run h (Vis op k ≫= f) w) with (run h (Vis op (fun r => k r ≫= f)) w).
    simpl. destruct (h R op w) as [r w1]. rewrite IH.
    destruct (run h (k r) w1) as [[a tr1] w1'].
    destruct (run h (f a) w1') as [[b tr2] w2]. reflexivity.
Qed.

(** [wp] is sound for every handler and every world. *)
Lemma wp_run {W A : Type} (h : Handler W) (p : Prog A) (Q : list Event -> A -> Prop) (w : W) :
  wp p Q -> Q (trace_of (run h p w)) (result_of (run h p w)).
Proof.
  revert Q w. induction p as [a | R op k IH]; intros Q w Hwp; simpl in *.
  - exact Hwp.
  - destruct (h R op w) as [r w1]. specialize (IH r _ w1 (Hwp r)).
    destruct (run h (k r) w1) as [[a tr] w2]. exact IH.
Qed.

Lemma wp_bind {A B : Type} (p : Prog A) (f : A -> Prog B) (Q : list Event -> B -> Prop) :
  wp p (fun tr1 a => wp (f a) (fun tr2 b => Q (tr1 ++ tr2) b)) -> wp (p ≫= f) Q.
Proof.
  revert Q. induction p as [a | R op k IH]; intros Q H.
  - exact H.
  - change (wp (Vis op (fun r => k r ≫= f)) Q). simpl in *. intros r.
    apply IH. exact (H r).
Qed.

Lemma wp_mono {A : Type} (p : Prog A) (Q Q' : list Event -> A -> Prop) :
  (forall tr a, Q tr a -> Q' tr a) -> wp p Q -> wp p Q'.
Proof.
  revert Q Q'. induction p as [a | R op k IH]; intros Q Q' HQ H; simpl in *.
  - auto.
  - intros r. eapply IH; [| exact (H r)]. intros tr a. apply HQ.
Qed.

(** ** Conditions *)

Lemma setConditionAt_types now conditions ty status reason message :
  Condition.Type_ <$> setConditionAt now conditions ty status reason message =
  if decide (ty ∈ Condition.Type_ <$> conditions)
  then Condition.Type_ <$> conditions
  else (Condition.Type_ <$> conditions) ++ [ty].
Proof.
  induction conditions as [| c rest IH]; cbn [setConditionAt].
  - destruct (decide (ty ∈ Condition.Type_ <$> [])) as [Hin | _]; [inversion Hin | reflexivity].
  - destruct (decide (Condition.Type_ c = ty)) as [Heq | Hne].
    + destruct (decide (ty ∈ Condition.Type_ <$> c :: rest)) as [_ | Hnin].
      * destruct (decide (Condition.Status c ≠ status)); reflexivity.
      * exfalso. apply Hnin. rewrite fmap_cons, Heq. left.
    + rewrite fmap_cons, IH.
      destruct (decide (ty ∈ Condition.Type_ <$> rest)) as [Hin | Hnin];
        destruct (decide (ty ∈ Condition.Type_ <$> c :: rest)) as [Hin' | Hnin'].
      * reflexivity.
      * exfalso. apply Hnin'. rewrite fmap_cons. right. exact Hin.
      * exfalso. rewrite fmap_cons in Hin'.
        apply elem_of_cons in Hin' as [-> | Hin']; [congruence | contradiction].
      * reflexivity.
Qed.

Lemma setConditionAt_NoDup now conditions ty status reason message :
  NoDup (Condition.Type_ <$> conditions) ->
  NoDup (Condition.Type_ <$> setConditionAt now conditions ty status reason message).
Proof.
  intros Hnd. rewrite setConditionAt_types.
  destruct (decide (ty ∈ Condition.Type_ <$> conditions)) as [Hin | Hnin]; [exact Hnd |].
  apply NoDup_app. split; [exact Hnd |]. split.
  - intros x Hx Hx'. apply list_elem_of_singleton in Hx'. subst x. contradiction.
  - apply NoDup_singleton.
Qed.

(** Position by position: the type stays, the condition of another type is
    untouched, the condition of the type gets the status, the reason and the
    message, and its transition time moves (to [now]) only with its status. *)
Lemma setConditionAt_lookup now conditions ty status reason message i c :
  NoDup (Condition.Type_ <$> conditions) ->
  conditions !! i = Some c ->
  exists c',
    setConditionAt now conditions ty status reason message !! i = Some c'
    /\ Condition.Type_ c' = Condition.Type_ c
    /\ (Condition.Type_ c <> ty -> c' = c)
    /\ (Condition.Type_ c = ty ->
        Condition.Status c' = status /\ Condition.Reason c' = reason
        /\ Condition.Message c' = message)
    /\ (Condition.Status c' = Condition.Status c ->
        Condition.LastTransitionTime c' = Condition.LastTransitionTime c)
    /\ (Condition.Status c' <> Condition.Status c -> Condition.LastTransitionTime c' = now).
Proof.
  revert i. induction conditions as [| c0 rest IH]; intros i Hnd Hi; [discriminate |].
  simpl in Hnd. apply NoDup_cons in Hnd as [Hnotin Hnd].
  simpl. destruct (decide (Condition.Type_ c0 = ty)) as [Heq | Hne].
  - destruct i as [| i]; simpl in *.
    + injection Hi as ->.
      destruct (decide (Condition.Status c ≠ status)) as [Hs | Hs].
      * eexists. split; [reflexivity |]. simpl. repeat split; try tauto; congruence.
      * apply dec_stable in Hs. eexists. split; [reflexivity |]. simpl.
        repeat split; try tauto; congruence.
    + exists c. split; [exact Hi |].
      assert (Condition.Type_ c <> ty) as Hc.
      { intros Hc. apply Hnotin. rewrite Heq, <- Hc.
        apply list_elem_of_fmap. exists c. split; [reflexivity |].
        eapply list_elem_of_lookup_2. exact Hi. }
      repeat split; try tauto; congruence.
  - destruct i as [| i]; simpl in *.
    + injection Hi as ->. exists c. repeat split; try tauto; congruence.
    + apply IH; assumption.
Qed.

(** Setting a condition of one type leaves the reading of another type. *)
Lemma GetCondition_setConditionAt_other now conditions ty status reason message ty' :
  ty <> ty' ->
  GetCondition (setConditionAt now conditions ty status reason message) ty'
  = GetCondition conditions ty'.
Proof.
  intros Hne. induction conditions as [| c rest IH]; simpl.
  - destruct (decide (ty = ty')); [contradiction | reflexivity].
  - destruct (decide (Condition.Type_ c = ty)) as [Heq | Hc].
    + destruct (decide (Condition.Status c ≠ status)); simpl;
        destruct (decide (Condition.Type_ c = ty')); congruence.
    + simpl. rewrite IH. reflexivity.
Qed.

(** C5. [SetCondition] keeps the list of conditions at one condition per
    type; it keeps every condition at its place and its type, leaves the
    conditions of other types alone, and moves the last transition time of
    the condition it sets only when the status of that condition changes
    value (then to the time read from the clock): a new reason or message
    alone leaves the transition time as it was. *)
Theorem SetCondition_one_per_type_and_transition_time
    (W : Type) (h : Handler W) (w : W) (conditions : list Condition.t)
    (conditionType : ConditionType) (status : ConditionStatus) (reason message : string) :
  NoDup (Condition.Type_ <$> conditions) ->
  let out := run h (SetCondition conditions conditionType status reason message) w in
  NoDup (Condition.Type_ <$> result_of out)
  /\ forall i c, conditions !! i = Some c ->
       exists c', result_of out !! i = Some c'
         /\ Condition.Type_ c' = Condition.Type_ c
         /\ (Condition.Type_ c <> conditionType -> c' = c)
         /\ (Condition.Type_ c = conditionType ->
             Condition.Status c' = status /\ Condition.Reason c' = reason
             /\ Condition.Message c' = message)
         /\ (Condition.Status c' = Condition.Status c ->
             Condition.LastTransitionTime c' = Condition.LastTransitionTime c)
         /\ (Condition.Status c' <> Condition.Status c ->
             clock_readings (trace_of out) = [Condition.LastTransitionTime c']).
Proof.
  intros Hnd out. subst out. unfold SetCondition.
  change (run h _ w) with
    (run h (Vis Now (fun now =>
       Ret (setConditionAt now conditions conditionType status reason message))) w).
  simpl. destruct (h Time Now w) as [now w1]. simpl. split.
  - apply setConditionAt_NoDup. exact Hnd.
  - intros i c Hi.
    destruct (setConditionAt_lookup now conditions conditionType status reason message i c Hnd Hi)
      as (c' & Hc' & Hty & Hother & Hset & Hsame & Hmoved).
    exists c'. split; [exact Hc' |]. split; [exact Hty |]. split; [exact Hother |].
    split; [exact Hset |]. split; [exact Hsame |].
    intros Hs. unfold clock_readings. simpl. rewrite (Hmoved Hs). reflexivity.
Qed.

(** ** Connection resolution *)

Ltac run_step :=
  cbn [run bind mbind Prog_bind bindE mret Prog_ret call fail];
  cbv beta iota.

(** The errors the taxonomy files under [ConfigurationError] are the two
    "no source" errors. *)
Lemma ConfigurationError_inv err :
  has_kind err ConfigurationError -> err = errNoSource \/ err = Legacy.errNoSource.
Proof. intros H. inversion H; auto. Qed.

(** A connection that names no source: no operation, the "no source" error. *)
Lemma buildClientConfig_no_source {W : Type} (h : Handler W) (w : W) conn ns :
  sourcesSet conn = 0%nat ->
  run h (buildClientConfig conn ns) w = (inr errNoSource, [], w).
Proof.
  destruct conn as [[a|] [e|] [u|] s t]; cbn; intros H; try discriminate H.
  reflexivity.
Qed.

Lemma Legacy_buildClientConfig_no_source {W : Type} (h : Handler W) (w : W) conn ns :
  Legacy.MinIOConnection.URL conn = None ->
  Legacy.MinIOConnection.EndpointRef conn = None ->
  run h (Legacy.buildClientConfig conn ns) w = (inr Legacy.errNoSource, [], w).
Proof.
  destruct conn as [e u s t]; cbn; intros -> ->. reflexivity.
Qed.

(** An Endpoint reference is not looked at when an alias or a URL is given. *)
Lemma buildClientConfig_ignores_EndpointRef conn ns :
  MinIOConnection.AliasRef conn <> None \/ MinIOConnection.URL conn <> None ->
  buildClientConfig conn ns =
  buildClientConfig
    (MinIOConnection.mk (MinIOConnection.AliasRef conn) None (MinIOConnection.URL conn)
       (MinIOConnection.SecretRef conn) (MinIOConnection.TLS conn)) ns.
Proof.
  destruct conn as [[a|] e [u|] s t]; cbn; intros [H | H]; try congruence; reflexivity.
Qed.

Ltac wp_step :=
  cbn [wp bind mbind Prog_bind bindE mret Prog_ret call fail];
  cbv beta iota;
  lazymatch goal with
  | |- Leaf _ => fail
  | _ => idtac
  end;
  match goal with
  | |- forall r, _ => intros ?
  | |- context [match ?x with _ => _ end] => destruct x eqn:?
  end.

Ltac wp_explore := repeat wp_step.

(** What a successful resolution through an alias took from the alias. *)
Lemma buildClientConfig_alias_wp conn ns aliasRef :
  MinIOConnection.AliasRef conn = Some aliasRef ->
  wp (buildClientConfig conn ns) (fun tr r => Leaf (
    forall config, r = inl config ->
    exists alias,
      head tr = Some (Ev (GetAlias (ObjectKey.mk
                            (default ns (AliasReference.Namespace aliasRef))
                            (AliasReference.Name aliasRef))) (inl alias))
      /\ ClientConfig.Endpoint config = AliasSpec.URL (Alias.Spec alias)
      /\ ClientConfig.PathStyle config = AliasSpec.PathStyle (Alias.Spec alias)
      /\ ClientConfig.Region config = default "" (AliasSpec.Region (Alias.Spec alias))
      /\ (MinIOConnection.URL conn = None ->
          ClientConfig.Insecure config = insecureOf (AliasSpec.TLS (Alias.Spec alias))))).
Proof.
  destruct conn as [a e u s t]. cbn. intros ->. unfold buildClientConfig.
  cbn [MinIOConnection.AliasRef MinIOConnection.URL MinIOConnection.SecretRef
       MinIOConnection.TLS MinIOConnection.EndpointRef].
  wp_explore; constructor; intros config Hc; try discriminate Hc; injection Hc as <-;
    subst; eexists; (split; [reflexivity |]);
    repeat match goal with
           | |- context [match ?x with _ => _ end] => destruct x
           end;
    cbn; repeat split; intros; congruence.
Qed.

(** The same through an Endpoint, which is reached only when neither an
    alias nor a URL is given. *)
Lemma buildClientConfig_endpoint_wp conn ns endpointRef :
  MinIOConnection.AliasRef conn = None ->
  MinIOConnection.URL conn = None ->
  MinIOConnection.EndpointRef conn = Some endpointRef ->
  wp (buildClientConfig conn ns) (fun tr r => Leaf (
    forall config, r = inl config ->
    exists endpoint,
      head tr = Some (Ev (GetEndpoint (ObjectKey.mk
                            (default ns (EndpointReference.Namespace endpointRef))
                            (EndpointReference.Name endpointRef))) (inl endpoint))
      /\ ClientConfig.Endpoint config = EndpointSpec.URL (Endpoint.Spec endpoint)
      /\ ClientConfig.PathStyle config = EndpointSpec.PathStyle (Endpoint.Spec endpoint)
      /\ ClientConfig.Region config = default "" (EndpointSpec.Region (Endpoint.Spec endpoint))
      /\ ClientConfig.Insecure config = insecureOf (EndpointSpec.TLS (Endpoint.Spec endpoint)))).
Proof.
  destruct conn as [a e u s t]. cbn. intros -> -> ->. unfold buildClientConfig.
  cbn [MinIOConnection.AliasRef MinIOConnection.URL MinIOConnection.SecretRef
       MinIOConnection.TLS MinIOConnection.EndpointRef].
  wp_explore; constructor; intros config Hc; try discriminate Hc; injection Hc as <-;
    subst; eexists; (split; [reflexivity |]);
    repeat match goal with
           | |- context [match ?x with _ => _ end] => destruct x
           end;
    cbn; repeat split; intros; congruence.
Qed.

(** With a source set, no run ends in a "no source" error. *)
Lemma buildClientConfig_source_wp conn ns :
  sourcesSet conn <> 0%nat ->
  wp (buildClientConfig conn ns) (fun _ r => Leaf (
    r <> inr errNoSource /\ r <> inr Legacy.errNoSource)).
Proof.
  destruct conn as [a e u s t]. intros Hs. unfold buildClientConfig.
  cbn [MinIOConnection.AliasRef MinIOConnection.URL MinIOConnection.SecretRef
       MinIOConnection.TLS MinIOConnection.EndpointRef].
  wp_explore; constructor; split; intros H; try discriminate H;
    try (cbn in Hs; congruence).
Qed.

(** C3. A connection reference that sets none of AliasRef, URL and
    EndpointRef is refused with the "no source" error, a configuration
    error, before anything is fetched: the run issues no operation at all.
    A reference that sets more than one is not refused for that: no run of
    it ends in a configuration error, the sources rank AliasRef, URL,
    EndpointRef, an EndpointRef next to an alias or a URL is never looked
    at, and with an AliasRef the endpoint of a resolved configuration is
    the URL of the alias even when the reference gives a URL too.  The
    older resolver refuses a reference with neither URL nor EndpointRef in
    the same way. *)
Theorem resolution_refuses_no_source_and_ranks_sources
    (W : Type) (h : Handler W) (w : W) (conn : MinIOConnection.t) (ns : string) :
  (sourcesSet conn = 0%nat ->
   run h (buildClientConfig conn ns) w = (inr errNoSource, [], w)
   /\ has_kind errNoSource ConfigurationError)
  /\ (sourcesSet conn <> 0%nat ->
      forall err, result_of (run h (buildClientConfig conn ns) w) = inr err ->
        ~ has_kind err ConfigurationError)
  /\ (MinIOConnection.AliasRef conn <> None \/ MinIOConnection.URL conn <> None ->
      buildClientConfig conn ns =
      buildClientConfig
        (MinIOConnection.mk (MinIOConnection.AliasRef conn) None (MinIOConnection.URL conn)
           (MinIOConnection.SecretRef conn) (MinIOConnection.TLS conn)) ns)
  /\ (forall aliasRef config,
        MinIOConnection.AliasRef conn = Some aliasRef ->
        result_of (run h (buildClientConfig conn ns) w) = inl config ->
        exists alias,
          head (trace_of (run h (buildClientConfig conn ns) w))
          = Some (Ev (GetAlias (ObjectKey.mk
                        (default ns (AliasReference.Namespace aliasRef))
                        (AliasReference.Name aliasRef))) (inl alias))
          /\ ClientConfig.Endpoint config = AliasSpec.URL (Alias.Spec alias))
  /\ (forall lconn,
        Legacy.MinIOConnection.URL lconn = None ->
        Legacy.MinIOConnection.EndpointRef lconn = None ->
        run h (Legacy.buildClientConfig lconn ns) w = (inr Legacy.errNoSource, [], w)
        /\ has_kind Legacy.errNoSource ConfigurationError).
Proof.
  split; [| split; [| split; [| split]]].
  - intros Hs. split; [apply buildClientConfig_no_source; exact Hs | constructor].
  - intros Hs err Hr Hk.
    destruct (wp_run h _ _ w (buildClientConfig_source_wp conn ns Hs)) as [[H1 H2]].
    rewrite Hr in H1, H2.
    apply ConfigurationError_inv in Hk as [-> | ->]; congruence.
  - apply buildClientConfig_ignores_EndpointRef.
  - intros aliasRef config Ha Hr.
    destruct (wp_run h _ _ w (buildClientConfig_alias_wp conn ns aliasRef Ha)) as [H].
    destruct (H config Hr) as (alias & Hhead & Hurl & _).
    exists alias. split; assumption.
  - intros lconn Hu He. split; [| constructor].
    apply Legacy_buildClientConfig_no_source; assumption.
Qed.


(** The older resolver through an Endpoint: the connection's own TLS block,
    when there is one, decides the TLS-insecure flag. *)
Lemma Legacy_buildClientConfig_endpoint_wp conn ns endpointRef :
  Legacy.MinIOConnection.URL conn = None ->
  Legacy.MinIOConnection.EndpointRef conn = Some endpointRef ->
  wp (Legacy.buildClientConfig conn ns) (fun tr r => Leaf (
    forall config, r = inl config ->
    exists endpoint,
      head tr = Some (Ev (GetEndpoint (ObjectKey.mk
                            (default ns (EndpointReference.Namespace endpointRef))
                            (EndpointReference.Name endpointRef))) (inl endpoint))
      /\ ClientConfig.PathStyle config = EndpointSpec.PathStyle (Endpoint.Spec endpoint)
      /\ ClientConfig.Region config = default "" (EndpointSpec.Region (Endpoint.Spec endpoint))
      /\ ClientConfig.Insecure config
         = match Legacy.MinIOConnection.TLS conn with
           | Some tls => TLSConfig.Insecure tls
           | None => insecureOf (EndpointSpec.TLS (Endpoint.Spec endpoint))
           end)).
Proof.
  destruct conn as [e u s t]. cbn. intros -> ->. unfold Legacy.buildClientConfig.
  cbn [Legacy.MinIOConnection.URL Legacy.MinIOConnection.SecretRef
       Legacy.MinIOConnection.TLS Legacy.MinIOConnection.EndpointRef].
  wp_explore; constructor; intros config Hc; try discriminate Hc; injection Hc as <-;
    subst; eexists; (split; [reflexivity |]);
    repeat match goal with
           | |- context [match ?x with _ => _ end] => destruct x
           end;
    cbn; repeat split; intros; congruence.
Qed.

(** C8 (as the code has it). When a reference resolves through an alias,
    the path-style flag and the region of the resolved configuration are
    those of the alias, and so is the TLS-insecure flag as long as the
    reference gives no URL next to the alias; through an Endpoint (reached
    when the reference gives neither alias nor URL) all three are those of
    the Endpoint.  In these cases the TLS block of the reference itself is
    ignored.  The older resolver takes path style and region from the
    Endpoint as well, but lets the TLS block of the reference, when there is
    one, decide the TLS-insecure flag. *)
Theorem referenced_spec_decides_path_style_region_and_tls
    (W : Type) (h : Handler W) (w : W) (conn : MinIOConnection.t) (ns : string)
    (config : ClientConfig.t) :
  result_of (run h (buildClientConfig conn ns) w) = inl config ->
  (forall aliasRef,
     MinIOConnection.AliasRef conn = Some aliasRef ->
     exists alias,
       head (trace_of (run h (buildClientConfig conn ns) w))
       = Some (Ev (GetAlias (ObjectKey.mk
                     (default ns (AliasReference.Namespace aliasRef))
                     (AliasReference.Name aliasRef))) (inl alias))
       /\ ClientConfig.PathStyle config = AliasSpec.PathStyle (Alias.Spec alias)
       /\ ClientConfig.Region config = default "" (AliasSpec.Region (Alias.Spec alias))
       /\ (MinIOConnection.URL conn = None ->
           ClientConfig.Insecure config = insecureOf (AliasSpec.TLS (Alias.Spec alias))))
  /\ (forall endpointRef,
        MinIOConnection.AliasRef conn = None ->
        MinIOConnection.URL conn = None ->
        MinIOConnection.EndpointRef conn = Some endpointRef ->
        exists endpoint,
          head (trace_of (run h (buildClientConfig conn ns) w))
          = Some (Ev (GetEndpoint (ObjectKey.mk
                        (default ns (EndpointReference.Namespace endpointRef))
                        (EndpointReference.Name endpointRef))) (inl endpoint))
          /\ ClientConfig.PathStyle config = EndpointSpec.PathStyle (Endpoint.Spec endpoint)
          /\ ClientConfig.Region config
             = default "" (EndpointSpec.Region (Endpoint.Spec endpoint))
          /\ ClientConfig.Insecure config
             = insecureOf (EndpointSpec.TLS (Endpoint.Spec endpoint)))
  /\ (forall lconn endpointRef lconfig,
        Legacy.MinIOConnection.URL lconn = None ->
        Legacy.MinIOConnection.EndpointRef lconn = Some endpointRef ->
        result_of (run h (Legacy.buildClientConfig lconn ns) w) = inl lconfig ->
        exists endpoint,
          head (trace_of (run h (Legacy.buildClientConfig lconn ns) w))
          = Some (Ev (GetEndpoint (ObjectKey.mk
                        (default ns (EndpointReference.Namespace endpointRef))
                        (EndpointReference.Name endpointRef))) (inl endpoint))
          /\ ClientConfig.PathStyle lconfig = EndpointSpec.PathStyle (Endpoint.Spec endpoint)
          /\ ClientConfig.Region lconfig
             = default "" (EndpointSpec.Region (Endpoint.Spec endpoint))
          /\ ClientConfig.Insecure lconfig
             = match Legacy.MinIOConnection.TLS lconn with
               | Some tls => TLSConfig.Insecure tls
               | None => insecureOf (EndpointSpec.TLS (Endpoint.Spec endpoint))
               end).
Proof.
  intros Hr. split; [| split].
  - intros aliasRef Ha.
    destruct (wp_run h _ _ w (buildClientConfig_alias_wp conn ns aliasRef Ha)) as [H].
    destruct (H config Hr) as (alias & Hhead & _ & Hp & Hreg & Htls).
    exists alias. repeat split; assumption.
  - intros endpointRef Ha Hu He.
    destruct (wp_run h _ _ w (buildClientConfig_endpoint_wp conn ns endpointRef Ha Hu He))
      as [H].
    destruct (H config Hr) as (endpoint & Hhead & _ & Hp & Hreg & Htls).
    exists endpoint. repeat split; assumption.
  - intros lconn endpointRef lconfig Hu He Hlr.
    destruct (wp_run h _ _ w (Legacy_buildClientConfig_endpoint_wp lconn ns endpointRef Hu He))
      as [H].
    exact (H lconfig Hlr).
Qed.

(** An unusable secret answer is an error of the fetch or a secret that
    lacks one of the two entries. *)
Lemma usable_false secretRef answer :
  usable secretRef answer = false ->
  match answer with
  | inr _ => True
  | inl secret =>
      Secret.Data secret !! keyOr (SecretReference.AccessKeyIDKey secretRef) "accessKeyID"
      = None
      \/ Secret.Data secret
           !! keyOr (SecretReference.SecretAccessKeyKey secretRef) "secretAccessKey"
         = None
  end.
Proof.
  destruct answer as [secret | err]; [| trivial]. unfold usable.
  destruct (Secret.Data secret !! _) as [a |] eqn:Ha; [| auto].
  destruct (Secret.Data secret !! keyOr (SecretReference.SecretAccessKeyKey secretRef) _)
    as [b |] eqn:Hb; [| auto].
  intros H. exfalso. apply andb_false_iff in H as [H | H];
    apply bool_decide_eq_false in H; apply H; eauto.
Qed.

(** C10 (as the code has it). Where resolution looks a secret up (the
    secret of the alias or of the Endpoint it resolves through, or the
    reference's own secret next to a URL), a secret that cannot be fetched,
    or that lacks an entry under the configured name of the access key or
    of the secret key ("accessKeyID" and "secretAccessKey" when none is
    configured), makes resolution fail with a secret error right after that
    lookup.  A reference that gives a URL and no secret reference is not
    refused: it resolves without any lookup, and the credentials of the
    resolved configuration are empty. *)
Theorem unusable_secret_fails_and_url_without_secret_resolves_empty
    (W : Type) (h : Handler W) (w : W) (conn : MinIOConnection.t) (ns : string) :
  (forall aliasRef alias w1 answer w2,
     MinIOConnection.AliasRef conn = Some aliasRef ->
     let aliasNamespace := default ns (AliasReference.Namespace aliasRef) in
     let key := ObjectKey.mk aliasNamespace (AliasReference.Name aliasRef) in
     let secretRef := AliasSpec.SecretRef (Alias.Spec alias) in
     let secretKey :=
       ObjectKey.mk (default aliasNamespace (SecretReference.Namespace secretRef))
         (SecretReference.Name secretRef) in
     h _ (GetAlias key) w = (inl alias, w1) ->
     AliasStatus.Ready (Alias.Status alias) = true ->
     h _ (GetSecret secretKey) w1 = (answer, w2) ->
     usable secretRef answer = false ->
     exists err,
       run h (buildClientConfig conn ns) w
       = (inr err, [Ev (GetAlias key) (inl alias); Ev (GetSecret secretKey) answer], w2)
       /\ has_kind err SecretError)
  /\ (forall endpointRef endpoint w1 answer w2,
        MinIOConnection.AliasRef conn = None ->
        MinIOConnection.URL conn = None ->
        MinIOConnection.EndpointRef conn = Some endpointRef ->
        let endpointNamespace := default ns (EndpointReference.Namespace endpointRef) in
        let key := ObjectKey.mk endpointNamespace (EndpointReference.Name endpointRef) in
        let secretRef := EndpointSpec.SecretRef (Endpoint.Spec endpoint) in
        let secretKey :=
          ObjectKey.mk (default endpointNamespace (SecretReference.Namespace secretRef))
            (SecretReference.Name secretRef) in
        h _ (GetEndpoint key) w = (inl endpoint, w1) ->
        EndpointStatus.Ready (Endpoint.Status endpoint) = true ->
        h _ (GetSecret secretKey) w1 = (answer, w2) ->
        usable secretRef answer = false ->
        exists err,
          run h (buildClientConfig conn ns) w
          = (inr err,
             [Ev (GetEndpoint key) (inl endpoint); Ev (GetSecret secretKey) answer], w2)
          /\ has_kind err SecretError)
  /\ (forall url secretRef answer w1,
        MinIOConnection.AliasRef conn = None ->
        MinIOConnection.URL conn = Some url ->
        MinIOConnection.SecretRef conn = Some secretRef ->
        let secretKey :=
          ObjectKey.mk (default ns (SecretReference.Namespace secretRef))
            (SecretReference.Name secretRef) in
        h _ (GetSecret secretKey) w = (answer, w1) ->
        usable secretRef answer = false ->
        exists err,
          run h (buildClientConfig conn ns) w
          = (inr err, [Ev (GetSecret secretKey) answer], w1)
          /\ has_kind err SecretError)
  /\ (forall url,
        MinIOConnection.AliasRef conn = None ->
        MinIOConnection.URL conn = Some url ->
        MinIOConnection.SecretRef conn = None ->
        run h (buildClientConfig conn ns) w
        = (inl (ClientConfig.mk url "" "" true false false ""), [], w)).
Proof.
  destruct conn as [a e u s t].
  split; [| split; [| split]].
  - intros aliasRef alias w1 answer w2 Ha aliasNamespace key secretRef secretKey
      Hget Hready Hsec Hun.
    cbn in Ha. subst a aliasNamespace key secretKey secretRef.
    unfold buildClientConfig. run_step. cbn [MinIOConnection.AliasRef]. run_step.
    rewrite Hget. run_step. rewrite Hready. cbn [negb]. run_step. rewrite Hsec.
    apply usable_false in Hun. destruct answer as [secret | err]; run_step.
    + destruct (Secret.Data secret !! keyOr (SecretReference.AccessKeyIDKey _) _)
        as [ak |] eqn:Hak; run_step.
      * destruct Hun as [Hun | Hun]; [congruence |]. rewrite Hun. run_step.
        eexists. split; [reflexivity | constructor].
      * eexists. split; [reflexivity | constructor].
    + eexists. split; [reflexivity | constructor].
  - intros endpointRef endpoint w1 answer w2 Ha Hu He endpointNamespace key secretRef
      secretKey Hget Hready Hsec Hun.
    cbn in Ha, Hu, He. subst a u e endpointNamespace key secretKey secretRef.
    unfold buildClientConfig. run_step.
    cbn [MinIOConnection.AliasRef MinIOConnection.URL MinIOConnection.EndpointRef].
    run_step. rewrite Hget. run_step. rewrite Hready. cbn [negb]. run_step. rewrite Hsec.
    apply usable_false in Hun. destruct answer as [secret | err]; run_step.
    + destruct (Secret.Data secret !! keyOr (SecretReference.AccessKeyIDKey _) _)
        as [ak |] eqn:Hak; run_step.
      * destruct Hun as [Hun | Hun]; [congruence |]. rewrite Hun. run_step.
        eexists. split; [reflexivity | constructor].
      * eexists. split; [reflexivity | constructor].
    + eexists. split; [reflexivity | constructor].
  - intros url secretRef answer w1 Ha Hu Hs secretKey Hsec Hun.
    cbn in Ha, Hu, Hs. subst a u s secretKey.
    unfold buildClientConfig. run_step.
    cbn [MinIOConnection.AliasRef MinIOConnection.URL MinIOConnection.SecretRef].
    run_step. rewrite Hsec.
    apply usable_false in Hun. destruct answer as [secret | err]; run_step.
    + destruct (Secret.Data secret !! keyOr (SecretReference.AccessKeyIDKey secretRef) _)
        as [ak |] eqn:Hak; run_step.
      * destruct Hun as [Hun | Hun]; [congruence |]. rewrite Hun. run_step.
        eexists. split; [reflexivity | constructor].
      * eexists. split; [reflexivity | constructor].
    + eexists. split; [reflexivity | constructor].
  - intros url Ha Hu Hs. cbn in Ha, Hu, Hs. subst a u s. reflexivity.
Qed.

(** ** Passes of the reconcilers *)

Arguments controllerutil.ContainsFinalizer : simpl never.
Arguments controllerutil.AddFinalizer : simpl never.
Arguments controllerutil.RemoveFinalizer : simpl never.
Arguments setConditionAt : simpl never.
Arguments IsConflict : simpl never.
Arguments IsNotFound : simpl never.
Arguments keyOr : simpl never.
Arguments Error : simpl never.


Lemma Generation_AddFinalizer m finalizer :
  ObjectMeta.Generation (controllerutil.AddFinalizer m finalizer) = ObjectMeta.Generation m.
Proof.
  unfold controllerutil.AddFinalizer.
  destruct (controllerutil.ContainsFinalizer m finalizer); reflexivity.
Qed.

Lemma Namespace_AddFinalizer m finalizer :
  ObjectMeta.Namespace (controllerutil.AddFinalizer m finalizer) = ObjectMeta.Namespace m.
Proof.
  unfold controllerutil.AddFinalizer.
  destruct (controllerutil.ContainsFinalizer m finalizer); reflexivity.
Qed.


(** *** Client construction, seen from a pass

    [NewClient] only fetches, and builds the two SDK clients: every event
    of it is a step of the resolver, and the admin client is built exactly
    when it returns a client. *)
Ltac scrutinee p :=
  lazymatch p with
  | bind ?q _ => scrutinee q
  | bindE ?q _ => scrutinee q
  | mbind _ ?q => scrutinee q
  | match ?x with _ => _ end => constr:(x)
  end.

Ltac flow_step :=
  cbn [wp bind mbind Prog_bind bindE mret Prog_ret call fail];
  cbv beta iota;
  lazymatch goal with
  | |- Leaf _ => fail
  | |- forall r, _ => intros ?
  | |- wp ?p _ => let x := scrutinee p in destruct x eqn:?
  end.

Ltac flow := repeat flow_step.

Lemma NewClient_wp conn ns :
  wp (NewClient conn ns) (fun tr r => Leaf (
    forallb is_resolve tr = true /\ existsb client_built tr = built r)).
Proof.
  unfold NewClient, buildClientConfig. flow; constructor; split; reflexivity.
Qed.

Lemma wp_NewClient_bind {B : Type} conn ns (k : Client.t + error -> Prog B)
    (Q : list Event -> B -> Prop) :
  (forall tr1 r,
     forallb is_resolve tr1 = true -> existsb client_built tr1 = built r ->
     wp (k r) (fun tr2 b => Q (tr1 ++ tr2) b)) ->
  wp (bind (NewClient conn ns) k) Q.
Proof.
  intros H. apply (wp_bind (NewClient conn ns) k Q).
  eapply wp_mono; [| apply NewClient_wp].
  intros tr r [[Hq Hb]]. apply H; assumption.
Qed.

(** Steps of the resolver are invisible to the readings of a trace. *)
Lemma omap_resolve_app {A : Type} (f : Event -> option A) tr1 tr2 :
  (forall e, is_resolve e = true -> f e = None) ->
  forallb is_resolve tr1 = true ->
  omap f (tr1 ++ tr2) = omap f tr2.
Proof.
  intros Hf. induction tr1 as [| e tr1 IH]; intros H; [reflexivity |].
  simpl in H. apply andb_true_iff in H as [He H].
  cbn [app omap list_omap]. rewrite (Hf e He). exact (IH H).
Qed.

Lemma existsb_resolve_app (g : Event -> bool) tr1 tr2 :
  (forall e, is_resolve e = true -> g e = false) ->
  forallb is_resolve tr1 = true ->
  existsb g (tr1 ++ tr2) = existsb g tr2.
Proof.
  intros Hg. induction tr1 as [| e tr1 IH]; intros H; [reflexivity |].
  simpl in H. apply andb_true_iff in H as [He H].
  simpl. rewrite (Hg e He). exact (IH H).
Qed.

Ltac resolve_case := intros [R op r]; destruct op; cbn; intros H; congruence.

Lemma resolve_no_update e : is_resolve e = true -> update_of e = None.
Proof. revert e. resolve_case. Qed.
Lemma resolve_no_status_write e : is_resolve e = true -> status_write_of e = None.
Proof. revert e. resolve_case. Qed.
Lemma resolve_no_clock e : is_resolve e = true -> clock_reading e = None.
Proof. revert e. resolve_case. Qed.
Lemma resolve_not_remote e : is_resolve e = true -> is_remote e = false.
Proof. revert e. resolve_case. Qed.
Lemma resolve_no_marker finalizer e : is_resolve e = true -> marker_stored finalizer e = false.
Proof. revert e. resolve_case. Qed.
Lemma resolve_not_delete_ok e : is_resolve e = true -> delete_ok e = false.
Proof. revert e. resolve_case. Qed.
Lemma resolve_not_found_absent e : is_resolve e = true -> found_absent e = false.
Proof. revert e. resolve_case. Qed.
Lemma resolve_not_cleanup_failed e : is_resolve e = true -> cleanup_failed e = false.
Proof. revert e. resolve_case. Qed.

Lemma updates_resolve_app tr1 tr2 :
  forallb is_resolve tr1 = true -> omap update_of (tr1 ++ tr2) = omap update_of tr2.
Proof. apply omap_resolve_app, resolve_no_update. Qed.
Lemma status_writes_resolve_app tr1 tr2 :
  forallb is_resolve tr1 = true ->
  omap status_write_of (tr1 ++ tr2) = omap status_write_of tr2.
Proof. apply omap_resolve_app, resolve_no_status_write. Qed.
Lemma clock_readings_resolve_app tr1 tr2 :
  forallb is_resolve tr1 = true ->
  omap clock_reading (tr1 ++ tr2) = omap clock_reading tr2.
Proof. apply omap_resolve_app, resolve_no_clock. Qed.
Lemma delete_ok_resolve_app tr1 tr2 :
  forallb is_resolve tr1 = true -> existsb delete_ok (tr1 ++ tr2) = existsb delete_ok tr2.
Proof. apply existsb_resolve_app, resolve_not_delete_ok. Qed.
Lemma found_absent_resolve_app tr1 tr2 :
  forallb is_resolve tr1 = true ->
  existsb found_absent (tr1 ++ tr2) = existsb found_absent tr2.
Proof. apply existsb_resolve_app, resolve_not_found_absent. Qed.
Lemma cleanup_failed_resolve_app tr1 tr2 :
  forallb is_resolve tr1 = true ->
  existsb cleanup_failed (tr1 ++ tr2) = existsb cleanup_failed tr2.
Proof. apply existsb_resolve_app, resolve_not_cleanup_failed. Qed.

Lemma guarded_stored finalizer tr : guarded finalizer true tr = true.
Proof. induction tr as [| e tr IH]; simpl; [reflexivity |]. rewrite orb_true_r. exact IH. Qed.

Lemma guarded_resolve_app finalizer stored tr1 tr2 :
  forallb is_resolve tr1 = true ->
  guarded finalizer stored (tr1 ++ tr2) = guarded finalizer stored tr2.
Proof.
  induction tr1 as [| e tr1 IH]; intros H; [reflexivity |].
  simpl in H. apply andb_true_iff in H as [He H]. simpl.
  rewrite (resolve_not_remote e He), (resolve_no_marker finalizer e He), orb_false_r.
  simpl. exact (IH H).
Qed.


(** The exploration of a pass: the resolver is taken as a whole. *)
Ltac pass_norm :=
  cbn [wp bind mbind Prog_bind bindE mret Prog_ret call fail
       User.set_Conditions User.set_Ready User.set_Username User.set_Status
       User.set_Groups User.set_Policies User.set_CreationDate User.set_LastSyncTime
       User.set_ObservedGeneration User.with_Status User.with_Meta
       User.Status User.Meta User.Spec
       UserStatus.Conditions UserStatus.Ready UserStatus.Username UserStatus.Status
       UserStatus.Groups UserStatus.Policies UserStatus.CreationDate
       UserStatus.LastSyncTime UserStatus.ObservedGeneration
       Policy.set_Conditions Policy.set_Ready Policy.set_PolicyName Policy.set_PolicyHash
       Policy.set_CreationDate Policy.set_LastSyncTime Policy.set_ObservedGeneration
       Policy.with_Status Policy.with_Meta Policy.Status Policy.Meta Policy.Spec
       PolicyStatus.Conditions PolicyStatus.Ready PolicyStatus.PolicyName
       PolicyStatus.PolicyHash PolicyStatus.CreationDate PolicyStatus.LastSyncTime
       PolicyStatus.ObservedGeneration
       Bucket.with_Meta Bucket.Meta Bucket.Spec];
  cbv beta iota.

Ltac pass_step :=
  pass_norm;
  lazymatch goal with
  | |- Leaf _ => fail
  | |- forall r, _ => intros ?
  | |- wp (bind (NewClient _ _) _) _ =>
      apply wp_NewClient_bind; intros ? [?|?] ? ?
  | |- wp (mbind ?k (NewClient ?c ?n)) ?Q =>
      apply (wp_NewClient_bind c n k Q); intros ? [?|?] ? ?
  | |- wp ?p _ => let x := scrutinee p in destruct x eqn:?
  end.

Ltac pass := repeat pass_step; pass_norm.

Ltac unfold_passes :=
  unfold UserReconciler.Reconcile, UserReconciler.handleDeletion,
    UserReconciler.reconcileUser, UserReconciler.getPassword,
    PolicyReconciler.Reconcile, PolicyReconciler.handleDeletion,
    PolicyReconciler.reconcilePolicy, SetCondition.






(** *** The observed generation *)

Lemma recorded_before_recorded generation tr : recorded_before generation true tr = true.
Proof.
  induction tr as [| e tr IH]; simpl; [reflexivity |]. rewrite orb_true_r. exact IH.
Qed.

Lemma recorded_before_split generation recorded tr pre e post :
  recorded_before generation recorded tr = true ->
  tr = pre ++ e :: post ->
  is_resolve e || is_remote e = true ->
  recorded || existsb (records_generation generation) pre = true.
Proof.
  revert recorded tr. induction pre as [| e0 pre IH]; intros recorded tr Hg -> He; simpl in *.
  - rewrite He in Hg. simpl in Hg. apply andb_true_iff in Hg as [Hg _].
    rewrite orb_false_r. exact Hg.
  - apply andb_true_iff in Hg as [_ Hg].
    specialize (IH _ _ Hg eq_refl He). rewrite orb_assoc. exact IH.
Qed.

Lemma client_built_app tr1 tr2 :
  existsb client_built (tr1 ++ tr2) = existsb client_built tr1 || existsb client_built tr2.
Proof. apply existsb_app. Qed.

(** Evaluation of the readings of a trace at the end of a path. *)
Ltac trace_eval :=
  unfold status_writes, updates, clock_readings, GenerationOf;
  repeat (progress (
    cbn [recorded_before guarded omap list_omap forallb existsb last head
         records_generation observes
         status_write_of update_of clock_reading is_resolve is_remote client_built
         delete_ok found_absent cleanup_failed marker_stored built
         negb orb andb fst snd
         ObservedGenerationOf GenerationOf LastSyncTimeOf ConditionsOf ReadyOf MetaOf
         User.set_Conditions User.set_Ready User.set_Username User.set_Status
         User.set_Groups User.set_Policies User.set_CreationDate User.set_LastSyncTime
         User.set_ObservedGeneration User.with_Status User.with_Meta
         User.Status User.Meta User.Spec
         UserStatus.Conditions UserStatus.Ready UserStatus.LastSyncTime
         UserStatus.ObservedGeneration
         Policy.set_Conditions Policy.set_Ready Policy.set_PolicyName Policy.set_PolicyHash
         Policy.set_CreationDate Policy.set_LastSyncTime Policy.set_ObservedGeneration
         Policy.with_Status Policy.with_Meta Policy.Status Policy.Meta Policy.Spec
         PolicyStatus.Conditions PolicyStatus.Ready PolicyStatus.LastSyncTime
         PolicyStatus.ObservedGeneration
         Bucket.with_Meta Bucket.Meta Bucket.Spec];
    rewrite ?Generation_AddFinalizer;
    rewrite ?Z.eqb_refl, ?recorded_before_recorded, ?guarded_stored;
    rewrite ?status_writes_resolve_app, ?updates_resolve_app, ?clock_readings_resolve_app,
      ?delete_ok_resolve_app, ?found_absent_resolve_app, ?cleanup_failed_resolve_app
      by assumption;
    rewrite ?client_built_app;
    repeat match goal with
           | H : existsb client_built _ = _ |- _ => rewrite H
           end)).

Ltac generation_leaf :=
  constructor; subst; unfold generation_post;
  cbn [loaded];
  let o0 := fresh "o0" in
  let Hl := fresh "Hl" in
  let Hd := fresh "Hd" in
  intros o0 Hl Hd;
  try discriminate Hl;
  injection Hl as <-;
  cbn [MetaOf] in Hd;
  try congruence;
  trace_eval;
  split; reflexivity.

Lemma UserReconciler_Reconcile_generation req :
  wp (UserReconciler.Reconcile req) (fun tr _ => Leaf (generation_post tr)).
Proof.
  unfold_passes. pass. all: generation_leaf.
Qed.

Lemma PolicyReconciler_Reconcile_generation sha256hex req :
  wp (PolicyReconciler.Reconcile sha256hex req) (fun tr _ => Leaf (generation_post tr)).
Proof.
  unfold_passes. pass. all: generation_leaf.
Qed.

(** C6 (as the code has it). On an object that is not being deleted, every
    status a reconcile pass writes carries the current generation of the
    object as [observedGeneration], and the first of these writes, the
    Progressing one, is accepted by the API server before the pass takes
    any step of connection resolution or calls the MinIO server.  The
    observed generation is thus recorded when a pass starts on a generation,
    not when it succeeds: a pass that fails during resolution or
    convergence has already stored the current generation. *)
Theorem observed_generation_recorded_before_resolution
    (p : Prog (Result.t * option error)) (finalizer : string)
    (W : Type) (h : Handler W) (w : W) (o0 : Object) :
  ReconcilePass p finalizer ->
  loaded (trace_of (run h p w)) = Some o0 ->
  ObjectMeta.DeletionTimestamp (MetaOf o0) = None ->
  (forall pre e post,
     trace_of (run h p w) = pre ++ e :: post ->
     is_resolve e || is_remote e = true ->
     existsb (records_generation (GenerationOf o0)) pre = true)
  /\ Forall (fun write => ObservedGenerationOf write.1 = Some (GenerationOf o0))
       (status_writes (trace_of (run h p w))).
Proof.
  intros Hp Hl Hd.
  assert (generation_post (trace_of (run h p w))) as Hpost.
  { destruct Hp as [req | sha256hex req].
    - destruct (wp_run h _ _ w (UserReconciler_Reconcile_generation req)) as [H]. exact H.
    - destruct (wp_run h _ _ w (PolicyReconciler_Reconcile_generation sha256hex req)) as [H].
      exact H. }
  destruct (Hpost o0 Hl Hd) as [Hbefore Hall]. split.
  - intros pre e post Htr He.
    exact (recorded_before_split _ false _ pre e post Hbefore Htr He).
  - apply Forall_forall. intros [o a] Hin.
    rewrite forallb_forall in Hall. specialize (Hall (o, a)).
    unfold observes in Hall. simpl in *.
    assert (In (o, a) (status_writes (trace_of (run h p w)))) as Hin'
      by (apply list_elem_of_In; exact Hin).
    specialize (Hall Hin').
    destruct (ObservedGenerationOf o) as [g |]; [| discriminate Hall].
    apply Z.eqb_eq in Hall. congruence.
Qed.

(** *** The time of the last sync *)

Ltac sync_leaf :=
  constructor; subst; unfold sync_post;
  cbn [loaded];
  let o0 := fresh "o0" in
  let Hl := fresh "Hl" in
  let Hd := fresh "Hd" in
  let Hb := fresh "Hb" in
  intros o0 Hl Hd;
  first
    [ discriminate Hl
    | injection Hl as <-;
      cbn [MetaOf] in Hd;
      first
        [ congruence
        | trace_eval;
          split; intros Hb;
          [ first [ discriminate Hb | eexists _, _, _; repeat split; reflexivity ]
          | first [ discriminate Hb | repeat constructor ] ] ] ].

Lemma UserReconciler_Reconcile_sync req :
  wp (UserReconciler.Reconcile req) (fun tr _ => Leaf (sync_post tr)).
Proof.
  unfold_passes. pass. all: sync_leaf.
Qed.

Lemma PolicyReconciler_Reconcile_sync sha256hex req :
  wp (PolicyReconciler.Reconcile sha256hex req) (fun tr _ => Leaf (sync_post tr)).
Proof.
  unfold_passes. pass. all: sync_leaf.
Qed.

(** C7 (as the code has it). On an object that is not being deleted, a
    reconcile pass that got a client, and so went on to converge, ends with
    a status write whose [lastSyncTime] is the time it read from the clock
    just before, whether convergence succeeded or failed.  A pass that got
    no client (the connection did not resolve, or a client could not be
    built) and a pass that ended earlier leave the time of the last sync as
    it was: every status they write carries the value the object was
    loaded with. *)
Theorem last_sync_time_written_once_a_client_exists
    (p : Prog (Result.t * option error)) (finalizer : string)
    (W : Type) (h : Handler W) (w : W) (o0 : Object) :
  ReconcilePass p finalizer ->
  loaded (trace_of (run h p w)) = Some o0 ->
  ObjectMeta.DeletionTimestamp (MetaOf o0) = None ->
  (existsb client_built (trace_of (run h p w)) = true ->
   exists o a t,
     last (status_writes (trace_of (run h p w))) = Some (o, a)
     /\ LastSyncTimeOf o = Some t
     /\ last (clock_readings (trace_of (run h p w))) = Some t)
  /\ (existsb client_built (trace_of (run h p w)) = false ->
      Forall (fun write => LastSyncTimeOf write.1 = LastSyncTimeOf o0)
        (status_writes (trace_of (run h p w)))).
Proof.
  intros Hp Hl Hd.
  assert (sync_post (trace_of (run h p w))) as Hpost.
  { destruct Hp as [req | sha256hex req].
    - destruct (wp_run h _ _ w (UserReconciler_Reconcile_sync req)) as [H]. exact H.
    - destruct (wp_run h _ _ w (PolicyReconciler_Reconcile_sync sha256hex req)) as [H].
      exact H. }
  exact (Hpost o0 Hl Hd).
Qed.

(** *** Refused status writes *)

Ltac refused_cases H :=
  unfold refused in H; revert H; trace_eval; intros H;
  destruct H as [H | [H ?]].

Ltac policy_conflict_leaf :=
  constructor; subst; unfold policy_conflict_post;
  cbn [loaded];
  let o0 := fresh "o0" in
  let o := fresh "o" in
  let err := fresh "err" in
  let Hl := fresh "Hl" in
  let Hc := fresh "Hc" in
  let Hr := fresh "Hr" in
  intros o0 o err Hl Hc Hr;
  first
    [ discriminate Hl
    | injection Hl as <-;
      refused_cases Hr;
      first
        [ discriminate Hr
        | injection Hr as <- <-;
          first
            [ congruence
            | discriminate
            | trace_eval;
              rewrite ?GetCondition_setConditionAt_other by discriminate;
              repeat split; first [ reflexivity | intros; discriminate ] ] ] ].

Lemma PolicyReconciler_Reconcile_conflict sha256hex req :
  wp (PolicyReconciler.Reconcile sha256hex req)
     (fun tr res => Leaf (policy_conflict_post tr res)).
Proof.
  unfold_passes. pass. all: policy_conflict_leaf.
Qed.

(** C9 (as the code has it). When the API server refuses with a conflict
    the Progressing status write of a pass of the Policy reconciler, or its
    final write of a ready status, the pass ends without an error and asks
    for a retry after one second (one second exactly, not less); the
    refused document carries the Error condition the object was loaded
    with, and after a refused Progressing write the pass writes no further
    status. *)
Theorem policy_status_conflict_is_retried_after_one_second
    (W : Type) (h : Handler W) (w : W) (sha256hex : string -> string) (req : ObjectKey.t)
    (o0 o : Object) (err : error) :
  IsConflict err = true ->
  let policy_run := run h (PolicyReconciler.Reconcile sha256hex req) w in
  loaded (trace_of policy_run) = Some o0 ->
  refused (trace_of policy_run) o err ->
  result_of policy_run = (Result.after Second, None)
  /\ Result.RequeueAfter (result_of policy_run).1 = Second
  /\ GetCondition (ConditionsOf o) ConditionError
     = GetCondition (ConditionsOf o0) ConditionError
  /\ (head (status_writes (trace_of policy_run)) = Some (o, Some err) ->
      status_writes (trace_of policy_run) = [(o, Some err)]).
Proof.
  intros Hc policy_run Hl Hr.
  destruct (wp_run h _ _ w (PolicyReconciler_Reconcile_conflict sha256hex req)) as [H].
  destruct (H o0 o err Hl Hc Hr) as (Hres & Hcond & Honly).
  split; [exact Hres |]. split; [| split; assumption].
  fold policy_run in Hres. rewrite Hres. reflexivity.
Qed.

(** *** Teardown *)




Lemma listing_failed_cons object rest :
  listing_failed (object :: rest)
  = match ObjectInfo.Err object with Some _ => true | None => false end
    || listing_failed rest.
Proof. reflexivity. Qed.





(** A pass that loads an object with a deletion timestamp is its teardown. *)
Lemma UserReconciler_Reconcile_deleting {W : Type} (h : Handler W) (w w1 : W) req user ts :
  h _ (GetUser req) w = (inl user, w1) ->
  ObjectMeta.DeletionTimestamp (User.Meta user) = Some ts ->
  run h (UserReconciler.Reconcile req) w =
  let '(res, tr, w2) := run h (UserReconciler.handleDeletion user) w1 in
  (res, Ev (GetUser req) (inl user) :: tr, w2).
Proof.
  intros Hget Hts. unfold UserReconciler.Reconcile.
  rewrite run_bind. cbn [run call]. rewrite Hget. cbv beta iota. rewrite Hts.
  destruct (run h (UserReconciler.handleDeletion user) w1) as [[res tr] w2].
  reflexivity.
Qed.

(** ** The claims on concrete inputs *)

Import Scenario.

(** The scenario of the design: a URL with a secret under the conventional
    names resolves to the URL, the two credentials and no insecure TLS. *)
Example direct_url_with_secret_resolves :
  result_of (run Fake.handle (buildClientConfig urlWithSecret "default") world0)
  = inl (ClientConfig.mk "http://minio:9000" "k" "s" true false false "").
Proof. vm_compute. reflexivity. Qed.



(** C3, refuted for references with several sources: an alias next to a
    URL resolves, through the alias. *)
Lemma several_sources_resolve :
  sourcesSet aliasAndURL = 2%nat
  /\ result_of (run Fake.handle (buildClientConfig aliasAndURL "default") world0)
     = inl (ClientConfig.mk "http://minio:9000" "k" "s" true false true "eu-1").
Proof. split; vm_compute; reflexivity. Qed.

(** C3 as amended, on the reference without a source. *)
Lemma resolution_refuses_no_source_and_ranks_sources_witness :
  sourcesSet noSource = 0%nat
  /\ run Fake.handle (buildClientConfig noSource "default") world0
     = (inr errNoSource, [], world0)
  /\ has_kind errNoSource ConfigurationError.
Proof.
  split; [reflexivity |].
  apply (proj1 (resolution_refuses_no_source_and_ranks_sources
                  Fake.World Fake.handle world0 noSource "default")).
  reflexivity.
Defined.


(** C5 on a Ready condition set at time 50 and set again, with the same
    status and a new message, at time 100: one condition per type, and the
    transition time is still 50. *)
Lemma SetCondition_one_per_type_and_transition_time_witness :
  NoDup (Condition.Type_ <$> UserStatus.Conditions aliceStatus)
  /\ exists c',
       result_of (run Fake.handle
                    (SetCondition (UserStatus.Conditions aliceStatus)
                       ConditionReady ConditionTrue "Ready" "still ready") world0) !! 0%nat
       = Some c'
       /\ Condition.Message c' = "still ready"
       /\ Condition.LastTransitionTime c' = 50.
Proof.
  assert (NoDup (Condition.Type_ <$> UserStatus.Conditions aliceStatus)) as Hnd.
  { apply NoDup_singleton. }
  split; [exact Hnd |].
  destruct (proj2 (SetCondition_one_per_type_and_transition_time
                     Fake.World Fake.handle world0 (UserStatus.Conditions aliceStatus)
                     ConditionReady ConditionTrue "Ready" "still ready" Hnd)
              0%nat _ eq_refl)
    as (c' & Hc' & _ & _ & Hset & Hsame & _).
  exists c'. split; [exact Hc' |].
  destruct (Hset eq_refl) as (Hs & _ & Hm).
  split; [exact Hm |]. apply Hsame. exact Hs.
Defined.

(** C6, refuted: the pass fails in resolution (the connection names no
    source), and the stored status, which showed generation 1 as observed,
    shows generation 2 after it. *)
Lemma failed_pass_moves_observed_generation :
  UserStatus.ObservedGeneration <$> storedStatus unresolvedWorld = Some 1
  /\ result_of unresolvedPass = (Result.after Minute, None)
  /\ UserStatus.Ready <$> storedStatus (world_of unresolvedPass) = Some false
  /\ (Condition.Reason <$>
        (storedStatus (world_of unresolvedPass)
           ≫= fun s => GetCondition (UserStatus.Conditions s) ConditionError))
     = Some "ClientError"
  /\ UserStatus.ObservedGeneration <$> storedStatus (world_of unresolvedPass) = Some 2.
Proof. repeat split; vm_compute; reflexivity. Qed.

(** C6 as amended, on a pass that converges. *)
Lemma observed_generation_recorded_before_resolution_witness :
  (forall pre e post,
     trace_of userPass = pre ++ e :: post ->
     is_resolve e || is_remote e = true ->
     existsb (records_generation 2) pre = true)
  /\ Forall (fun write => ObservedGenerationOf write.1 = Some 2)
       (status_writes (trace_of userPass)).
Proof.
  apply (observed_generation_recorded_before_resolution
           (UserReconciler.Reconcile aliceKey) UserFinalizer Fake.World Fake.handle world0
           (ObjUser (alice viaAlias [UserFinalizer] None))).
  - apply pass_user.
  - vm_compute. reflexivity.
  - reflexivity.
Defined.

(** C7, refuted: the pass ends in the error of the client construction at
    a time after 100, and the stored time of the last sync is still 50. *)
Lemma client_failure_keeps_last_sync_time :
  result_of unresolvedPass = (Result.after Minute, None)
  /\ clock_readings (trace_of unresolvedPass) = [100; 101]
  /\ UserStatus.LastSyncTime <$> storedStatus unresolvedWorld = Some (Some 50)
  /\ UserStatus.LastSyncTime <$> storedStatus (world_of unresolvedPass) = Some (Some 50).
Proof. repeat split; vm_compute; reflexivity. Qed.

(** C7 as amended, on a pass that converges: the last status write carries
    the last reading of the clock. *)
Lemma last_sync_time_written_once_a_client_exists_witness :
  existsb client_built (trace_of userPass) = true
  /\ exists o a t,
       last (status_writes (trace_of userPass)) = Some (o, a)
       /\ LastSyncTimeOf o = Some t
       /\ last (clock_readings (trace_of userPass)) = Some t.
Proof.
  assert (existsb client_built (trace_of userPass) = true) as Hb
    by (vm_compute; reflexivity).
  split; [exact Hb |].
  apply (proj1 (last_sync_time_written_once_a_client_exists
                  (UserReconciler.Reconcile aliceKey) UserFinalizer
                  Fake.World Fake.handle world0
                  (ObjUser (alice viaAlias [UserFinalizer] None))
                  (pass_user aliceKey) eq_refl eq_refl)).
  exact Hb.
Defined.

(** C8, refuted on the older resolver: the Endpoint asks for verified TLS,
    the connection block of the dependent resource overrides it. *)
Lemma legacy_connection_tls_overrides_endpoint :
  insecureOf (EndpointSpec.TLS (Endpoint.Spec readyEndpoint)) = false
  /\ result_of (run Fake.handle (Legacy.buildClientConfig legacyViaEndpoint "default") world0)
     = inl (ClientConfig.mk "http://edge:9000" "k" "s" true true false "").
Proof. split; vm_compute; reflexivity. Qed.

(** The alias-aware resolver with an alias next to a URL, a secret and a
    TLS block: the credentials block meant for the direct URL runs too, and
    the TLS block of the connection replaces the one of the alias. *)
Example alias_next_to_url_takes_connection_tls :
  insecureOf (AliasSpec.TLS (Alias.Spec readyAlias)) = false
  /\ result_of (run Fake.handle (buildClientConfig aliasAndURLWithTLS "default") world0)
     = inl (ClientConfig.mk "http://minio:9000" "k" "s" true true true "eu-1").
Proof. split; vm_compute; reflexivity. Qed.

(** C8 as amended, on a reference through the alias alone. *)
Lemma referenced_spec_decides_path_style_region_and_tls_witness :
  exists alias,
    head (trace_of (run Fake.handle (buildClientConfig viaAlias "default") world0))
    = Some (Ev (GetAlias (ObjectKey.mk "default" "minio")) (inl alias))
    /\ true = AliasSpec.PathStyle (Alias.Spec alias)
    /\ "eu-1" = default "" (AliasSpec.Region (Alias.Spec alias))
    /\ (MinIOConnection.URL viaAlias = None ->
        false = insecureOf (AliasSpec.TLS (Alias.Spec alias))).
Proof.
  apply (proj1 (referenced_spec_decides_path_style_region_and_tls
                  Fake.World Fake.handle world0 viaAlias "default"
                  (ClientConfig.mk "http://minio:9000" "k" "s" true false true "eu-1")
                  eq_refl)
           (AliasReference.mk "minio" None) eq_refl).
Defined.

(** C9, refuted: the retry the Policy reconciler asks for after a refused
    status write is one second, which is not below one second; and the
    User reconciler returns the conflict as the error of the pass. *)
Lemma status_conflict_retry_is_not_sub_second :
  IsConflict Fake.conflict = true
  /\ head (status_writes (trace_of policyConflictPass))
     = Some (ObjPolicy refusedPolicy, Some Fake.conflict)
  /\ result_of policyConflictPass = (Result.after Second, None)
  /\ ~ (Result.RequeueAfter (result_of policyConflictPass).1 < Second)
  /\ result_of userConflictPass = (Result.empty, Some Fake.conflict).
Proof.
  split; [reflexivity |]. split; [vm_compute; reflexivity |].
  split; [vm_compute; reflexivity |]. split; [| vm_compute; reflexivity].
  vm_compute. discriminate.
Qed.

(** C9 as amended, in the world that refuses the next status write. *)
Lemma policy_status_conflict_is_retried_after_one_second_witness :
  IsConflict Fake.conflict = true
  /\ result_of policyConflictPass = (Result.after Second, None).
Proof.
  split; [reflexivity |].
  refine (proj1 (policy_status_conflict_is_retried_after_one_second
                   Fake.World Fake.handle conflictWorld sha readonlyKey
                   (ObjPolicy (readonly [PolicyFinalizer])) (ObjPolicy refusedPolicy)
                   Fake.conflict
                   eq_refl _ _)).
  - vm_compute. reflexivity.
  - left. vm_compute. reflexivity.
Defined.

(** C10, refuted: a URL without a secret reference resolves, without any
    lookup, to a configuration with empty credentials. *)
Lemma url_without_secret_resolves_with_empty_credentials :
  MinIOConnection.SecretRef urlOnly = None
  /\ run Fake.handle (buildClientConfig urlOnly "default") world0
     = (inl (ClientConfig.mk "http://minio:9000" "" "" true false false ""), [], world0).
Proof. split; reflexivity. Qed.

(** C10 as amended, on a URL whose secret lacks the access key. *)
Lemma unusable_secret_fails_and_url_without_secret_resolves_empty_witness :
  usable (SecretReference.mk "half-creds" None "" "") (inl halfCredentials) = false
  /\ exists err,
       run Fake.handle (buildClientConfig urlWithHalfSecret "default") world0
       = (inr err,
          [Ev (GetSecret (ObjectKey.mk "default" "half-creds")) (inl halfCredentials)],
          world0)
       /\ has_kind err SecretError.
Proof.
  split; [vm_compute; reflexivity |].
  destruct (unusable_secret_fails_and_url_without_secret_resolves_empty
              Fake.World Fake.handle world0 urlWithHalfSecret "default")
    as (_ & _ & Hurl & _).
  apply (Hurl "http://minio:9000" (SecretReference.mk "half-creds" None "" "")
           (inl halfCredentials) world0); reflexivity.
Defined.

(** * Further properties of the code *)

(** ** Conditions, read back *)

(** The two equations of [setConditionAt]. *)
Lemma setConditionAt_nil now ty status reason message :
  setConditionAt now [] ty status reason message
  = [Condition.mk ty status now reason message].
Proof. reflexivity. Qed.

Lemma setConditionAt_cons now c0 rest ty status reason message :
  setConditionAt now (c0 :: rest) ty status reason message
  = if decide (Condition.Type_ c0 = ty) then
      (if decide (Condition.Status c0 ≠ status) then
         Condition.mk (Condition.Type_ c0) status now reason message
       else
         Condition.mk (Condition.Type_ c0) (Condition.Status c0)
           (Condition.LastTransitionTime c0) reason message) :: rest
    else c0 :: setConditionAt now rest ty status reason message.
Proof. reflexivity. Qed.

Lemma GetCondition_setConditionAt now conditions ty status reason message :
  exists c,
    GetCondition (setConditionAt now conditions ty status reason message) ty = Some c
    /\ Condition.Type_ c = ty /\ Condition.Status c = status
    /\ Condition.Reason c = reason /\ Condition.Message c = message.
Proof.
  induction conditions as [| c0 rest IH];
    rewrite ?setConditionAt_nil, ?setConditionAt_cons; cbn [GetCondition].
  - rewrite decide_True by reflexivity. eexists. repeat split.
  - destruct (decide (Condition.Type_ c0 = ty)) as [Heq | Hne].
    + destruct (decide (Condition.Status c0 ≠ status)) as [Hs | Hs];
        cbn [GetCondition Condition.Type_]; rewrite decide_True by exact Heq;
        eexists; (split; [reflexivity |]); cbn; repeat split; try assumption.
      apply dec_stable in Hs. exact Hs.
    + cbn [GetCondition]. rewrite decide_False by exact Hne. exact IH.
Qed.

Lemma setConditionAt_again now now' conditions ty status reason message :
  setConditionAt now' (setConditionAt now conditions ty status reason message)
    ty status reason message
  = setConditionAt now conditions ty status reason message.
Proof.
  induction conditions as [| c0 rest IH].
  - rewrite setConditionAt_nil, setConditionAt_cons.
    cbn [Condition.Type_ Condition.Status Condition.LastTransitionTime].
    rewrite decide_True by reflexivity.
    rewrite decide_False by (intros H; apply H; reflexivity). reflexivity.
  - rewrite (setConditionAt_cons now).
    destruct (decide (Condition.Type_ c0 = ty)) as [Heq | Hne].
    + destruct (decide (Condition.Status c0 ≠ status)) as [Hs | Hs];
        rewrite setConditionAt_cons;
        cbn [Condition.Type_ Condition.Status Condition.LastTransitionTime];
        rewrite decide_True by exact Heq.
      * rewrite decide_False by (intros H; apply H; reflexivity). reflexivity.
      * rewrite decide_False by exact Hs. reflexivity.
    + rewrite setConditionAt_cons, decide_False by exact Hne. rewrite IH. reflexivity.
Qed.

Lemma setConditionAt_absent now conditions ty status reason message :
  GetCondition conditions ty = None ->
  setConditionAt now conditions ty status reason message
  = conditions ++ [Condition.mk ty status now reason message].
Proof.
  induction conditions as [| c0 rest IH];
    rewrite ?setConditionAt_nil, ?setConditionAt_cons; cbn [GetCondition]; intros H.
  - reflexivity.
  - destruct (decide (Condition.Type_ c0 = ty)) as [Heq | Hne]; [discriminate H |].
    rewrite (IH H). reflexivity.
Qed.

Lemma setConditionAt_present now conditions ty status reason message c :
  GetCondition conditions ty = Some c ->
  length (setConditionAt now conditions ty status reason message) = length conditions.
Proof.
  induction conditions as [| c0 rest IH];
    rewrite ?setConditionAt_nil, ?setConditionAt_cons; cbn [GetCondition]; intros H.
  - discriminate H.
  - destruct (decide (Condition.Type_ c0 = ty)) as [Heq | Hne]; [reflexivity |].
    cbn [length]. rewrite (IH H). reflexivity.
Qed.

(** The run of [SetCondition]: one reading of the clock. *)
Lemma run_SetCondition {W : Type} (h : Handler W) (w : W) conditions ty status reason message :
  run h (SetCondition conditions ty status reason message) w
  = (setConditionAt (h _ Now w).1 conditions ty status reason message,
     [Ev Now (h _ Now w).1], (h _ Now w).2).
Proof.
  unfold SetCondition.
  change (run h _ w) with
    (run h (Vis Now (fun now =>
       Ret (setConditionAt now conditions ty status reason message))) w).
  cbn [run]. destruct (h Time Now w) as [now w1]. reflexivity.
Qed.

(** X1. What [SetCondition] wrote is what [GetCondition] reads: after
    setting a condition, reading its type gives a condition with the status,
    the reason and the message that were set, and reading any other type
    gives what it gave before.  This needs no assumption on the list (with
    several conditions of one type both functions work on the first). *)
Theorem GetCondition_reads_what_SetCondition_wrote
    (W : Type) (h : Handler W) (w : W) (conditions : list Condition.t)
    (conditionType : ConditionType) (status : ConditionStatus) (reason message : string) :
  let out := run h (SetCondition conditions conditionType status reason message) w in
  (exists c,
     GetCondition (result_of out) conditionType = Some c
     /\ Condition.Type_ c = conditionType /\ Condition.Status c = status
     /\ Condition.Reason c = reason /\ Condition.Message c = message)
  /\ (forall other, other <> conditionType ->
        GetCondition (result_of out) other = GetCondition conditions other).
Proof.
  intros out. subst out. rewrite run_SetCondition. cbn [result_of fst]. split.
  - apply GetCondition_setConditionAt.
  - intros other Hne. apply GetCondition_setConditionAt_other. congruence.
Qed.

(** X2. Setting the same condition again, at whatever later time, changes
    nothing: the list after the second [SetCondition] is the list after the
    first, transition times included. *)
Theorem SetCondition_again_changes_nothing
    (W : Type) (h : Handler W) (w w' : W) (conditions : list Condition.t)
    (conditionType : ConditionType) (status : ConditionStatus) (reason message : string) :
  let once := result_of (run h (SetCondition conditions conditionType status reason message) w) in
  result_of (run h (SetCondition once conditionType status reason message) w') = once.
Proof.
  intros once. subst once. rewrite !run_SetCondition. cbn [result_of fst].
  apply setConditionAt_again.
Qed.

(** X3. [SetCondition] on a type the list does not hold yet appends one
    condition at the end, stamped with the time read from the clock, and
    leaves the conditions before it untouched; on a type the list holds it
    keeps the length of the list. *)
Theorem SetCondition_appends_only_a_new_type
    (W : Type) (h : Handler W) (w : W) (conditions : list Condition.t)
    (conditionType : ConditionType) (status : ConditionStatus) (reason message : string) :
  let out := run h (SetCondition conditions conditionType status reason message) w in
  match GetCondition conditions conditionType with
  | None =>
      exists now,
        clock_readings (trace_of out) = [now]
        /\ result_of out = conditions ++ [Condition.mk conditionType status now reason message]
  | Some _ => length (result_of out) = length conditions
  end.
Proof.
  intros out. subst out. rewrite run_SetCondition. cbn [result_of trace_of fst snd].
  destruct (GetCondition conditions conditionType) as [c |] eqn:Hg.
  - eapply setConditionAt_present. exact Hg.
  - eexists. split; [reflexivity |]. apply setConditionAt_absent. exact Hg.
Qed.

(** ** Connection resolution, beyond the sources *)

Ltac resolver_paths :=
  unfold buildClientConfig, Legacy.buildClientConfig;
  cbn [MinIOConnection.AliasRef MinIOConnection.URL MinIOConnection.SecretRef
       MinIOConnection.TLS MinIOConnection.EndpointRef
       Legacy.MinIOConnection.URL Legacy.MinIOConnection.SecretRef
       Legacy.MinIOConnection.TLS Legacy.MinIOConnection.EndpointRef];
  wp_explore; constructor.

Ltac split_data_matches :=
  repeat match goal with
         | |- context [match ?x with _ => _ end] => destruct x
         end.

Lemma buildClientConfig_UseSSL_wp conn ns :
  wp (buildClientConfig conn ns) (fun _ r => Leaf (
    forall config, r = inl config -> ClientConfig.UseSSL config = true)).
Proof.
  destruct conn as [a e u s t]. resolver_paths.
  all: intros config Hc; try discriminate Hc; injection Hc as <-.
  all: split_data_matches; reflexivity.
Qed.

Lemma Legacy_buildClientConfig_UseSSL_wp conn ns :
  wp (Legacy.buildClientConfig conn ns) (fun _ r => Leaf (
    forall config, r = inl config -> ClientConfig.UseSSL config = true)).
Proof.
  destruct conn as [e u s t]. resolver_paths.
  all: intros config Hc; try discriminate Hc; injection Hc as <-.
  all: split_data_matches; reflexivity.
Qed.

(** X4. Every configuration the resolver produces asks for TLS: [UseSSL] is
    set when the configuration is created and no path of the resolver,
    alias-aware or older, clears it, whatever the URL says. *)
Theorem resolved_configuration_always_uses_ssl
    (W : Type) (h : Handler W) (w : W) (ns : string) :
  (forall conn config,
     result_of (run h (buildClientConfig conn ns) w) = inl config ->
     ClientConfig.UseSSL config = true)
  /\ (forall lconn config,
        result_of (run h (Legacy.buildClientConfig lconn ns) w) = inl config ->
        ClientConfig.UseSSL config = true).
Proof.
  split.
  - intros conn config Hr.
    destruct (wp_run h _ _ w (buildClientConfig_UseSSL_wp conn ns)) as [H]. exact (H _ Hr).
  - intros lconn config Hr.
    destruct (wp_run h _ _ w (Legacy_buildClientConfig_UseSSL_wp lconn ns)) as [H].
    exact (H _ Hr).
Qed.

(** Where the credentials of a reference through an alias come from. *)
Lemma buildClientConfig_alias_credentials_wp conn ns aliasRef :
  MinIOConnection.AliasRef conn = Some aliasRef ->
  MinIOConnection.URL conn = None \/ MinIOConnection.SecretRef conn = None ->
  wp (buildClientConfig conn ns) (fun tr r => Leaf (
    forall config, r = inl config ->
    let aliasNamespace := default ns (AliasReference.Namespace aliasRef) in
    exists alias secret,
      let secretRef := AliasSpec.SecretRef (Alias.Spec alias) in
      tr = [Ev (GetAlias (ObjectKey.mk aliasNamespace (AliasReference.Name aliasRef)))
              (inl alias);
            Ev (GetSecret (ObjectKey.mk
                             (default aliasNamespace (SecretReference.Namespace secretRef))
                             (SecretReference.Name secretRef)))
              (inl secret)]
      /\ Secret.Data secret !! keyOr (SecretReference.AccessKeyIDKey secretRef) "accessKeyID"
         = Some (ClientConfig.AccessKeyID config)
      /\ Secret.Data secret
           !! keyOr (SecretReference.SecretAccessKeyKey secretRef) "secretAccessKey"
         = Some (ClientConfig.SecretAccessKey config))).
Proof.
  destruct conn as [a e u s t]. cbn. intros -> Hsrc.
  assert (u = None \/ s = None) as [-> | ->] by exact Hsrc; clear Hsrc.
  all: resolver_paths.
  all: intros config Hc; try discriminate Hc; injection Hc as <-.
  all: subst; eexists _, _; (split; [reflexivity |]).
  all: split_data_matches; cbn; split; assumption.
Qed.

(** The same for a reference through an Endpoint. *)
Lemma buildClientConfig_endpoint_credentials_wp conn ns endpointRef :
  MinIOConnection.AliasRef conn = None ->
  MinIOConnection.URL conn = None ->
  MinIOConnection.EndpointRef conn = Some endpointRef ->
  wp (buildClientConfig conn ns) (fun tr r => Leaf (
    forall config, r = inl config ->
    let endpointNamespace := default ns (EndpointReference.Namespace endpointRef) in
    exists endpoint secret,
      let secretRef := EndpointSpec.SecretRef (Endpoint.Spec endpoint) in
      tr = [Ev (GetEndpoint (ObjectKey.mk endpointNamespace
                               (EndpointReference.Name endpointRef)))
              (inl endpoint);
            Ev (GetSecret (ObjectKey.mk
                             (default endpointNamespace (SecretReference.Namespace secretRef))
                             (SecretReference.Name secretRef)))
              (inl secret)]
      /\ Secret.Data secret !! keyOr (SecretReference.AccessKeyIDKey secretRef) "accessKeyID"
         = Some (ClientConfig.AccessKeyID config)
      /\ Secret.Data secret
           !! keyOr (SecretReference.SecretAccessKeyKey secretRef) "secretAccessKey"
         = Some (ClientConfig.SecretAccessKey config))).
Proof.
  destruct conn as [a e u s t]. cbn. intros -> -> ->.
  resolver_paths.
  all: intros config Hc; try discriminate Hc; injection Hc as <-.
  all: subst; eexists _, _; (split; [reflexivity |]).
  all: split_data_matches; cbn; split; assumption.
Qed.

(** X5. A reference that resolves through an alias takes its credentials
    from the secret the alias names, never from a secret of the dependent
    resource: a successful resolution fetches the alias and then that one
    secret, looked up in the namespace the secret reference gives or else in
    the namespace of the alias (which is the one the alias reference gives
    or else the namespace of the dependent resource), and the two
    credentials are the entries of that secret under the configured or the
    conventional key names.  The same holds for a reference through an
    Endpoint.  (For the alias the reference must not give both a URL and a
    secret of its own.) *)
Theorem referenced_resource_provides_the_credentials
    (W : Type) (h : Handler W) (w : W) (conn : MinIOConnection.t) (ns : string)
    (config : ClientConfig.t) :
  result_of (run h (buildClientConfig conn ns) w) = inl config ->
  (forall aliasRef,
     MinIOConnection.AliasRef conn = Some aliasRef ->
     MinIOConnection.URL conn = None \/ MinIOConnection.SecretRef conn = None ->
     let aliasNamespace := default ns (AliasReference.Namespace aliasRef) in
     exists alias secret,
       let secretRef := AliasSpec.SecretRef (Alias.Spec alias) in
       trace_of (run h (buildClientConfig conn ns) w)
       = [Ev (GetAlias (ObjectKey.mk aliasNamespace (AliasReference.Name aliasRef)))
            (inl alias);
          Ev (GetSecret (ObjectKey.mk
                           (default aliasNamespace (SecretReference.Namespace secretRef))
                           (SecretReference.Name secretRef)))
            (inl secret)]
       /\ Secret.Data secret !! keyOr (SecretReference.AccessKeyIDKey secretRef) "accessKeyID"
          = Some (ClientConfig.AccessKeyID config)
       /\ Secret.Data secret
            !! keyOr (SecretReference.SecretAccessKeyKey secretRef) "secretAccessKey"
          = Some (ClientConfig.SecretAccessKey config))
  /\ (forall endpointRef,
        MinIOConnection.AliasRef conn = None ->
        MinIOConnection.URL conn = None ->
        MinIOConnection.EndpointRef conn = Some endpointRef ->
        let endpointNamespace := default ns (EndpointReference.Namespace endpointRef) in
        exists endpoint secret,
          let secretRef := EndpointSpec.SecretRef (Endpoint.Spec endpoint) in
          trace_of (run h (buildClientConfig conn ns) w)
          = [Ev (GetEndpoint (ObjectKey.mk endpointNamespace
                                (EndpointReference.Name endpointRef)))
               (inl endpoint);
             Ev (GetSecret (ObjectKey.mk
                              (default endpointNamespace
                                 (SecretReference.Namespace secretRef))
                              (SecretReference.Name secretRef)))
               (inl secret)]
          /\ Secret.Data secret
               !! keyOr (SecretReference.AccessKeyIDKey secretRef) "accessKeyID"
             = Some (ClientConfig.AccessKeyID config)
          /\ Secret.Data secret
               !! keyOr (SecretReference.SecretAccessKeyKey secretRef) "secretAccessKey"
             = Some (ClientConfig.SecretAccessKey config)).
Proof.
  intros Hr. split.
  - intros aliasRef Ha Hsrc.
    destruct (wp_run h _ _ w (buildClientConfig_alias_credentials_wp conn ns aliasRef Ha Hsrc))
      as [H].
    exact (H config Hr).
  - intros endpointRef Ha Hu He.
    destruct (wp_run h _ _ w
                (buildClientConfig_endpoint_credentials_wp conn ns endpointRef Ha Hu He))
      as [H].
    exact (H config Hr).
Qed.

(** What a direct URL with a secret resolves to. *)
Lemma buildClientConfig_url_wp conn ns url secretRef :
  MinIOConnection.AliasRef conn = None ->
  MinIOConnection.URL conn = Some url ->
  MinIOConnection.SecretRef conn = Some secretRef ->
  wp (buildClientConfig conn ns) (fun tr r => Leaf (
    forall config, r = inl config ->
    exists secret accessKeyID secretAccessKey,
      tr = [Ev (GetSecret (ObjectKey.mk (default ns (SecretReference.Namespace secretRef))
                             (SecretReference.Name secretRef)))
              (inl secret)]
      /\ Secret.Data secret !! keyOr (SecretReference.AccessKeyIDKey secretRef) "accessKeyID"
         = Some accessKeyID
      /\ Secret.Data secret
           !! keyOr (SecretReference.SecretAccessKeyKey secretRef) "secretAccessKey"
         = Some secretAccessKey
      /\ config = ClientConfig.mk url accessKeyID secretAccessKey true
                    (insecureOf (MinIOConnection.TLS conn)) false "")).
Proof.
  destruct conn as [a e u s t]. cbn. intros -> -> ->.
  resolver_paths.
  all: intros config Hc; try discriminate Hc; injection Hc as <-.
  all: subst; eexists _, _, _; (split; [reflexivity |]).
  all: (split; [eassumption |]); (split; [eassumption |]); destruct t; reflexivity.
Qed.

(** X6. A reference with a direct URL and a secret (and no alias) resolves
    with one lookup, of that secret, in the namespace the secret reference
    gives or else the namespace of the dependent resource.  The resolved
    configuration is the URL as given, the two entries of the secret, TLS
    asked for, certificate checks off exactly when the TLS block of the
    reference says so, no path style and no region. *)
Theorem direct_url_resolution
    (W : Type) (h : Handler W) (w : W) (conn : MinIOConnection.t) (ns : string)
    (url : string) (secretRef : SecretReference.t) (config : ClientConfig.t) :
  MinIOConnection.AliasRef conn = None ->
  MinIOConnection.URL conn = Some url ->
  MinIOConnection.SecretRef conn = Some secretRef ->
  result_of (run h (buildClientConfig conn ns) w) = inl config ->
  exists secret accessKeyID secretAccessKey,
    trace_of (run h (buildClientConfig conn ns) w)
    = [Ev (GetSecret (ObjectKey.mk (default ns (SecretReference.Namespace secretRef))
                        (SecretReference.Name secretRef)))
         (inl secret)]
    /\ Secret.Data secret !! keyOr (SecretReference.AccessKeyIDKey secretRef) "accessKeyID"
       = Some accessKeyID
    /\ Secret.Data secret
         !! keyOr (SecretReference.SecretAccessKeyKey secretRef) "secretAccessKey"
       = Some secretAccessKey
    /\ config = ClientConfig.mk url accessKeyID secretAccessKey true
                  (insecureOf (MinIOConnection.TLS conn)) false "".
Proof.
  intros Ha Hu Hs Hr.
  destruct (wp_run h _ _ w (buildClientConfig_url_wp conn ns url secretRef Ha Hu Hs)) as [H].
  exact (H config Hr).
Qed.

(** On a reference that gives a URL, the two resolvers are the same
    program: the older resolver on a connection with a URL and a secret
    reference issues the operations and returns the results of the
    alias-aware resolver on the connection with the same URL, secret
    reference and TLS block and no alias, whatever either one gives as
    EndpointRef. *)
Remark resolvers_agree_on_a_direct_url
    (url : string) (secretRef : SecretReference.t) (tls : option TLSConfig.t)
    (endpointRef endpointRef' : option EndpointReference.t) (ns : string) :
  Legacy.buildClientConfig
    (Legacy.MinIOConnection.mk endpointRef (Some url) secretRef tls) ns
  = buildClientConfig
      (MinIOConnection.mk None endpointRef' (Some url) (Some secretRef) tls) ns.
Proof. reflexivity. Qed.

Lemma Legacy_buildClientConfig_credentials_wp conn ns :
  wp (Legacy.buildClientConfig conn ns) (fun tr r => Leaf (
    forall config, r = inl config ->
    let secretRef := Legacy.MinIOConnection.SecretRef conn in
    exists secret,
      last tr
      = Some (Ev (GetSecret (ObjectKey.mk (default ns (SecretReference.Namespace secretRef))
                               (SecretReference.Name secretRef)))
                (inl secret))
      /\ Secret.Data secret !! keyOr (SecretReference.AccessKeyIDKey secretRef) "accessKeyID"
         = Some (ClientConfig.AccessKeyID config)
      /\ Secret.Data secret
           !! keyOr (SecretReference.SecretAccessKeyKey secretRef) "secretAccessKey"
         = Some (ClientConfig.SecretAccessKey config)
      /\ (forall e, e ∈ tr -> forall key answer, e = Ev (GetSecret key) answer ->
          key = ObjectKey.mk (default ns (SecretReference.Namespace secretRef))
                  (SecretReference.Name secretRef)))).
Proof.
  destruct conn as [e u s t]. resolver_paths.
  all: intros config Hc; try discriminate Hc; injection Hc as <-.
  all: subst; eexists; (split; [reflexivity |]).
  all: split_data_matches; cbn; (split; [assumption |]); (split; [assumption |]).
  all: intros ev Hin key answer ->;
    repeat (apply elem_of_cons in Hin as [Hin | Hin]; [inversion Hin; reflexivity |]);
    inversion Hin.
Qed.

(** X7. The older resolver takes the credentials from the secret reference
    of the dependent resource on every path, also when the endpoint comes
    from an Endpoint resource: a successful resolution ends with the lookup
    of that secret (in the namespace the reference gives, or else the
    namespace of the dependent resource), the two credentials are its
    entries under the configured or conventional key names, and no other
    secret is looked up. *)
Theorem older_resolver_reads_the_secret_of_the_connection
    (W : Type) (h : Handler W) (w : W) (conn : Legacy.MinIOConnection.t) (ns : string)
    (config : ClientConfig.t) :
  result_of (run h (Legacy.buildClientConfig conn ns) w) = inl config ->
  let secretRef := Legacy.MinIOConnection.SecretRef conn in
  let key := ObjectKey.mk (default ns (SecretReference.Namespace secretRef))
               (SecretReference.Name secretRef) in
  exists secret,
    last (trace_of (run h (Legacy.buildClientConfig conn ns) w))
    = Some (Ev (GetSecret key) (inl secret))
    /\ Secret.Data secret !! keyOr (SecretReference.AccessKeyIDKey secretRef) "accessKeyID"
       = Some (ClientConfig.AccessKeyID config)
    /\ Secret.Data secret
         !! keyOr (SecretReference.SecretAccessKeyKey secretRef) "secretAccessKey"
       = Some (ClientConfig.SecretAccessKey config)
    /\ (forall key' answer,
          Ev (GetSecret key') answer ∈ trace_of (run h (Legacy.buildClientConfig conn ns) w) ->
          key' = key).
Proof.
  intros Hr secretRef key.
  destruct (wp_run h _ _ w (Legacy_buildClientConfig_credentials_wp conn ns)) as [H].
  destruct (H config Hr) as (secret & Hlast & Ha & Hs & Honly).
  exists secret. split; [exact Hlast |]. split; [exact Ha |]. split; [exact Hs |].
  intros key' answer Hin. exact (Honly _ Hin key' answer eq_refl).
Qed.

(** X8. [NewClient] hands out a client only for a configuration the
    resolver produced: when it returns a client, the resolver (run from the
    same state) succeeded, the client carries its configuration, and after
    the steps of the resolver the run built the S3 client and then the admin
    client from that configuration and did nothing else.  When the resolver
    fails, [NewClient] builds no client at all: its run is the run of the
    resolver, and its error wraps the error of the resolver. *)
Theorem NewClient_builds_clients_from_the_resolved_configuration
    (W : Type) (h : Handler W) (w : W) (conn : MinIOConnection.t) (ns : string) :
  let res := run h (buildClientConfig conn ns) w in
  let out := run h (NewClient conn ns) w in
  (forall client,
     result_of out = inl client ->
     result_of res = inl (Client.config client)
     /\ trace_of out
        = trace_of res ++ [Ev (MinioNew (Client.config client)) None;
                           Ev (MadminNew (Client.config client)) None])
  /\ (forall err,
        result_of res = inr err ->
        out = (inr (Wrapf "failed to build client config: " err), trace_of res, world_of res)).
Proof.
  intros res out. subst res out. unfold NewClient.
  change (run h (_ ← buildClientConfig conn ns; _) w)
    with (run h (buildClientConfig conn ns ≫= fun r =>
            match r with
            | inr err => fail (Wrapf "failed to build client config: " err)
            | inl config =>
                e ← call (MinioNew config);
                match e with
                | Some err => fail (Wrapf "failed to create S3 client: " err)
                | None =>
                    e ← call (MadminNew config);
                    match e with
                    | Some err => fail (Wrapf "failed to create admin client: " err)
                    | None => mret (inl (Client.mk config))
                    end
                end
            end) w).
  rewrite run_bind.
  destruct (run h (buildClientConfig conn ns) w) as [[r tr] w1].
  cbn [result_of trace_of world_of fst snd].
  destruct r as [config | err0]; run_step.
  - destruct (h _ (MinioNew config) w1) as [[e1 |] w2]; run_step.
    + split; [intros client Hc; discriminate Hc | intros err He; discriminate He].
    + destruct (h _ (MadminNew config) w2) as [[e2 |] w3]; run_step.
      * split; [intros client Hc; discriminate Hc | intros err He; discriminate He].
      * split; [| intros err He; discriminate He].
        intros client Hc. cbn in Hc. injection Hc as <-. split; reflexivity.
  - split; [intros client Hc; discriminate Hc |].
    intros err He. injection He as ->. rewrite app_nil_r. reflexivity.
Qed.

(** ** The User reconciler, step by step *)

Lemma getPassword_wp user :
  wp (UserReconciler.getPassword user) (fun tr r => Leaf (
    admin_calls tr = []
    /\ clock_readings tr = []
    /\ forall password, r = inl password ->
       match UserSpec.Password (User.Spec user) with
       | Some inline => password = inline /\ tr = []
       | None =>
           exists secretRef secret,
             UserSpec.SecretRef (User.Spec user) = Some secretRef
             /\ tr = [Ev (GetSecret (ObjectKey.mk
                                       (default (ObjectMeta.Namespace (User.Meta user))
                                          (SecretReference.Namespace secretRef))
                                       (SecretReference.Name secretRef)))
                        (inl secret)]
             /\ Secret.Data secret
                  !! keyOr (SecretReference.SecretAccessKeyKey secretRef) "password"
                = Some password
       end)).
Proof.
  unfold UserReconciler.getPassword. wp_explore; constructor.
  all: (split; [reflexivity |]); (split; [reflexivity |]).
  all: intros password Hp; try discriminate Hp; injection Hp as <-.
  - split; reflexivity.
  - eexists _, _. split; [reflexivity |]. split; [reflexivity |]. assumption.
Qed.

(** X9. Where [getPassword] takes the password from.  A password written
    in the spec wins and nothing is looked up, whatever secret the spec
    names besides.  Without one, the password is the entry of the referenced
    secret (one lookup, in the namespace the reference gives or else the
    namespace of the user) under the key the reference configures in its
    field [SecretAccessKeyKey], or under ["password"] when that is empty.
    With neither, [getPassword] fails without a lookup. *)
Theorem getPassword_prefers_the_inline_password
    (W : Type) (h : Handler W) (w : W) (user : User.t) :
  let out := run h (UserReconciler.getPassword user) w in
  (forall password,
     result_of out = inl password ->
     match UserSpec.Password (User.Spec user) with
     | Some inline => password = inline /\ trace_of out = []
     | None =>
         exists secretRef secret,
           UserSpec.SecretRef (User.Spec user) = Some secretRef
           /\ trace_of out
              = [Ev (GetSecret (ObjectKey.mk
                                  (default (ObjectMeta.Namespace (User.Meta user))
                                     (SecretReference.Namespace secretRef))
                                  (SecretReference.Name secretRef)))
                   (inl secret)]
           /\ Secret.Data secret
                !! keyOr (SecretReference.SecretAccessKeyKey secretRef) "password"
              = Some password
     end)
  /\ (UserSpec.Password (User.Spec user) = None ->
      UserSpec.SecretRef (User.Spec user) = None ->
      out = (inr (Errorf "either password or secretRef must be specified"), [], w)).
Proof.
  intros out. subst out. split.
  - intros password Hr.
    destruct (wp_run h _ _ w (getPassword_wp user)) as [(_ & _ & H)]. exact (H password Hr).
  - intros Hp Hs. unfold UserReconciler.getPassword. rewrite Hp, Hs. reflexivity.
Qed.

Lemma admin_calls_app tr1 tr2 : admin_calls (tr1 ++ tr2) = admin_calls tr1 ++ admin_calls tr2.
Proof. apply omap_app. Qed.

Ltac step_eval :=
  unfold admin_calls, s3_calls, policy_probes, clock_readings, status_writes, updates;
  cbn [omap list_omap admin_call_of s3_call_of policy_probe_of clock_reading
       status_write_of update_of
       head last fst snd
       User.set_Conditions User.set_Ready User.set_Username User.set_Status
       User.set_Groups User.set_Policies User.set_CreationDate User.set_LastSyncTime
       User.set_ObservedGeneration User.with_Status User.with_Meta
       User.Status User.Meta User.Spec
       UserStatus.Conditions UserStatus.Ready UserStatus.Username UserStatus.Status
       UserStatus.Groups UserStatus.Policies UserStatus.CreationDate
       UserStatus.LastSyncTime UserStatus.ObservedGeneration
       Policy.set_Conditions Policy.set_Ready Policy.set_PolicyName Policy.set_PolicyHash
       Policy.set_CreationDate Policy.set_LastSyncTime Policy.set_ObservedGeneration
       Policy.with_Status Policy.with_Meta Policy.Status Policy.Meta Policy.Spec
       PolicyStatus.Conditions PolicyStatus.Ready PolicyStatus.PolicyName
       PolicyStatus.PolicyHash PolicyStatus.CreationDate PolicyStatus.LastSyncTime
       PolicyStatus.ObservedGeneration].

(** The run of [reconcileUser] is the run of [getPassword] followed, when
    there is a password, by a run the postcondition above describes. *)
Lemma reconcileUser_run {W : Type} (h : Handler W) (w : W) user minioClient :
  let pw := run h (UserReconciler.getPassword user) w in
  let out := run h (UserReconciler.reconcileUser user minioClient) w in
  match result_of pw with
  | inr err =>
      out = ((user, Result.after Minute, Some (Wrapf "failed to get password: " err)),
             trace_of pw, world_of pw)
  | inl password =>
      exists rest,
        trace_of out = trace_of pw ++ rest
        /\ reconcileUser_post user password rest (result_of out)
  end.
Proof.
  intros pw out. subst pw out. unfold UserReconciler.reconcileUser. rewrite run_bind.
  destruct (run h (UserReconciler.getPassword user) w) as [[r tr1] w1].
  cbn [result_of trace_of world_of fst snd].
  destruct r as [password | err].
  2: { run_step. rewrite (app_nil_r tr1). reflexivity. }
  match goal with
  | |- context [run h ?P w1] =>
      assert (wp P (fun tr res => Leaf (reconcileUser_post user password tr res))) as Hwp;
      [| destruct (wp_run h P _ w1 Hwp) as [Hpost];
         destruct (run h P w1) as [[res tr2] w2] ]
  end.
  - pass.
    all: constructor; unfold reconcileUser_post; step_eval; subst.
    all: repeat match goal with
                | H : negb match ?r with _ => _ end = _ |- _ =>
                    destruct r; cbn in H; try discriminate H; clear H
                | H : UserSpec.Policies _ = _ |- _ => rewrite H
                end.
    all: (split; [reflexivity |]); (split; [reflexivity |]).
    all: first
           [ split;
             [ match goal with
               | |- context [(GetUserInfo _, ?probe) :: _] => exists probe
               end;
               first [ exists None; split; reflexivity | eexists; split; reflexivity ]
             | repeat split; reflexivity ]
           | (split; [reflexivity |]);
             (split; [eexists _, _, _; split; reflexivity |]);
             repeat (split; [reflexivity |]);
             repeat (constructor; [cbn; intros ? ? ? Hcall; discriminate Hcall |]);
             constructor ].
  - cbn [result_of trace_of fst snd] in *. exists tr2. split; [reflexivity | exact Hpost].
Qed.

(** X10. A run of [reconcileUser] that returns no error made these calls
    on the admin handle and no others, in this order: the existence probe
    [GetUserInfo]; then [AddUser] with the password when the probe failed,
    or [SetUser] with the password and the account enabled when it
    succeeded (never both); then [SetUserStatus] with the account disabled
    exactly when the spec says ["disabled"]; then, when the spec lists
    policies, one [SetPolicy] for the first of them only, whose answer does
    not matter.  The password is the one [getPassword] returns.  The result
    asks for a retry in one hour, the status, groups and policies of the
    spec are copied to the status, and the creation date is set, from the
    clock, exactly when the user was created. *)
Theorem reconcileUser_success_calls
    (W : Type) (h : Handler W) (w : W) (user : User.t) (minioClient : Client.t)
    (user' : User.t) (result : Result.t) :
  result_of (run h (UserReconciler.reconcileUser user minioClient) w)
  = (user', result, None) ->
  let username := UserSpec.Username (User.Spec user) in
  let account :=
    if decide (UserSpec.Status (User.Spec user) = UserStatusDisabled)
    then AccountDisabled else AccountEnabled in
  let tr := trace_of (run h (UserReconciler.reconcileUser user minioClient) w) in
  exists password probe attached,
    result_of (run h (UserReconciler.getPassword user) w) = inl password
    /\ admin_calls tr
       = (GetUserInfo username, probe)
         :: (match probe with
             | None => SetUser username password AccountEnabled
             | Some _ => AddUser username password
             end, None)
         :: (SetUserStatus username account, None)
         :: match UserSpec.Policies (User.Spec user) with
            | policy0 :: _ => [(SetPolicy policy0 username false, attached)]
            | [] => []
            end
    /\ result = Result.after Hour
    /\ UserStatus.Status (User.Status user') = UserSpec.Status (User.Spec user)
    /\ UserStatus.Groups (User.Status user') = UserSpec.Groups (User.Spec user)
    /\ UserStatus.Policies (User.Status user') = UserSpec.Policies (User.Spec user)
    /\ UserStatus.CreationDate (User.Status user')
       = match probe with
         | None => UserStatus.CreationDate (User.Status user)
         | Some _ => head (clock_readings tr)
         end.
Proof.
  intros Hr username account tr. subst username account tr.
  pose proof (reconcileUser_run h w user minioClient) as Hrun. cbv zeta in Hrun.
  destruct (wp_run h _ _ w (getPassword_wp user)) as [(Hadm & Hloc & _)].
  destruct (result_of (run h (UserReconciler.getPassword user) w)) as [password | err0].
  2: { rewrite Hrun in Hr. discriminate Hr. }
  destruct Hrun as (rest & Htr & _ & _ & Hpost).
  rewrite Hr in Hpost. cbn [fst snd] in Hpost.
  destruct Hpost as ((probe & attached & Hcalls & Hdate) & Hres & Hs & Hg & Hp).
  exists password, probe, attached.
  split; [reflexivity |].
  rewrite Htr, admin_calls_app, Hadm. cbn [app].
  repeat (split; [assumption |]).
  rewrite Hdate. unfold clock_readings in *. rewrite omap_app, Hloc. reflexivity.
Qed.

(** X11. A run of [reconcileUser] that returns an error asks for a retry in
    one minute, and its error wraps a cause (the error of [getPassword] or
    of the admin call that failed).  It has copied nothing to the status:
    the status, groups and policies in the status are the ones the user
    came with.  And it has attached no policy: no [SetPolicy] was issued. *)
Theorem reconcileUser_failure_leaves_status
    (W : Type) (h : Handler W) (w : W) (user : User.t) (minioClient : Client.t)
    (user' : User.t) (result : Result.t) (err : error) :
  result_of (run h (UserReconciler.reconcileUser user minioClient) w)
  = (user', result, Some err) ->
  result = Result.after Minute
  /\ (exists text cause, err = Wrapf text cause)
  /\ UserStatus.Status (User.Status user') = UserStatus.Status (User.Status user)
  /\ UserStatus.Groups (User.Status user') = UserStatus.Groups (User.Status user)
  /\ UserStatus.Policies (User.Status user') = UserStatus.Policies (User.Status user)
  /\ Forall (fun c => forall p e g, c.1 <> SetPolicy p e g)
       (admin_calls (trace_of (run h (UserReconciler.reconcileUser user minioClient) w))).
Proof.
  intros Hr.
  pose proof (reconcileUser_run h w user minioClient) as Hrun. cbv zeta in Hrun.
  destruct (wp_run h _ _ w (getPassword_wp user)) as [(Hadm & _ & _)].
  destruct (result_of (run h (UserReconciler.getPassword user) w)) as [password | err0].
  - destruct Hrun as (rest & Htr & _ & _ & Hpost).
    rewrite Hr in Hpost. cbn [fst snd] in Hpost.
    destruct Hpost as (Hres & (text & call & cause & -> & _) & Hs & Hg & Hp & Hno).
    rewrite Htr, admin_calls_app, Hadm. cbn [app].
    split; [exact Hres |]. split; [eexists _, _; reflexivity |].
    repeat (split; [assumption |]). exact Hno.
  - rewrite Hrun in Hr |- *. cbn [result_of trace_of fst snd] in *.
    injection Hr as <- <- <-. rewrite Hadm.
    split; [reflexivity |]. split; [eexists _, _; reflexivity |].
    repeat (split; [reflexivity |]). constructor.
Qed.

(** ** The Policy reconciler, step by step *)

(** X12. [reconcilePolicy] uploads the document only when it has to.  With
    a document that is not empty it first asks MinIO for the policy of that
    name; when MinIO answers with a policy that is not empty and the hash in
    the status is the hash of the document, it makes no further call;
    otherwise (no such policy, an empty one, an error of the probe, or
    another hash) it makes exactly one, [AddCannedPolicy] with the name and
    the document of the spec. *)
Theorem reconcilePolicy_uploads_only_a_new_or_changed_document
    (W : Type) (h : Handler W) (w : W) (sha256hex : string -> string)
    (policy : Policy.t) (minioClient : Client.t) :
  let policyName := PolicySpec.PolicyName (Policy.Spec policy) in
  let document := PolicySpec.Policy (Policy.Spec policy) in
  let out := run h (PolicyReconciler.reconcilePolicy sha256hex policy minioClient) w in
  let probe := h _ (AdminInfoCannedPolicy minioClient policyName) w in
  let unchanged :=
    match probe.1 with
    | inl existing =>
        bool_decide (0 < String.length existing)%nat
        && bool_decide (PolicyStatus.PolicyHash (Policy.Status policy) = sha256hex document)
    | inr _ => false
    end in
  String.length document <> 0%nat ->
  head (trace_of out) = Some (Ev (AdminInfoCannedPolicy minioClient policyName) probe.1)
  /\ admin_calls (trace_of out)
     = if unchanged then []
       else [(AddCannedPolicy policyName document,
              (h _ (Admin minioClient (AddCannedPolicy policyName document)) probe.2).1)].
Proof.
  intros policyName document out probe unchanged Hdoc.
  subst out unchanged probe policyName document.
  unfold PolicyReconciler.reconcilePolicy.
  rewrite decide_False by exact Hdoc.
  run_step.
  destruct (h _ (AdminInfoCannedPolicy minioClient
                   (PolicySpec.PolicyName (Policy.Spec policy))) w) as [probe w1].
  cbn [fst snd].
  destruct probe as [existing | err]; cbn [negb orb andb].
  - destruct (bool_decide (0 < String.length existing)%nat) eqn:Hex; cbn [negb orb andb].
    + destruct (decide (PolicyStatus.PolicyHash (Policy.Status policy)
                        = sha256hex (PolicySpec.Policy (Policy.Spec policy)))) as [Heq | Hne].
      * rewrite (bool_decide_eq_false_2 _ (fun H => H Heq)).
        rewrite (bool_decide_eq_true_2 _ Heq). run_step. split; reflexivity.
      * rewrite (bool_decide_eq_true_2 _ Hne).
        rewrite (bool_decide_eq_false_2 _ Hne). run_step.
        destruct (h _ (Admin minioClient _) w1) as [[e |] w2]; run_step;
          split; reflexivity.
    + run_step.
      destruct (h _ (Admin minioClient _) w1) as [[e |] w2]; run_step;
        [split; reflexivity |].
      destruct (h _ Now w2) as [now w3]. run_step. split; reflexivity.
  - run_step.
    destruct (h _ (Admin minioClient _) w1) as [[e |] w2]; run_step;
      [split; reflexivity |].
    destruct (h _ Now w2) as [now w3]. run_step. split; reflexivity.
Qed.

Lemma reconcilePolicy_outcome_wp sha256hex policy minioClient :
  wp (PolicyReconciler.reconcilePolicy sha256hex policy minioClient) (fun tr res => Leaf (
    let document := PolicySpec.Policy (Policy.Spec policy) in
    let policy' := res.1.1 in
    Policy.Meta policy' = Policy.Meta policy
    /\ Policy.Spec policy' = Policy.Spec policy
    /\ match res.2 with
       | None =>
           String.length document <> 0%nat
           /\ res.1.2 = Result.after Hour
           /\ PolicyStatus.PolicyHash (Policy.Status policy') = sha256hex document
           /\ (PolicyStatus.CreationDate (Policy.Status policy')
               = PolicyStatus.CreationDate (Policy.Status policy)
               \/ exists now,
                    clock_readings tr = [now]
                    /\ PolicyStatus.CreationDate (Policy.Status policy') = Some now
                    /\ exists probe,
                         policy_probes tr
                         = [(PolicySpec.PolicyName (Policy.Spec policy), probe)]
                         /\ forall existing, probe = inl existing -> existing = "")
       | Some err =>
           policy' = policy
           /\ ((String.length document = 0%nat /\ tr = []
                /\ err = Errorf "policy document is empty" /\ res.1.2 = Result.empty)
               \/ (exists cause,
                     last (admin_calls tr)
                     = Some (AddCannedPolicy (PolicySpec.PolicyName (Policy.Spec policy))
                               document, Some cause)
                     /\ err = Wrapf "failed to add/update canned policy: " cause
                     /\ res.1.2 = Result.after Minute))
       end)).
Proof.
  unfold PolicyReconciler.reconcilePolicy. pass.
  all: constructor; step_eval; subst; cbv zeta.
  all: (split; [reflexivity |]); (split; [reflexivity |]).
  all: try (split; [reflexivity |]; left; repeat split; assumption).
  all: try (split; [reflexivity |]; right; eexists; repeat split; reflexivity).
  all: (split; [assumption |]); (split; [reflexivity |]); (split; [reflexivity |]).
  all: try (left; reflexivity).
  all: right; eexists; (split; [reflexivity |]); (split; [reflexivity |]).
  all: eexists; (split; [reflexivity |]).
  all: intros existing ->.
  all: destruct existing as [| a s]; [reflexivity |].
  all: exfalso;
    match goal with
    | H : negb _ = true |- _ =>
        cbn in H; rewrite bool_decide_eq_true_2 in H by (cbn; lia); discriminate H
    end.
Qed.

(** X13. What [reconcilePolicy] returns.  Without an error: the document
    is not empty, the result asks for a retry in one hour, the hash in the
    status is the hash of the document, and the creation date is the one
    the policy came with unless MinIO did not hold a policy of that name
    (the probe failed or gave an empty policy), in which case it is the
    time read from the clock after the upload.  With an error the policy
    is returned as it came, so the hash in the status is not advanced: either
    the document is empty, nothing was called and no retry delay is asked
    for, or the upload failed, its cause is wrapped and the retry is after
    one minute. *)
Theorem reconcilePolicy_records_hash_only_on_success
    (W : Type) (h : Handler W) (w : W) (sha256hex : string -> string)
    (policy : Policy.t) (minioClient : Client.t) :
  let document := PolicySpec.Policy (Policy.Spec policy) in
  let policyName := PolicySpec.PolicyName (Policy.Spec policy) in
  let out := run h (PolicyReconciler.reconcilePolicy sha256hex policy minioClient) w in
  let policy' := (result_of out).1.1 in
  match (result_of out).2 with
  | None =>
      String.length document <> 0%nat
      /\ (result_of out).1.2 = Result.after Hour
      /\ PolicyStatus.PolicyHash (Policy.Status policy') = sha256hex document
      /\ (PolicyStatus.CreationDate (Policy.Status policy')
          = PolicyStatus.CreationDate (Policy.Status policy)
          \/ exists now,
               clock_readings (trace_of out) = [now]
               /\ PolicyStatus.CreationDate (Policy.Status policy') = Some now
               /\ exists probe,
                    policy_probes (trace_of out) = [(policyName, probe)]
                    /\ forall existing, probe = inl existing -> existing = "")
  | Some err =>
      policy' = policy
      /\ ((String.length document = 0%nat /\ trace_of out = []
           /\ err = Errorf "policy document is empty"
           /\ (result_of out).1.2 = Result.empty)
          \/ (exists cause,
                last (admin_calls (trace_of out))
                = Some (AddCannedPolicy policyName document, Some cause)
                /\ err = Wrapf "failed to add/update canned policy: " cause
                /\ (result_of out).1.2 = Result.after Minute))
  end.
Proof.
  intros document policyName out policy'. subst document policyName out policy'.
  destruct (wp_run h _ _ w (reconcilePolicy_outcome_wp sha256hex policy minioClient))
    as [(_ & _ & H)].
  exact H.
Qed.

(** ** The status a pass leaves behind *)

Lemma condition_is_set now conditions ty status reason message :
  condition_is (setConditionAt now conditions ty status reason message) ty status reason.
Proof.
  destruct (GetCondition_setConditionAt now conditions ty status reason message)
    as (c & Hc & _ & Hs & Hr & _).
  exists c. repeat split; assumption.
Qed.

Lemma condition_is_other now conditions ty status reason message ty' status' reason' :
  ty <> ty' ->
  condition_is conditions ty' status' reason' ->
  condition_is (setConditionAt now conditions ty status reason message) ty' status' reason'.
Proof.
  intros Hne (c & Hc & Hs & Hr). exists c.
  rewrite GetCondition_setConditionAt_other by exact Hne. repeat split; assumption.
Qed.

Lemma GetCondition_setConditionAt_full now conditions ty status reason message :
  exists c,
    GetCondition (setConditionAt now conditions ty status reason message) ty = Some c
    /\ Condition.Status c = status /\ Condition.Reason c = reason
    /\ Condition.Message c = message.
Proof.
  destruct (GetCondition_setConditionAt now conditions ty status reason message)
    as (c & Hc & _ & Hs & Hr & Hm).
  exists c. repeat split; assumption.
Qed.

Ltac absurd_result H :=
  first [ discriminate H | exfalso; vm_compute in H; discriminate H ].

Ltac condition_facts :=
  rewrite ?GetCondition_setConditionAt_other by discriminate;
  repeat (apply condition_is_other; [discriminate |]);
  try apply condition_is_set;
  try reflexivity.

(** The status fields of a written object. *)
Ltac status_eval :=
  cbn [ConditionsOf ReadyOf LastSyncTimeOf MetaOf reconcileErrorPrefix
       User.set_Conditions User.set_Ready User.set_Username User.set_Status
       User.set_Groups User.set_Policies User.set_CreationDate User.set_LastSyncTime
       User.set_ObservedGeneration User.with_Status User.with_Meta
       User.Status User.Meta User.Spec
       UserStatus.Conditions UserStatus.Ready UserStatus.LastSyncTime
       Policy.set_Conditions Policy.set_Ready Policy.set_PolicyName Policy.set_PolicyHash
       Policy.set_CreationDate Policy.set_LastSyncTime Policy.set_ObservedGeneration
       Policy.with_Status Policy.with_Meta Policy.Status Policy.Meta Policy.Spec
       PolicyStatus.Conditions PolicyStatus.Ready PolicyStatus.LastSyncTime].

Ltac error_condition_fact :=
  match goal with
  | |- context [setConditionAt ?now ?cs ConditionError ?st ?r ?m] =>
      let c := fresh "c" in
      destruct (GetCondition_setConditionAt_full now cs ConditionError st r m)
        as (c & ? & ? & ? & ?)
  end.

Ltac converged_leaf :=
  unfold converged_post;
  let Hres := fresh "Hres" in
  intros Hres;
  first
    [ absurd_result Hres
    | split; [reflexivity |];
      split; [repeat constructor |];
      eexists; split; [reflexivity |];
      status_eval;
      split; [reflexivity |];
      repeat split; condition_facts ].

Ltac client_error_leaf :=
  unfold client_error_post;
  let Hb := fresh "Hb" in
  let Hres := fresh "Hres" in
  intros Hb Hres;
  first
    [ discriminate Hb
    | absurd_result Hres
    | error_condition_fact;
      eexists _, _, _; split; [reflexivity |];
      status_eval;
      split; [reflexivity |];
      split; [eassumption |];
      split; [assumption |];
      split; [assumption |];
      split; [eexists; eassumption |];
      split; condition_facts ].

Ltac reconcile_error_leaf :=
  unfold reconcile_error_post;
  let Hb := fresh "Hb" in
  let err := fresh "err" in
  let Herr := fresh "Herr" in
  intros Hb err Herr; cbn [snd] in Herr;
  first
    [ discriminate Hb
    | discriminate Herr
    | injection Herr as <-;
      first
        [ eexists _, _; split; [reflexivity |]; left; status_eval;
          repeat split; reflexivity
        | error_condition_fact;
          eexists _, _; split; [reflexivity |]; right;
          status_eval;
          split; [reflexivity |];
          split; [eexists; repeat split; eassumption |];
          split; condition_facts ] ].

Ltac status_leaf :=
  constructor; subst; unfold status_post;
  cbn [loaded];
  trace_eval;
  unfold writes_post;
  cbn [length last];
  (split; [lia |]); (split; [lia |]);
  let o0 := fresh "o0" in
  let Hl := fresh "Hl" in
  intros o0 Hl;
  first
    [ discriminate Hl
    | injection Hl as <-; cbn [MetaOf User.Meta Policy.Meta];
      repeat match goal with
             | H : ObjectMeta.DeletionTimestamp _ = _ |- _ => rewrite H
             end;
      first
        [ reflexivity
        | split; [converged_leaf | split; [client_error_leaf | reconcile_error_leaf]] ] ].

Lemma UserReconciler_Reconcile_status req :
  wp (UserReconciler.Reconcile req) (fun tr res => Leaf (status_post tr res)).
Proof.
  unfold_passes. pass. all: status_leaf.
Qed.

Lemma PolicyReconciler_Reconcile_status sha256hex req :
  wp (PolicyReconciler.Reconcile sha256hex req) (fun tr res => Leaf (status_post tr res)).
Proof.
  unfold_passes. pass. all: status_leaf.
Qed.

Lemma ReconcilePass_status {W : Type} (h : Handler W) (w : W) p finalizer :
  ReconcilePass p finalizer ->
  status_post (trace_of (run h p w)) (result_of (run h p w)).
Proof.
  intros [req | sha256hex req].
  - destruct (wp_run h _ _ w (UserReconciler_Reconcile_status req)) as [H]. exact H.
  - destruct (wp_run h _ _ w (PolicyReconciler_Reconcile_status sha256hex req)) as [H].
    exact H.
Qed.

(** X14. A pass of the User or of the Policy reconciler writes the object
    at most once and its status at most twice, whatever the API server and
    MinIO answer; and a pass on an object that is being deleted writes no
    status at all. *)
Theorem pass_writes_object_once_and_status_twice
    (p : Prog (Result.t * option error)) (finalizer : string)
    (W : Type) (h : Handler W) (w : W) :
  ReconcilePass p finalizer ->
  let tr := trace_of (run h p w) in
  (length (updates tr) <= 1)%nat
  /\ (length (status_writes tr) <= 2)%nat
  /\ (forall o0 deleted,
        loaded tr = Some o0 ->
        ObjectMeta.DeletionTimestamp (MetaOf o0) = Some deleted ->
        status_writes tr = []).
Proof.
  intros Hp tr. subst tr.
  destruct (ReconcilePass_status h w p finalizer Hp) as (Hu & Hs & Hst).
  split; [exact Hu |]. split; [exact Hs |].
  intros o0 deleted Hl Hd. specialize (Hst o0 Hl). rewrite Hd in Hst. exact Hst.
Qed.

(** X15. A pass on an object that is not being deleted which ends without
    an error and asks for the hourly re-check has converged: it got a
    client, the API server accepted every status it wrote, and the last of
    them says ready, with the Ready condition true and the Progressing
    condition false, both with the reason ["Ready"].  The Error condition is
    not touched: it is the one the object was loaded with, so an Error
    condition set by an earlier failed pass stays true after the pass that
    converges. *)
Theorem converged_pass_writes_ready_and_keeps_error_condition
    (p : Prog (Result.t * option error)) (finalizer : string)
    (W : Type) (h : Handler W) (w : W) (o0 : Object) :
  ReconcilePass p finalizer ->
  loaded (trace_of (run h p w)) = Some o0 ->
  ObjectMeta.DeletionTimestamp (MetaOf o0) = None ->
  result_of (run h p w) = (Result.after Hour, None) ->
  existsb client_built (trace_of (run h p w)) = true
  /\ Forall (fun write => write.2 = None) (status_writes (trace_of (run h p w)))
  /\ exists o,
       last (status_writes (trace_of (run h p w))) = Some (o, None)
       /\ ReadyOf o = true
       /\ condition_is (ConditionsOf o) ConditionReady ConditionTrue "Ready"
       /\ condition_is (ConditionsOf o) ConditionProgressing ConditionFalse "Ready"
       /\ GetCondition (ConditionsOf o) ConditionError
          = GetCondition (ConditionsOf o0) ConditionError.
Proof.
  intros Hp Hl Hd Hres.
  destruct (ReconcilePass_status h w p finalizer Hp) as (_ & _ & Hst).
  specialize (Hst o0 Hl). rewrite Hd in Hst. destruct Hst as (Hc & _ & _).
  exact (Hc Hres).
Qed.


(** X17. A pass on an object that is not being deleted that got a client
    and returns an error.  Either the API server refused its final write of
    a ready status: then the error is that refusal and no retry delay is
    asked for.  Or convergence failed: then the last status write of the
    pass (whose own answer is not looked at) says not ready, with an Error
    condition that is true, has the reason [ReconcileError] and as message
    the text of the returned error after the prefix of the kind; the
    Progressing condition is left true and the Ready condition is the one
    the object was loaded with. *)
Theorem pass_with_client_and_error_writes_reconcile_error
    (p : Prog (Result.t * option error)) (finalizer : string)
    (W : Type) (h : Handler W) (w : W) (o0 : Object) (err : error) :
  ReconcilePass p finalizer ->
  loaded (trace_of (run h p w)) = Some o0 ->
  ObjectMeta.DeletionTimestamp (MetaOf o0) = None ->
  existsb client_built (trace_of (run h p w)) = true ->
  (result_of (run h p w)).2 = Some err ->
  exists o answer,
    last (status_writes (trace_of (run h p w))) = Some (o, answer)
    /\ ((ReadyOf o = true /\ answer = Some err
         /\ (result_of (run h p w)).1 = Result.empty)
        \/ (ReadyOf o = false
            /\ (exists c,
                  GetCondition (ConditionsOf o) ConditionError = Some c
                  /\ Condition.Status c = ConditionTrue
                  /\ Condition.Reason c = "ReconcileError"
                  /\ Condition.Message c = reconcileErrorPrefix o +:+ Error err)
            /\ condition_is (ConditionsOf o) ConditionProgressing ConditionTrue "Reconciling"
            /\ GetCondition (ConditionsOf o) ConditionReady
               = GetCondition (ConditionsOf o0) ConditionReady)).
Proof.
  intros Hp Hl Hd Hb Herr.
  destruct (ReconcilePass_status h w p finalizer Hp) as (_ & _ & Hst).
  specialize (Hst o0 Hl). rewrite Hd in Hst. destruct Hst as (_ & _ & Hc).
  exact (Hc Hb err Herr).
Qed.

(** X18. What a pass does with an object it cannot act on.  When the read
    of the object fails, the pass issues nothing else; an error that says
    the object is not found (also when wrapped) ends the pass quietly, any
    other error is returned.  When the object is being deleted and does not
    carry the finalizer of the kind, the pass issues nothing besides the
    read and returns no error and no retry delay. *)
Theorem pass_on_a_missing_or_released_object_does_nothing
    (W : Type) (h : Handler W) (w : W) (sha256hex : string -> string) (req : ObjectKey.t) :
  (forall err w1,
     h _ (GetUser req) w = (inr err, w1) ->
     run h (UserReconciler.Reconcile req) w
     = ((Result.empty, if IsNotFound err then None else Some err),
        [Ev (GetUser req) (inr err)], w1))
  /\ (forall err w1,
        h _ (GetPolicy req) w = (inr err, w1) ->
        run h (PolicyReconciler.Reconcile sha256hex req) w
        = ((Result.empty, if IsNotFound err then None else Some err),
           [Ev (GetPolicy req) (inr err)], w1))
  /\ (forall user deleted w1,
        h _ (GetUser req) w = (inl user, w1) ->
        ObjectMeta.DeletionTimestamp (User.Meta user) = Some deleted ->
        controllerutil.ContainsFinalizer (User.Meta user) UserFinalizer = false ->
        run h (UserReconciler.Reconcile req) w
        = ((Result.empty, None), [Ev (GetUser req) (inl user)], w1))
  /\ (forall policy deleted w1,
        h _ (GetPolicy req) w = (inl policy, w1) ->
        ObjectMeta.DeletionTimestamp (Policy.Meta policy) = Some deleted ->
        controllerutil.ContainsFinalizer (Policy.Meta policy) PolicyFinalizer = false ->
        run h (PolicyReconciler.Reconcile sha256hex req) w
        = ((Result.empty, None), [Ev (GetPolicy req) (inl policy)], w1)).
Proof.
  split; [| split; [| split]].
  - intros err w1 Hget. unfold UserReconciler.Reconcile. run_step. rewrite Hget.
    run_step. destruct (IsNotFound err); reflexivity.
  - intros err w1 Hget. unfold PolicyReconciler.Reconcile. run_step. rewrite Hget.
    run_step. destruct (IsNotFound err); reflexivity.
  - intros user deleted w1 Hget Hd Hf.
    unfold UserReconciler.Reconcile, UserReconciler.handleDeletion.
    run_step. rewrite Hget. run_step. rewrite Hd, Hf. reflexivity.
  - intros policy deleted w1 Hget Hd Hf.
    unfold PolicyReconciler.Reconcile, PolicyReconciler.handleDeletion.
    run_step. rewrite Hget. run_step. rewrite Hd, Hf. reflexivity.
Qed.

(** ** Emptying and removing a bucket *)

Lemma emptyBucketFrom_in_order_wp minioClient bucketName objects :
  wp (BucketReconciler.emptyBucketFrom minioClient bucketName objects)
     (fun tr r => Leaf (emptied_in_order bucketName objects tr r)).
Proof.
  induction objects as [| object rest IH]; cbn [BucketReconciler.emptyBucketFrom].
  - constructor. split; [reflexivity |]. split; reflexivity.
  - destruct (ObjectInfo.Err object) as [cause |] eqn:Herr.
    + constructor. split; [reflexivity |].
      exists [], object, rest, cause. split; [reflexivity |]. split; [reflexivity |].
      left. repeat split; assumption.
    + cbn [wp bind mbind Prog_bind mret Prog_ret call]. intros [cause |].
      * constructor. split; [reflexivity |].
        exists [], object, rest, cause. split; [reflexivity |]. split; [reflexivity |].
        right. repeat split; assumption.
      * cbn [wp bind mbind Prog_bind mret Prog_ret call].
        eapply wp_mono; [| exact IH].
        intros tr r [(Hlen & Hr)]. constructor. split.
        { unfold s3_calls in *. cbn [omap list_omap s3_call_of length]. rewrite Hlen.
          reflexivity. }
        destruct r as [err |].
        -- destruct Hr as (done & object' & rest' & cause & -> & Hdone & Hcase).
           exists (object :: done), object', rest', cause.
           split; [reflexivity |]. split.
           { rewrite listing_failed_cons, Herr. exact Hdone. }
           unfold s3_calls in *. cbn [omap list_omap s3_call_of].
           destruct Hcase as [(He & Hc & ->) | (He & Hc & ->)]; [left | right];
             (split; [exact He |]); (split; [| reflexivity]);
             rewrite Hc; reflexivity.
        -- destruct Hr as (Hl & Hc). split.
           { rewrite listing_failed_cons, Herr. exact Hl. }
           unfold s3_calls in *. cbn [omap list_omap s3_call_of]. rewrite Hc. reflexivity.
Qed.

(** X19. [emptyBucket] lists the bucket and removes the listed objects one
    by one, in the order of the listing.  When it returns no error, the
    listing carried no error and every listed object was removed, once.
    When it returns an error it stopped at the first object that carried a
    listing error (which it did not touch) or whose removal failed: the
    objects before it were removed, none after it was touched, and the
    error wraps the cause. *)
Theorem emptyBucket_removes_listed_objects_in_order
    (W : Type) (h : Handler W) (w : W) (minioClient : Client.t) (bucketName : string) :
  let out := run h (BucketReconciler.emptyBucket minioClient bucketName) w in
  let objects := (h _ (S3ListObjects minioClient bucketName) w).1 in
  listings (trace_of out) = [(bucketName, objects)]
  /\ match result_of out with
     | None =>
         listing_failed objects = false
         /\ s3_calls (trace_of out) = removal bucketName <$> objects
     | Some err =>
         exists done object rest cause,
           objects = done ++ object :: rest
           /\ listing_failed done = false
           /\ ((ObjectInfo.Err object = Some cause
                /\ s3_calls (trace_of out) = removal bucketName <$> done
                /\ err = Wrapf "error listing objects: " cause)
               \/ (ObjectInfo.Err object = None
                   /\ s3_calls (trace_of out)
                      = (removal bucketName <$> done)
                        ++ [(RemoveObject bucketName (ObjectInfo.Key object), Some cause)]
                   /\ err = Wrapf ("error removing object " +:+ ObjectInfo.Key object
                                   +:+ ": ") cause))
     end.
Proof.
  intros out objects. subst out objects. unfold BucketReconciler.emptyBucket.
  rewrite run_bind. cbn [run call].
  destruct (h _ (S3ListObjects minioClient bucketName) w) as [objects w1]. cbn [fst].
  destruct (wp_run h _ _ w1 (emptyBucketFrom_in_order_wp minioClient bucketName objects))
    as [(Hlen & Hr)].
  destruct (run h (BucketReconciler.emptyBucketFrom minioClient bucketName objects) w1)
    as [[r tr] w2].
  cbn [result_of trace_of fst snd app] in *.
  assert (listings tr = []) as Hlist.
  { clear - Hlen. unfold listings, s3_calls in *.
    induction tr as [| ev tr IH]; [reflexivity |].
    destruct ev as [R op a].
    assert (length (omap s3_call_of tr) <= length tr)%nat as Hle.
    { clear. induction tr as [| ev tr IH]; [cbn; lia |].
      cbn [omap list_omap]. destruct (s3_call_of ev); cbn [length]; lia. }
    destruct op; cbn [omap list_omap s3_call_of listing_of length] in *;
      first [ apply IH; lia | lia ]. }
  unfold listings in *. cbn [omap list_omap listing_of]. rewrite Hlist.
  split; [reflexivity |]. exact Hr.
Qed.

Lemma s3_calls_le tr : (length (s3_calls tr) <= length tr)%nat.
Proof.
  unfold s3_calls. induction tr as [| ev tr IH]; [cbn; lia |].
  cbn [omap list_omap]. destruct (s3_call_of ev); cbn [length]; lia.
Qed.

(** A trace of calls on the S3 handle holds no probe and no listing. *)
Lemma only_s3_calls tr :
  length (s3_calls tr) = length tr -> bucket_probes tr = [] /\ listings tr = [].
Proof.
  unfold bucket_probes, listings.
  induction tr as [| ev tr IH]; intros Hlen; [split; reflexivity |].
  pose proof (s3_calls_le tr) as Hle. unfold s3_calls in *.
  destruct ev as [R op a].
  destruct op; cbn [omap list_omap s3_call_of bucket_probe_of listing_of length] in *;
    first [ apply IH; lia | lia ].
Qed.

Lemma resolve_no_s3_call e : is_resolve e = true -> s3_call_of e = None.
Proof. revert e. resolve_case. Qed.
Lemma resolve_no_bucket_probe e : is_resolve e = true -> bucket_probe_of e = None.
Proof. revert e. resolve_case. Qed.
Lemma resolve_no_listing e : is_resolve e = true -> listing_of e = None.
Proof. revert e. resolve_case. Qed.

Lemma removal_not_RemoveBucket bucketName (objects : list ObjectInfo.t) name
    (answer : option error) :
  (RemoveBucket name, answer) ∉ removal bucketName <$> objects.
Proof.
  intros Hin. apply list_elem_of_fmap in Hin as (object & Heq & _). discriminate Heq.
Qed.

Lemma BucketReconciler_handleDeletion_order bucket :
  wp (BucketReconciler.handleDeletion bucket) (fun tr _ => Leaf (
    removed_after_emptying (BucketSpec.BucketName (Bucket.Spec bucket)) tr)).
Proof.
  unfold BucketReconciler.handleDeletion, BucketReconciler.emptyBucket.
  pass.
  all: try (constructor; subst; unfold removed_after_emptying, s3_calls;
            rewrite ?(omap_resolve_app s3_call_of _ _ resolve_no_s3_call) by assumption;
            cbn [omap list_omap s3_call_of app];
            intros name answer Hin; inversion Hin; fail).
  apply wp_bind. eapply wp_mono; [| apply emptyBucketFrom_in_order_wp].
  intros tr2 answer2 [(Hlen & Hr)].
  destruct (only_s3_calls tr2 Hlen) as [Hprobes Hlists].
  pass.
  all: constructor; subst; unfold removed_after_emptying, s3_calls, bucket_probes, listings;
    rewrite ?(omap_resolve_app s3_call_of _ _ resolve_no_s3_call),
      ?(omap_resolve_app bucket_probe_of _ _ resolve_no_bucket_probe),
      ?(omap_resolve_app listing_of _ _ resolve_no_listing) by assumption;
    cbn [omap list_omap s3_call_of bucket_probe_of listing_of app];
    rewrite ?omap_app;
    fold (s3_calls tr2); fold (bucket_probes tr2); fold (listings tr2);
    rewrite ?Hprobes, ?Hlists;
    cbn [omap list_omap s3_call_of bucket_probe_of listing_of app];
    intros name answer Hin.
  - exfalso. destruct Hr as (done & object & rest & cause & _ & _ & Hcase).
    rewrite app_nil_r in Hin.
    destruct Hcase as [(_ & Hc & _) | (_ & Hc & _)]; rewrite Hc in Hin.
    + exact (removal_not_RemoveBucket _ _ _ _ Hin).
    + apply elem_of_app in Hin as [Hin | Hin];
        [exact (removal_not_RemoveBucket _ _ _ _ Hin) |].
      apply list_elem_of_singleton in Hin. discriminate Hin.
  - destruct Hr as (Hl & Hc). rewrite Hc in Hin |- *.
    apply elem_of_app in Hin as [Hin | Hin];
      [exfalso; exact (removal_not_RemoveBucket _ _ _ _ Hin) |].
    apply list_elem_of_singleton in Hin. injection Hin as -> ->.
    split; [reflexivity |]. eexists. repeat split; [exact Hl].
  - destruct Hr as (Hl & Hc). rewrite Hc in Hin |- *.
    apply elem_of_app in Hin as [Hin | Hin];
      [exfalso; exact (removal_not_RemoveBucket _ _ _ _ Hin) |].
    apply list_elem_of_singleton in Hin. injection Hin as -> ->.
    split; [reflexivity |]. eexists. repeat split; [exact Hl].
Qed.

(** X20. The teardown of a bucket never removes a bucket it has not
    emptied.  Whatever MinIO answers, a [RemoveBucket] in the run of
    [handleDeletion] is for the bucket the spec names, and by then the
    existence probe has answered yes, the listing of the bucket carried no
    error, and the calls on the S3 handle before it were the removals of the
    listed objects, each once, in the order of the listing, all of them
    successful; no call on the S3 handle follows it. *)
Theorem bucket_is_removed_only_after_it_was_emptied
    (W : Type) (h : Handler W) (w : W) (bucket : Bucket.t)
    (name : string) (answer : option error) :
  let tr := trace_of (run h (BucketReconciler.handleDeletion bucket) w) in
  let bucketName := BucketSpec.BucketName (Bucket.Spec bucket) in
  (RemoveBucket name, answer) ∈ s3_calls tr ->
  name = bucketName
  /\ exists objects,
       bucket_probes tr = [(bucketName, inl true)]
       /\ listings tr = [(bucketName, objects)]
       /\ listing_failed objects = false
       /\ s3_calls tr = (removal bucketName <$> objects) ++ [(RemoveBucket bucketName, answer)].
Proof.
  intros tr bucketName Hin. subst tr bucketName.
  destruct (wp_run h _ _ w (BucketReconciler_handleDeletion_order bucket)) as [H].
  exact (H name answer Hin).
Qed.

(** ** Policy attachments *)

(** X21. [resolveTarget] accepts a target exactly when one of its three
    names is given and not empty (an empty string counts as not given).
    For a user it yields the user name, not a group; for a group the group
    name, as a group; for a service account alone it yields no error
    either, with an empty name that is not a group.  In every other case
    (none given, or more than one) it fails, with an empty name. *)
Theorem resolveTarget_accepts_exactly_one_name (t : PolicyAttachmentTarget.t) :
  resolveTarget t
  = match given (PolicyAttachmentTarget.User t),
          given (PolicyAttachmentTarget.Group t),
          given (PolicyAttachmentTarget.ServiceAccount t) with
    | true, false, false => (default "" (PolicyAttachmentTarget.User t), false, None)
    | false, true, false => (default "" (PolicyAttachmentTarget.Group t), true, None)
    | false, false, true => ("", false, None)
    | _, _, _ => ("", false, Some errTarget)
    end.
Proof.
  destruct t as [user group serviceAccount]. unfold resolveTarget, given.
  cbn [PolicyAttachmentTarget.User PolicyAttachmentTarget.Group
       PolicyAttachmentTarget.ServiceAccount].
  destruct user as [user |]; [destruct (bool_decide (user ≠ "")) |];
    (destruct group as [group |]; [destruct (bool_decide (group ≠ "")) |]);
    (destruct serviceAccount as [sa |]; [destruct (bool_decide (sa ≠ "")) |]);
    reflexivity.
Qed.

Lemma reconcileAttachment_wp attachment minioClient :
  wp (PolicyAttachmentReconciler.reconcileAttachment attachment minioClient)
     (fun tr res => Leaf (reconcileAttachment_post attachment tr res)).
Proof.
  unfold PolicyAttachmentReconciler.reconcileAttachment. pass.
  all: constructor; unfold reconcileAttachment_post; subst;
    repeat match goal with
           | H : resolveTarget _ = _ |- _ => rewrite H; clear H
           | H : (_, _) = (_, _) |- _ => injection H as -> ->
           end;
    step_eval; cbn [length].
  all: try (repeat split; reflexivity).
  all: (split; [reflexivity |]);
    (split; [repeat (constructor; [cbn; intros Hn; try discriminate Hn;
                                   intros ? ? ? Hcall; discriminate Hcall |]);
             constructor |]).
  all: try (split; reflexivity).
  all: split; [reflexivity |]; eexists _, _, _; split; reflexivity.
Qed.

(** X22. [reconcileAttachment] attaches a policy only to a user MinIO
    knows.  A run without an error made exactly two calls, the probe of the
    target user and then [SetPolicy] with the policy of the spec for that
    user (not as a group), both successful; it records the target in the
    status and asks for the hourly re-check.  A run with an error returns
    the attachment as it came and has attached nothing; when the target is
    invalid or is a group it has called nothing and asks for no retry
    delay, otherwise the error wraps the cause of the call that failed and
    the retry is after one minute. *)
Theorem reconcileAttachment_attaches_only_to_a_known_user
    (W : Type) (h : Handler W) (w : W) (attachment : PolicyAttachment.t)
    (minioClient : Client.t) :
  let out := run h (PolicyAttachmentReconciler.reconcileAttachment attachment minioClient) w in
  let spec := PolicyAttachment.Spec attachment in
  let resolved := resolveTarget (PolicyAttachmentSpec.Target spec) in
  let target := resolved.1.1 in
  let isGroup := resolved.1.2 in
  match (result_of out).2 with
  | None =>
      resolved.2 = None /\ isGroup = false
      /\ admin_calls (trace_of out)
         = [(GetUserInfo target, None);
            (SetPolicy (PolicyAttachmentSpec.PolicyName spec) target false, None)]
      /\ length (trace_of out) = 2%nat
      /\ (result_of out).1.2 = Result.after Hour
      /\ (result_of out).1.1 = PolicyAttachment.set_Target target attachment
  | Some err =>
      (result_of out).1.1 = attachment
      /\ Forall (fun c => c.2 = None -> forall p e g, c.1 <> SetPolicy p e g)
           (admin_calls (trace_of out))
      /\ match resolved.2, isGroup with
         | None, false =>
             (result_of out).1.2 = Result.after Minute
             /\ exists text call cause,
                  err = Wrapf text cause
                  /\ last (admin_calls (trace_of out)) = Some (call, Some cause)
         | _, _ => trace_of out = [] /\ (result_of out).1.2 = Result.empty
         end
  end.
Proof.
  intros out spec resolved target isGroup. subst out spec resolved target isGroup.
  destruct (wp_run h _ _ w (reconcileAttachment_wp attachment minioClient)) as [H].
  exact H.
Qed.

(** ** Runs of the reconcilers of the other kinds *)

Lemma kwp_run {A W R : Type} (h : KHandler A W) (p : KProg A R)
    (Q : list (KEvent A) -> R -> Prop) (w : W) :
  kwp p Q -> Q (ktrace_of (krun h p w)) (kresult_of (krun h p w)).
Proof.
  revert Q w. induction p as [r | X op k IH]; intros Q w Hwp; simpl in *.
  - exact Hwp.
  - destruct (h X op w) as [x w1]. specialize (IH x _ w1 (Hwp x)).
    destruct (krun h (k x) w1) as [[r tr] w2]. exact IH.
Qed.

Lemma kwp_bind {A R S : Type} (p : KProg A R) (f : R -> KProg A S)
    (Q : list (KEvent A) -> S -> Prop) :
  kwp p (fun tr1 r => kwp (f r) (fun tr2 s => Q (tr1 ++ tr2) s)) -> kwp (kbind p f) Q.
Proof.
  revert Q. induction p as [r | X op k IH]; intros Q H.
  - exact H.
  - cbn [kbind kwp] in *. intros x. apply IH. exact (H x).
Qed.

Lemma kwp_mono {A R : Type} (p : KProg A R) (Q Q' : list (KEvent A) -> R -> Prop) :
  (forall tr r, Q tr r -> Q' tr r) -> kwp p Q -> kwp p Q'.
Proof.
  revert Q Q'. induction p as [r | X op k IH]; intros Q Q' HQ H; simpl in *.
  - auto.
  - intros x. eapply IH; [| exact (H x)]. intros tr r. apply HQ.
Qed.

(** A shared program keeps, in the run of a kind, what it guarantees on its
    own. *)
Lemma kwp_lift {A R : Type} (p : Prog R) (Q : list (KEvent A) -> R -> Prop) :
  wp p (fun tr r => Q (core <$> tr) r) -> kwp (lift p) Q.
Proof.
  revert Q. induction p as [r | X op k IH]; intros Q H; cbn [lift kwp wp] in *.
  - exact H.
  - intros x. apply IH. exact (H x).
Qed.

Lemma kwp_lift_bind {A R S : Type} (p : Prog R) (f : R -> KProg A S)
    (Q0 : list Event -> R -> Prop) (Q : list (KEvent A) -> S -> Prop) :
  wp p Q0 ->
  (forall tr1 r, Q0 tr1 r -> kwp (f r) (fun tr2 s => Q ((core <$> tr1) ++ tr2) s)) ->
  kwp (kbind (lift p) f) Q.
Proof.
  intros Hp Hf. apply kwp_bind. apply kwp_lift.
  eapply wp_mono; [| exact Hp]. intros tr r H. apply Hf. exact H.
Qed.

Lemma kwp_NewClient_bind {A S : Type} conn ns (k : Client.t + error -> KProg A S)
    (Q : list (KEvent A) -> S -> Prop) :
  (forall tr1 r,
     forallb is_resolve tr1 = true -> existsb client_built tr1 = built r ->
     kwp (k r) (fun tr2 s => Q ((core <$> tr1) ++ tr2) s)) ->
  kwp (kbind (lift (NewClient conn ns)) k) Q.
Proof.
  intros H. eapply kwp_lift_bind; [apply NewClient_wp |].
  intros tr1 r [[Hq Hb]]. apply H; assumption.
Qed.

(** The shared events of a run of a kind. *)
Lemma cores_core {A : Type} (tr : list Event) : omap (core_of (A := A)) (core <$> tr) = tr.
Proof.
  induction tr as [| [R op r] tr IH]; [reflexivity |].
  cbn [fmap list_fmap omap list_omap core core_of]. f_equal. exact IH.
Qed.

Lemma cores_core_app {A : Type} (tr1 : list Event) (tr2 : list (KEvent A)) :
  omap core_of ((core <$> tr1) ++ tr2) = tr1 ++ omap core_of tr2.
Proof. rewrite omap_app, cores_core. reflexivity. Qed.

(** A shared event is no write of the resource and no call of a kind. *)
Lemma omap_core_app {A B : Type} (f : KEvent A -> option B) (tr1 : list Event)
    (tr2 : list (KEvent A)) :
  (forall e, f (core e) = None) ->
  omap f ((core <$> tr1) ++ tr2) = omap f tr2.
Proof.
  intros Hf. rewrite omap_app.
  assert (omap f (core (A := A) <$> tr1) = []) as ->; [| reflexivity].
  induction tr1 as [| e tr1 IH]; [reflexivity |].
  cbn [fmap list_fmap omap list_omap]. rewrite (Hf e). exact IH.
Qed.

Lemma kupdates_core_app {A : Type} (tr1 : list Event) (tr2 : list (KEvent A)) :
  omap kupdate_of ((core <$> tr1) ++ tr2) = omap kupdate_of tr2.
Proof. apply omap_core_app. intros [R op r]. reflexivity. Qed.

Lemma kstatus_writes_core_app {A : Type} (tr1 : list Event) (tr2 : list (KEvent A)) :
  omap kstatus_write_of ((core <$> tr1) ++ tr2) = omap kstatus_write_of tr2.
Proof. apply omap_core_app. intros [R op r]. reflexivity. Qed.

Lemma sdk_calls_core_app {A : Type} (tr1 : list Event) (tr2 : list (KEvent A)) :
  omap sdk_call_of ((core <$> tr1) ++ tr2) = omap sdk_call_of tr2.
Proof. apply omap_core_app. intros [R op r]. reflexivity. Qed.

(** The exploration of a pass of a kind. *)
Ltac kscrutinee p :=
  lazymatch p with
  | kbind ?q _ => kscrutinee q
  | mbind _ ?q => kscrutinee q
  | lift ?q => kscrutinee q
  | bind ?q _ => kscrutinee q
  | bindE ?q _ => kscrutinee q
  | match ?x with _ => _ end => constr:(x)
  end.

Ltac kpass_norm :=
  cbn [kwp kbind lift kcall mbind mret KProg_bind KProg_ret
       bind Prog_bind Prog_ret bindE call fail
       PolicyAttachment.set_Conditions PolicyAttachment.set_Ready
       PolicyAttachment.set_PolicyName PolicyAttachment.set_Target
       PolicyAttachment.set_AttachedAt PolicyAttachment.set_LastSyncTime
       PolicyAttachment.set_ObservedGeneration PolicyAttachment.with_Status
       PolicyAttachment.with_Meta PolicyAttachment.Status PolicyAttachment.Meta
       PolicyAttachment.Spec
       PolicyAttachmentStatus.Conditions PolicyAttachmentStatus.Ready
       PolicyAttachmentStatus.PolicyName PolicyAttachmentStatus.Target
       PolicyAttachmentStatus.AttachedAt PolicyAttachmentStatus.LastSyncTime
       PolicyAttachmentStatus.ObservedGeneration
       AliasKind.on_Status AliasKind.with_Meta AliasKind.Meta AliasKind.Spec
       AliasKind.Status
       AliasKind.Status.set_Conditions AliasKind.Status.set_Ready
       AliasKind.Status.set_URL AliasKind.Status.set_Healthy
       AliasKind.Status.set_LastHealthCheck AliasKind.Status.set_Version
       AliasKind.Status.set_Region AliasKind.Status.set_ConnectedAt
       AliasKind.Status.set_LastSyncTime AliasKind.Status.set_ObservedGeneration
       AliasKind.Status.Conditions AliasKind.Status.Ready AliasKind.Status.URL
       AliasKind.Status.Healthy AliasKind.Status.LastHealthCheck
       AliasKind.Status.Version AliasKind.Status.Region AliasKind.Status.ConnectedAt
       AliasKind.Status.LastSyncTime AliasKind.Status.ObservedGeneration];
  cbv beta iota.

Ltac kpass_step :=
  kpass_norm;
  lazymatch goal with
  | |- Leaf _ => fail
  | |- forall x, _ => intros ?
  | |- kwp (kbind (lift (NewClient _ _)) _) _ =>
      apply kwp_NewClient_bind; intros ? [?|?] ? ?
  | |- kwp (mbind ?k (lift (NewClient ?c ?n))) ?Q =>
      apply (kwp_NewClient_bind c n k Q); intros ? [?|?] ? ?
  | |- kwp ?p _ => let x := kscrutinee p in destruct x eqn:?
  end.

Ltac kpass := repeat kpass_step; kpass_norm.

(** ** The PolicyAttachment reconciler *)

Lemma resolve_no_admin_call e : is_resolve e = true -> admin_call_of e = None.
Proof. revert e. resolve_case. Qed.

Lemma admin_calls_resolve_app tr1 tr2 :
  forallb is_resolve tr1 = true -> omap admin_call_of (tr1 ++ tr2) = omap admin_call_of tr2.
Proof. apply omap_resolve_app, resolve_no_admin_call. Qed.

(** Evaluation of the readings of a trace of a kind. *)
Ltac ktrace_eval :=
  unfold admin_calls, clock_readings, cores, kupdates, kstatus_writes, sdk_calls;
  repeat (progress (
    rewrite ?cores_core_app, ?kupdates_core_app, ?kstatus_writes_core_app,
      ?sdk_calls_core_app;
    cbn [omap list_omap
         core_of kupdate_of kstatus_write_of sdk_call_of failed kloaded
         admin_call_of clock_reading client_built existsb built app
         negb orb andb fst snd];
    rewrite ?admin_calls_resolve_app, ?clock_readings_resolve_app by assumption;
    rewrite ?client_built_app;
    repeat match goal with
           | H : existsb client_built _ = _ |- _ => rewrite H
           end)).

Lemma PolicyAttachmentReconciler_handleDeletion_teardown attachment :
  controllerutil.ContainsFinalizer (PolicyAttachment.Meta attachment)
    PolicyAttachmentFinalizer = true ->
  kwp (PolicyAttachmentReconciler.handleDeletion attachment)
      (fun tr res => Leaf (attachment_teardown_post attachment tr res)).
Proof.
  intros Hf. unfold PolicyAttachmentReconciler.handleDeletion. rewrite Hf. kpass.
  all: constructor; subst; unfold attachment_teardown_post; ktrace_eval;
    unfold detached_post;
    repeat match goal with
           | H : resolveTarget _ = _ |- _ => rewrite H; clear H
           end;
    cbn [fst snd].
  all: repeat match goal with
              | H : context [match ?o with Some _ => _ | None => _ end] |- _ => destruct o
              end;
    cbn [andb] in *; try discriminate;
    repeat match goal with
           | H : bool_decide _ = _ |- _ => rewrite H
           end.
  all: first
         [ eexists; split; [reflexivity |];
           first [ split; reflexivity | eexists; split; reflexivity ]
         | split; [reflexivity |];
           first [ eexists; split; reflexivity | split; reflexivity ] ].
Qed.

(** X23. The teardown of a policy attachment that carries the finalizer.
    Without a client it calls nothing, writes nothing and asks for a retry
    in a minute.  With a client and a target that resolves to a name it
    makes one call on the admin handle, [SetPolicy] with the empty policy
    for that name (as a group when the target is one), and removes the
    finalizer (it writes the attachment back without it, once, and returns
    the answer to that write) only when the call succeeded; when the call
    failed it writes nothing and asks for a retry in a minute.  With a
    client and a target that is invalid, or that resolves to the empty
    name, it detaches nothing and removes the finalizer. *)
Theorem attachment_teardown_detaches_before_releasing
    (W : Type) (h : KHandler PolicyAttachment.t W) (w : W)
    (attachment : PolicyAttachment.t) :
  controllerutil.ContainsFinalizer (PolicyAttachment.Meta attachment)
    PolicyAttachmentFinalizer = true ->
  let out := krun h (PolicyAttachmentReconciler.handleDeletion attachment) w in
  let tr := ktrace_of out in
  let resolved :=
    resolveTarget (PolicyAttachmentSpec.Target (PolicyAttachment.Spec attachment)) in
  let target := resolved.1.1 in
  let isGroup := resolved.1.2 in
  let released :=
    PolicyAttachment.with_Meta
      (controllerutil.RemoveFinalizer (PolicyAttachment.Meta attachment)
         PolicyAttachmentFinalizer) attachment in
  let detach :=
    match resolved.2 with
    | None => bool_decide (target ≠ "")
    | Some _ => false
    end in
  if existsb client_built (cores tr) then
    if detach then
      exists answer,
        admin_calls (cores tr) = [(SetPolicy "" target isGroup, answer)]
        /\ match answer with
           | Some _ => kupdates tr = [] /\ kresult_of out = (Result.after Minute, None)
           | None =>
               exists written,
                 kupdates tr = [(released, written)]
                 /\ kresult_of out = (Result.empty, written)
           end
    else
      admin_calls (cores tr) = []
      /\ exists written,
           kupdates tr = [(released, written)] /\ kresult_of out = (Result.empty, written)
  else
    admin_calls (cores tr) = [] /\ kupdates tr = []
    /\ kresult_of out = (Result.after Minute, None).
Proof.
  intros Hf out tr resolved target isGroup released detach.
  subst out tr resolved target isGroup released detach.
  destruct (kwp_run h _ _ w
              (PolicyAttachmentReconciler_handleDeletion_teardown attachment Hf)) as [H].
  exact H.
Qed.


Lemma PolicyAttachmentReconciler_Reconcile_attached req :
  kwp (PolicyAttachmentReconciler.Reconcile req)
      (fun tr res => Leaf (attachment_pass_post tr res)).
Proof.
  unfold PolicyAttachmentReconciler.Reconcile, PolicyAttachmentReconciler.handleDeletion,
    PolicyAttachmentReconciler.reconcileAttachment, SetCondition.
  kpass.
  all: constructor; subst; unfold attachment_pass_post; ktrace_eval; unfold attached_post.
  all: intros a0 Hl Hd; try discriminate Hl; injection Hl as <-; try congruence.
  all: cbv zeta; kpass_norm; cbn [head last fst snd].
  all: split;
    [ destruct (PolicyAttachmentStatus.AttachedAt (PolicyAttachment.Status t)) eqn:Ha;
      try discriminate;
      repeat (constructor;
              [ cbn [fst]; kpass_norm;
                first [ assumption | reflexivity | left; assumption
                      | right; repeat split; reflexivity ] |]);
      constructor
    | intros a err Hc [Hh | [Hh Hr]];
      [ first
          [ discriminate Hh
          | injection Hh as <- <-; first [ reflexivity | congruence ] ]
      | first
          [ discriminate Hh
          | injection Hh as Ha Hx; subst;
            cbn [PolicyAttachment.set_Conditions PolicyAttachment.set_Ready
                 PolicyAttachment.set_PolicyName PolicyAttachment.set_Target
                 PolicyAttachment.set_AttachedAt PolicyAttachment.set_LastSyncTime
                 PolicyAttachment.set_ObservedGeneration PolicyAttachment.with_Status
                 PolicyAttachment.with_Meta PolicyAttachment.Status
                 PolicyAttachmentStatus.Ready] in Hr;
            first [ discriminate Hr | reflexivity | congruence ] ] ] ].
Qed.


(** X24. The time of attachment of a policy attachment is recorded once.
    In a pass on an attachment that is not being deleted: when the
    attachment was loaded with a time of attachment, every status the pass
    writes carries that time; when it was loaded without one, a status the
    pass writes carries none either, unless it is the final write of a
    ready status, which carries the last time the pass read from the
    clock. *)
Theorem attachment_time_is_recorded_once
    (W : Type) (h : KHandler PolicyAttachment.t W) (w : W) (req : ObjectKey.t)
    (a0 : PolicyAttachment.t) :
  let tr := ktrace_of (krun h (PolicyAttachmentReconciler.Reconcile req) w) in
  let attachedAt a := PolicyAttachmentStatus.AttachedAt (PolicyAttachment.Status a) in
  let ready a := PolicyAttachmentStatus.Ready (PolicyAttachment.Status a) in
  kloaded tr = Some a0 ->
  ObjectMeta.DeletionTimestamp (PolicyAttachment.Meta a0) = None ->
  match attachedAt a0 with
  | Some t => Forall (fun write => attachedAt write.1 = Some t) (kstatus_writes tr)
  | None =>
      Forall (fun write =>
                attachedAt write.1 = None
                \/ (ready write.1 = true
                    /\ attachedAt write.1 = last (clock_readings (cores tr))
                    /\ last (kstatus_writes tr) = Some write))
        (kstatus_writes tr)
  end.
Proof.
  intros tr attachedAt ready Hl Hd. subst tr attachedAt ready.
  destruct (kwp_run h _ _ w (PolicyAttachmentReconciler_Reconcile_attached req)) as [H].
  exact (proj1 (H a0 Hl Hd)).
Qed.

(** X25. The PolicyAttachment reconciler retries a status conflict like
    the Policy reconciler does.  In a pass on an attachment that is not
    being deleted, when the API server refuses with a conflict the first
    status write (the Progressing one), or the final write of a ready
    status, the pass returns no error and asks for a retry after one
    second. *)
Theorem attachment_status_conflict_is_retried_after_one_second
    (W : Type) (h : KHandler PolicyAttachment.t W) (w : W) (req : ObjectKey.t)
    (a0 a : PolicyAttachment.t) (err : error) :
  let out := krun h (PolicyAttachmentReconciler.Reconcile req) w in
  kloaded (ktrace_of out) = Some a0 ->
  ObjectMeta.DeletionTimestamp (PolicyAttachment.Meta a0) = None ->
  IsConflict err = true ->
  head (kstatus_writes (ktrace_of out)) = Some (a, Some err)
  \/ (last (kstatus_writes (ktrace_of out)) = Some (a, Some err)
      /\ PolicyAttachmentStatus.Ready (PolicyAttachment.Status a) = true) ->
  kresult_of out = (Result.after Second, None).
Proof.
  intros out Hl Hd Hc Hr. subst out.
  destruct (kwp_run h _ _ w (PolicyAttachmentReconciler_Reconcile_attached req)) as [H].
  exact (proj2 (H a0 Hl Hd) a err Hc Hr).
Qed.

(** ** The Alias reconciler *)

Lemma AliasReconciler_Reconcile_health req :
  kwp (AliasReconciler.Reconcile req) (fun tr res => Leaf (alias_pass_post tr res)).
Proof.
  unfold AliasReconciler.Reconcile, AliasReconciler.handleDeletion,
    AliasReconciler.reconcileAlias, AliasReconciler.HealthCheck,
    AliasReconciler.GetServerInfo, SetCondition.
  kpass.
  all: constructor; subst; unfold alias_pass_post; ktrace_eval; unfold alias_health_post.
  all: intros a0 Hl Hd answer rest Hcalls; try discriminate Hl; injection Hl as <-;
    try discriminate Hcalls; injection Hcalls as <- <-.
  all: kpass_norm;
    repeat match goal with
           | |- context [match ?x with _ => _ end] => destruct x eqn:?; kpass_norm
           end.
  all: eexists _, _; (split; [reflexivity |]); kpass_norm.
  all: repeat split; try reflexivity; try discriminate; try assumption;
    try (eexists; reflexivity).
  all: try (intros Hw; try discriminate Hw; try reflexivity;
            repeat split; cbn [snd fst Result.RequeueAfter Result.after];
            cbn [AliasHealthCheck.Enabled AliasHealthCheck.IntervalSeconds] in *;
            first [ reflexivity | apply Z.mul_comm | congruence ]).
  all: cbn [AliasHealthCheck.Enabled AliasHealthCheck.IntervalSeconds] in *.
  all: unfold Result.after; cbn [fst Result.RequeueAfter]; congruence.
Qed.

(** X26. What the health check of an alias decides.  In a pass on an
    alias that is not being deleted and whose pass reaches the health
    check (its first call on the SDK is [ListBuckets]): the last status
    the pass writes says ready, whatever the health check answered, and
    carries the address of the spec and a time of the health check; it
    says healthy exactly when the health check succeeded.  A failed health
    check is the only call of the pass; after a successful one the pass
    asks for the server information and makes no further call. *)
Theorem alias_is_written_ready_and_healthy_by_the_health_check
    (W : Type) (h : KHandler AliasKind.t W) (w : W) (req : ObjectKey.t)
    (a0 : AliasKind.t) (answer : option error) (rest : list (SdkCall * option error)) :
  let tr := ktrace_of (krun h (AliasReconciler.Reconcile req) w) in
  kloaded tr = Some a0 ->
  ObjectMeta.DeletionTimestamp (AliasKind.Meta a0) = None ->
  sdk_calls tr = (ListBuckets, answer) :: rest ->
  exists a written,
    last (kstatus_writes tr) = Some (a, written)
    /\ AliasKind.Status.Ready (AliasKind.Status a) = true
    /\ AliasKind.Status.URL (AliasKind.Status a) = AliasKind.Spec.URL (AliasKind.Spec a0)
    /\ AliasKind.Status.LastHealthCheck (AliasKind.Status a) <> None
    /\ AliasKind.Status.Healthy (AliasKind.Status a) = bool_decide (answer = None)
    /\ match answer with
       | Some _ => rest = []
       | None => exists info, rest = [(ServerInfo, info)]
       end.
Proof.
  intros tr Hl Hd Hcalls. subst tr.
  destruct (kwp_run h _ _ w (AliasReconciler_Reconcile_health req)) as [H].
  destruct (H a0 Hl Hd answer rest Hcalls) as (a & written & Hw & Hr & Hu & Hc & Hrest).
  exists a, written. repeat split; try assumption.
  - destruct answer; [apply Hrest | apply Hrest].
  - destruct answer; apply Hrest.
Qed.

(** X27. The time an alias was first connected is recorded once.  In a
    pass on an alias that is not being deleted and whose pass reaches the
    health check, the last status the pass writes carries the time of
    connection the alias was loaded with; when it was loaded without one,
    that status carries none after a failed health check, and the time of
    this health check after a successful one. *)
Theorem alias_connection_time_is_recorded_once
    (W : Type) (h : KHandler AliasKind.t W) (w : W) (req : ObjectKey.t)
    (a0 : AliasKind.t) (answer : option error) (rest : list (SdkCall * option error)) :
  let tr := ktrace_of (krun h (AliasReconciler.Reconcile req) w) in
  kloaded tr = Some a0 ->
  ObjectMeta.DeletionTimestamp (AliasKind.Meta a0) = None ->
  sdk_calls tr = (ListBuckets, answer) :: rest ->
  exists a written,
    last (kstatus_writes tr) = Some (a, written)
    /\ AliasKind.Status.ConnectedAt (AliasKind.Status a)
       = match AliasKind.Status.ConnectedAt (AliasKind.Status a0), answer with
         | Some t, _ => Some t
         | None, Some _ => None
         | None, None => AliasKind.Status.LastHealthCheck (AliasKind.Status a)
         end.
Proof.
  intros tr Hl Hd Hcalls. subst tr.
  destruct (kwp_run h _ _ w (AliasReconciler_Reconcile_health req)) as [H].
  destruct (H a0 Hl Hd answer rest Hcalls) as (a & written & Hw & _ & _ & _ & Hrest).
  exists a, written. split; [assumption |].
  destruct answer.
  - destruct Hrest as (_ & _ & -> & _).
    destruct (AliasKind.Status.ConnectedAt (AliasKind.Status a0)); reflexivity.
  - destruct Hrest as (_ & _ & -> & _).
    destruct (AliasKind.Status.ConnectedAt (AliasKind.Status a0)); reflexivity.
Qed.

(** X28. When the alias reconciler looks again.  In a pass on an alias
    that is not being deleted, whose pass reaches the health check and
    whose last status write the API server accepted: after a failed health
    check the pass returns no error and asks for a retry after one minute;
    after a successful one it returns no error and asks for a retry after
    the interval of the spec, in seconds, when health checks are enabled
    with an interval, and after five minutes otherwise. *)
Theorem alias_retry_interval_follows_the_health_check
    (W : Type) (h : KHandler AliasKind.t W) (w : W) (req : ObjectKey.t)
    (a0 a : AliasKind.t) (answer : option error) (rest : list (SdkCall * option error)) :
  let out := krun h (AliasReconciler.Reconcile req) w in
  kloaded (ktrace_of out) = Some a0 ->
  ObjectMeta.DeletionTimestamp (AliasKind.Meta a0) = None ->
  sdk_calls (ktrace_of out) = (ListBuckets, answer) :: rest ->
  last (kstatus_writes (ktrace_of out)) = Some (a, None) ->
  (kresult_of out).2 = None
  /\ Result.RequeueAfter (kresult_of out).1
     = match answer with
       | Some _ => Minute
       | None =>
           match AliasKind.Spec.HealthCheck (AliasKind.Spec a0) with
           | Some (AliasHealthCheck.mk true (Some intervalSeconds)) =>
               intervalSeconds * Second
           | _ => 5 * Minute
           end
       end.
Proof.
  intros out Hl Hd Hcalls Hlast. subst out.
  destruct (kwp_run h _ _ w (AliasReconciler_Reconcile_health req)) as [H].
  destruct (H a0 Hl Hd answer rest Hcalls) as (a' & written & Hw & _ & _ & _ & Hrest).
  rewrite Hlast in Hw. injection Hw as <- <-.
  destruct answer.
  - destruct Hrest as (_ & _ & _ & Hres). rewrite (Hres eq_refl). split; reflexivity.
  - destruct Hrest as (_ & _ & _ & Hres). exact (Hres eq_refl).
Qed.

(** ** [reconcileBucket] *)

Lemma setTags_wp tags entries :
  kwp (BucketCreation.setTags tags entries)
      (fun tr r =>
         omap sdk_call_of tr = [] /\ omap core_of tr = []
         /\ forall t, r = inl t -> t = tags ++ entries).
Proof.
  revert tags. induction entries as [| [key value] rest IH]; intros tags.
  - cbn. repeat split. intros t [= <-]. symmetry. apply app_nil_r.
  - cbn [BucketCreation.setTags kwp kbind mbind KProg_bind kcall]. intros [err |].
    + cbn. repeat split. discriminate.
    + cbn [kbind]. eapply kwp_mono; [| apply IH].
      intros tr r (Hs & Hc & Ht).
      cbn [omap list_omap sdk_call_of core_of]. repeat split; try assumption.
      intros t Hr. rewrite (Ht t Hr), <- app_assoc. reflexivity.
Qed.

Lemma BucketCreation_reconcileBucket_wp bucket minioClient :
  kwp (BucketCreation.reconcileBucket bucket minioClient)
      (fun tr res =>
         Leaf (exists probe,
                 bucket_probes (cores tr)
                 = [(BucketKind.Spec.BucketName (BucketKind.Spec bucket), probe)]
                 /\ reconcileBucket_post bucket probe (sdk_calls tr)
                      (clock_readings (cores tr)) res)).
Proof.
  destruct bucket as [meta [conn name region locking versioning tags] status].
  unfold BucketCreation.reconcileBucket.
  cbn [BucketKind.Spec BucketKind.Spec.BucketName BucketKind.Spec.Region
       BucketKind.Spec.ObjectLocking BucketKind.Spec.Versioning BucketKind.Spec.Tags].
  cbv zeta.
  destruct region as [region |], versioning, tags as [| tag tags];
    cbn [length Nat.ltb Nat.leb default from_option id].
  all: repeat first
         [ kpass_step
         | apply kwp_bind; eapply kwp_mono; [| apply setTags_wp];
           intros ? ? (? & ? & ?) ].
  all: kpass_norm; constructor; subst.
  all: unfold bucket_probes, sdk_calls, clock_readings, cores;
    repeat (cbn [omap list_omap core_of sdk_call_of bucket_probe_of clock_reading app];
            rewrite ?omap_app;
            repeat match goal with
                   | H : omap _ _ = [] |- _ => rewrite H
                   end).
  all: eexists; (split; [reflexivity |]).
  all: unfold reconcileBucket_post, wanted_calls;
    cbn [fst snd BucketKind.Spec BucketKind.Spec.BucketName BucketKind.Spec.Region
         BucketKind.Spec.ObjectLocking BucketKind.Spec.Versioning BucketKind.Spec.Tags
         BucketKind.Status BucketKind.on_Status BucketKind.Status.set_Region
         BucketKind.Status.set_CreationDate BucketKind.Status.Region
         BucketKind.Status.CreationDate default from_option id app filter list_filter
         is_MakeBucket].
  all: repeat match goal with
              | H : forall t, inl _ = inl t -> _ |- _ => specialize (H _ eq_refl); subst
              end.
  all: repeat split; try reflexivity; try discriminate.
  all: try (exists true; split; reflexivity).
  all: try (exists false; split; reflexivity).
  all: try (eexists _, _; repeat split; try reflexivity; try discriminate;
            try (eexists; split; reflexivity)).
Qed.

(** X29. [reconcileBucket] makes only a bucket that is absent.  It asks
    once whether the bucket of the spec exists.  When the probe fails it
    calls nothing else, hands the bucket back as it was and returns an
    error.  When the bucket exists it never calls [MakeBucket] and leaves
    the status as it was.  When the bucket is absent its first call on the
    SDK, and its only [MakeBucket], asks for the name, the region (empty
    without one) and the object locking of the spec; the region of the
    spec, if any, is in the status even when that call fails; the creation
    date is the time read after a successful call, and stays as it was
    after a failed one, which ends the calls with an error. *)
Theorem reconcileBucket_makes_only_an_absent_bucket
    (W : Type) (h : KHandler BucketKind.t W) (w : W)
    (bucket : BucketKind.t) (minioClient : Client.t) :
  let out := krun h (BucketCreation.reconcileBucket bucket minioClient) w in
  let tr := ktrace_of out in
  let res := kresult_of out in
  let spec := BucketKind.Spec bucket in
  let status b := BucketKind.Status b in
  exists probe,
    bucket_probes (cores tr) = [(BucketKind.Spec.BucketName spec, probe)]
    /\ match probe with
       | inr _ => sdk_calls tr = [] /\ res.2 <> None /\ res.1.1 = bucket
       | inl true =>
           filter is_MakeBucket (sdk_calls tr) = [] /\ status res.1.1 = status bucket
       | inl false =>
           exists made rest,
             sdk_calls tr =
               (MakeBucket (BucketKind.Spec.BucketName spec)
                  (default "" (BucketKind.Spec.Region spec))
                  (BucketKind.Spec.ObjectLocking spec), made) :: rest
             /\ filter is_MakeBucket rest = []
             /\ BucketKind.Status.Region (status res.1.1)
                = default (BucketKind.Status.Region (status bucket))
                    (BucketKind.Spec.Region spec)
             /\ match made with
                | Some _ =>
                    rest = [] /\ res.2 <> None
                    /\ BucketKind.Status.CreationDate (status res.1.1)
                       = BucketKind.Status.CreationDate (status bucket)
                | None =>
                    exists now,
                      clock_readings (cores tr) = [now]
                      /\ BucketKind.Status.CreationDate (status res.1.1) = Some now
                end
       end.
Proof.
  intros out tr res spec status. subst out tr res spec status.
  destruct (kwp_run h _ _ w (BucketCreation_reconcileBucket_wp bucket minioClient))
    as [(probe & Hp & _ & H)].
  exists probe. split; [exact Hp | exact H].
Qed.

(** X30. What a successful [reconcileBucket] has done.  When it returns
    an error it asks for a retry after one minute.  When it returns none
    it asks for a retry after one hour, and its calls on the SDK are
    exactly the ones the spec asks for, in this order and each answered
    without an error: [MakeBucket] when the probe found the bucket absent,
    [SetBucketVersioning] with [Enabled] when the spec switches versioning
    on, and [SetBucketTagging] with the tags of the spec when it has
    some. *)
Theorem reconcileBucket_success_makes_the_wanted_calls
    (W : Type) (h : KHandler BucketKind.t W) (w : W)
    (bucket : BucketKind.t) (minioClient : Client.t) :
  let out := krun h (BucketCreation.reconcileBucket bucket minioClient) w in
  let tr := ktrace_of out in
  let res := kresult_of out in
  match res.2 with
  | Some _ => res.1.2 = Result.after Minute
  | None =>
      res.1.2 = Result.after Hour
      /\ exists absent,
           bucket_probes (cores tr)
           = [(BucketKind.Spec.BucketName (BucketKind.Spec bucket), inl (negb absent))]
           /\ sdk_calls tr = wanted_calls (BucketKind.Spec bucket) absent
  end.
Proof.
  intros out tr res. subst out tr res.
  destruct (kwp_run h _ _ w (BucketCreation_reconcileBucket_wp bucket minioClient))
    as [(probe & Hp & H & _)].
  destruct (kresult_of _).2; [exact H |].
  destruct H as (Hr & absent & -> & Hc).
  split; [exact Hr |]. exists absent. split; [exact Hp | exact Hc].
Qed.

(** ** The further properties on concrete inputs *)

Import Examples.

(** X5 on the reference through the ready alias of the scenario: the
    access key is the entry of the secret the alias names. *)
Lemma referenced_resource_provides_the_credentials_witness :
  result_of (run Fake.handle (buildClientConfig viaAlias "default") world0)
  = inl (Client.config aliasClient)
  /\ exists alias secret,
       let secretRef := AliasSpec.SecretRef (Alias.Spec alias) in
       Secret.Data secret !! keyOr (SecretReference.AccessKeyIDKey secretRef) "accessKeyID"
       = Some "k".
Proof.
  assert (result_of (run Fake.handle (buildClientConfig viaAlias "default") world0)
          = inl (Client.config aliasClient)) as H by (vm_compute; reflexivity).
  split; [exact H |].
  destruct (proj1 (referenced_resource_provides_the_credentials
                     Fake.World Fake.handle world0 viaAlias "default" _ H)
              (AliasReference.mk "minio" None) eq_refl (or_introl eq_refl))
    as (alias & secret & _ & Ha & _).
  exists alias, secret. exact Ha.
Defined.

(** X6 on the URL with a secret of the scenario. *)
Lemma direct_url_resolution_witness :
  result_of (run Fake.handle (buildClientConfig urlWithSecret "default") world0)
  = inl (ClientConfig.mk "http://minio:9000" "k" "s" true false false "")
  /\ exists secret,
       trace_of (run Fake.handle (buildClientConfig urlWithSecret "default") world0)
       = [Ev (GetSecret (ObjectKey.mk "default" "minio-creds")) (inl secret)].
Proof.
  assert (result_of (run Fake.handle (buildClientConfig urlWithSecret "default") world0)
          = inl (ClientConfig.mk "http://minio:9000" "k" "s" true false false ""))
    as H by (vm_compute; reflexivity).
  split; [exact H |].
  destruct (direct_url_resolution Fake.World Fake.handle world0 urlWithSecret "default"
              "http://minio:9000" credentialsRef _ eq_refl eq_refl eq_refl H)
    as (secret & _ & _ & Ht & _).
  exists secret. exact Ht.
Defined.

(** X7 on the older connection block that names an Endpoint: the
    resolution ends with the lookup of the secret of the block. *)
Lemma older_resolver_reads_the_secret_of_the_connection_witness :
  result_of (run Fake.handle (Legacy.buildClientConfig legacyViaEndpoint "default") world0)
  = inl (ClientConfig.mk "http://edge:9000" "k" "s" true true false "")
  /\ exists secret,
       last (trace_of (run Fake.handle
                         (Legacy.buildClientConfig legacyViaEndpoint "default") world0))
       = Some (Ev (GetSecret (ObjectKey.mk "default" "minio-creds")) (inl secret)).
Proof.
  assert (result_of (run Fake.handle
                       (Legacy.buildClientConfig legacyViaEndpoint "default") world0)
          = inl (ClientConfig.mk "http://edge:9000" "k" "s" true true false ""))
    as H by (vm_compute; reflexivity).
  split; [exact H |].
  destruct (older_resolver_reads_the_secret_of_the_connection
              Fake.World Fake.handle world0 legacyViaEndpoint "default" _ H)
    as (secret & Hl & _).
  exists secret. exact Hl.
Defined.

(** X10 on the user of the scenario, whom MinIO does not hold yet: the
    first admin call is the probe. *)
Lemma reconcileUser_success_calls_witness :
  let out :=
    run Fake.handle
      (UserReconciler.reconcileUser (alice viaAlias [UserFinalizer] None) aliasClient)
      world0 in
  result_of out = ((result_of out).1.1, Result.after Hour, None)
  /\ exists probe, head (admin_calls (trace_of out)) = Some (GetUserInfo "alice", probe).
Proof.
  intros out.
  assert (result_of out = ((result_of out).1.1, Result.after Hour, None)) as H
    by (vm_compute; reflexivity).
  split; [exact H |].
  destruct (reconcileUser_success_calls Fake.World Fake.handle world0
              (alice viaAlias [UserFinalizer] None) aliasClient _ _ H)
    as (password & probe & attached & _ & Hc & _).
  exists probe. unfold out. rewrite Hc. reflexivity.
Defined.

(** X11 on the same user while MinIO is out of reach. *)
Lemma reconcileUser_failure_leaves_status_witness :
  let out :=
    run Fake.handle
      (UserReconciler.reconcileUser (alice viaAlias [UserFinalizer] None) aliasClient)
      offlineWorld in
  result_of out
  = (alice viaAlias [UserFinalizer] None, Result.after Minute,
     Some (Wrapf "failed to create user: " Fake.unreachable))
  /\ Forall (fun c => forall p e g, c.1 <> SetPolicy p e g) (admin_calls (trace_of out)).
Proof.
  intros out.
  assert (result_of out
          = (alice viaAlias [UserFinalizer] None, Result.after Minute,
             Some (Wrapf "failed to create user: " Fake.unreachable))) as H
    by (vm_compute; reflexivity).
  split; [exact H |].
  apply (reconcileUser_failure_leaves_status Fake.World Fake.handle offlineWorld
           (alice viaAlias [UserFinalizer] None) aliasClient _ _ _ H).
Defined.

(** X12 on the policy of the scenario, which MinIO does not hold: the
    document is uploaded. *)
Lemma reconcilePolicy_uploads_only_a_new_or_changed_document_witness :
  String.length (PolicySpec.Policy (Policy.Spec (readonly [PolicyFinalizer]))) <> 0%nat
  /\ admin_calls
       (trace_of (run Fake.handle
                    (PolicyReconciler.reconcilePolicy sha (readonly [PolicyFinalizer])
                       aliasClient) world0))
     = [(AddCannedPolicy "readonly" "{}", None)].
Proof.
  assert (String.length (PolicySpec.Policy (Policy.Spec (readonly [PolicyFinalizer])))
          <> 0%nat) as H by discriminate.
  split; [exact H |].
  pose proof (proj2 (reconcilePolicy_uploads_only_a_new_or_changed_document
                       Fake.World Fake.handle world0 sha (readonly [PolicyFinalizer])
                       aliasClient H)) as Hc.
  rewrite Hc. vm_compute. reflexivity.
Defined.

(** X14 on the pass on the user of the scenario. *)
Lemma pass_writes_object_once_and_status_twice_witness :
  ReconcilePass (UserReconciler.Reconcile aliceKey) UserFinalizer
  /\ (length (updates (trace_of userPass)) <= 1)%nat
  /\ (length (status_writes (trace_of userPass)) <= 2)%nat.
Proof.
  split; [apply pass_user |].
  destruct (pass_writes_object_once_and_status_twice
              (UserReconciler.Reconcile aliceKey) UserFinalizer Fake.World Fake.handle world0
              (pass_user aliceKey)) as (Hu & Hs & _).
  split; [exact Hu | exact Hs].
Defined.

(** X15 on the pass on the user of the scenario, which converges. *)
Lemma converged_pass_writes_ready_and_keeps_error_condition_witness :
  result_of userPass = (Result.after Hour, None)
  /\ existsb client_built (trace_of userPass) = true
  /\ Forall (fun write => write.2 = None) (status_writes (trace_of userPass)).
Proof.
  assert (result_of userPass = (Result.after Hour, None)) as H
    by (vm_compute; reflexivity).
  split; [exact H |].
  destruct (converged_pass_writes_ready_and_keeps_error_condition
              (UserReconciler.Reconcile aliceKey) UserFinalizer Fake.World Fake.handle world0
              (ObjUser (alice viaAlias [UserFinalizer] None))
              (pass_user aliceKey)) as (Hb & Hw & _).
  - vm_compute. reflexivity.
  - reflexivity.
  - exact H.
  - split; [exact Hb | exact Hw].
Defined.


(** X17 on the pass on the user while MinIO is out of reach: the client
    is built, the creation of the user fails. *)
Lemma pass_with_client_and_error_writes_reconcile_error_witness :
  existsb client_built (trace_of offlinePass) = true
  /\ (result_of offlinePass).2 = Some (Wrapf "failed to create user: " Fake.unreachable)
  /\ exists o answer, last (status_writes (trace_of offlinePass)) = Some (o, answer).
Proof.
  assert (existsb client_built (trace_of offlinePass) = true) as Hb
    by (vm_compute; reflexivity).
  assert ((result_of offlinePass).2
          = Some (Wrapf "failed to create user: " Fake.unreachable)) as H
    by (vm_compute; reflexivity).
  split; [exact Hb |]. split; [exact H |].
  destruct (pass_with_client_and_error_writes_reconcile_error
              (UserReconciler.Reconcile aliceKey) UserFinalizer Fake.World Fake.handle
              offlineWorld (ObjUser (alice viaAlias [UserFinalizer] None))
              (Wrapf "failed to create user: " Fake.unreachable)
              (pass_user aliceKey)) as (o & answer & Hl & _).
  - vm_compute. reflexivity.
  - reflexivity.
  - exact Hb.
  - exact H.
  - exists o, answer. exact Hl.
Defined.

(** X20 on the teardown of a bucket MinIO holds with two objects. *)
Lemma bucket_is_removed_only_after_it_was_emptied_witness :
  let tr := trace_of (run stocked (BucketReconciler.handleDeletion logs) world0) in
  s3_calls tr
  = [(RemoveObject "logs" "2025/01.log", None); (RemoveObject "logs" "2025/02.log", None);
     (RemoveBucket "logs", None)]
  /\ exists objects, listings tr = [("logs", objects)] /\ listing_failed objects = false.
Proof.
  intros tr.
  assert (s3_calls tr
          = [(RemoveObject "logs" "2025/01.log", None);
             (RemoveObject "logs" "2025/02.log", None);
             (RemoveBucket "logs", None)]) as H by (vm_compute; reflexivity).
  split; [exact H |].
  destruct (bucket_is_removed_only_after_it_was_emptied
              Fake.World stocked world0 logs "logs" None) as (_ & objects & _ & Hl & Hf & _).
  - fold tr. rewrite H. do 2 apply list_elem_of_further. apply list_elem_of_here.
  - exists objects. split; [exact Hl | exact Hf].
Defined.

(** X23 on the teardown of the attachment for the user of the scenario. *)
Lemma attachment_teardown_detaches_before_releasing_witness :
  let gone := grant [PolicyAttachmentFinalizer] (Some 90) in
  let out :=
    krun FakeKind.handle (PolicyAttachmentReconciler.handleDeletion gone)
      (worldWithAlice 0, Some gone) in
  controllerutil.ContainsFinalizer (PolicyAttachment.Meta gone) PolicyAttachmentFinalizer
  = true
  /\ admin_calls (cores (ktrace_of out)) = [(SetPolicy "" "alice" false, None)]
  /\ exists written,
       kupdates (ktrace_of out) = [(grant [] (Some 90), written)]
       /\ kresult_of out = (Result.empty, written).
Proof.
  intros gone out.
  assert (controllerutil.ContainsFinalizer (PolicyAttachment.Meta gone)
            PolicyAttachmentFinalizer = true) as H by (vm_compute; reflexivity).
  split; [exact H |].
  pose proof (attachment_teardown_detaches_before_releasing
                (FakeKind.World PolicyAttachment.t) FakeKind.handle
                (worldWithAlice 0, Some gone) gone H) as Hc.
  cbv zeta in Hc. fold out in Hc.
  assert (existsb client_built (cores (ktrace_of out)) = true) as Hb
    by (vm_compute; reflexivity).
  rewrite Hb in Hc.
  assert (admin_calls (cores (ktrace_of out)) = [(SetPolicy "" "alice" false, None)]) as Ha
    by (vm_compute; reflexivity).
  split; [exact Ha |].
  change (exists answer,
            admin_calls (cores (ktrace_of out)) = [(SetPolicy "" "alice" false, answer)]
            /\ match answer with
               | Some _ =>
                   kupdates (ktrace_of out) = []
                   /\ kresult_of out = (Result.after Minute, None)
               | None =>
                   exists written,
                     kupdates (ktrace_of out) = [(grant [] (Some 90), written)]
                     /\ kresult_of out = (Result.empty, written)
               end) in Hc.
  destruct Hc as (answer & Hcalls & Hrest).
  rewrite Ha in Hcalls. injection Hcalls as <-. exact Hrest.
Defined.

(** X24 on a pass on the attachment, which comes without a time of
    attachment. *)
Lemma attachment_time_is_recorded_once_witness :
  let fresh := grant [PolicyAttachmentFinalizer] None in
  let tr :=
    ktrace_of (krun FakeKind.handle (PolicyAttachmentReconciler.Reconcile grantKey)
                 (worldWithAlice 0, Some fresh)) in
  let attachedAt a := PolicyAttachmentStatus.AttachedAt (PolicyAttachment.Status a) in
  let ready a := PolicyAttachmentStatus.Ready (PolicyAttachment.Status a) in
  kloaded tr = Some fresh
  /\ Forall (fun write =>
               attachedAt write.1 = None
               \/ (ready write.1 = true
                   /\ attachedAt write.1 = last (clock_readings (cores tr))
                   /\ last (kstatus_writes tr) = Some write))
       (kstatus_writes tr).
Proof.
  intros fresh tr attachedAt ready.
  assert (kloaded tr = Some fresh) as H by (vm_compute; reflexivity).
  split; [exact H |].
  exact (attachment_time_is_recorded_once
           (FakeKind.World PolicyAttachment.t) FakeKind.handle
           (worldWithAlice 0, Some fresh) grantKey fresh H eq_refl).
Defined.

(** X25 on a pass on the attachment whose first status write the API
    server refuses with a conflict. *)
Lemma attachment_status_conflict_is_retried_after_one_second_witness :
  let fresh := grant [PolicyAttachmentFinalizer] None in
  let out :=
    krun FakeKind.handle (PolicyAttachmentReconciler.Reconcile grantKey)
      (worldWithAlice 1, Some fresh) in
  IsConflict Fake.conflict = true
  /\ snd <$> head (kstatus_writes (ktrace_of out)) = Some (Some Fake.conflict)
  /\ kresult_of out = (Result.after Second, None).
Proof.
  intros fresh out.
  split; [reflexivity |]. split; [vm_compute; reflexivity |].
  apply (attachment_status_conflict_is_retried_after_one_second
           (FakeKind.World PolicyAttachment.t) FakeKind.handle
           (worldWithAlice 1, Some fresh) grantKey fresh
           (default fresh (fst <$> head (kstatus_writes (ktrace_of out)))) Fake.conflict).
  - vm_compute. reflexivity.
  - reflexivity.
  - reflexivity.
  - left. vm_compute. reflexivity.
Defined.

(** X26 on a pass on the alias of the examples while MinIO answers. *)
Lemma alias_is_written_ready_and_healthy_by_the_health_check_witness :
  let tr :=
    ktrace_of (krun FakeKind.handle (AliasReconciler.Reconcile minioAliasKey)
                 (world0, Some minioAlias)) in
  sdk_calls tr = [(ListBuckets, None); (ServerInfo, None)]
  /\ exists a written,
       last (kstatus_writes tr) = Some (a, written)
       /\ AliasKind.Status.Ready (AliasKind.Status a) = true
       /\ AliasKind.Status.Healthy (AliasKind.Status a) = true.
Proof.
  intros tr.
  assert (sdk_calls tr = [(ListBuckets, None); (ServerInfo, None)]) as H
    by (vm_compute; reflexivity).
  split; [exact H |].
  destruct (alias_is_written_ready_and_healthy_by_the_health_check
              (FakeKind.World AliasKind.t) FakeKind.handle (world0, Some minioAlias)
              minioAliasKey minioAlias None [(ServerInfo, None)])
    as (a & written & Hl & Hr & _ & _ & Hh & _).
  - vm_compute. reflexivity.
  - reflexivity.
  - exact H.
  - exists a, written. split; [exact Hl |]. split; [exact Hr | exact Hh].
Defined.

(** X27 on the same pass: the alias came without a time of connection and
    gets the time of this health check. *)
Lemma alias_connection_time_is_recorded_once_witness :
  let tr :=
    ktrace_of (krun FakeKind.handle (AliasReconciler.Reconcile minioAliasKey)
                 (world0, Some minioAlias)) in
  sdk_calls tr = [(ListBuckets, None); (ServerInfo, None)]
  /\ exists a written,
       last (kstatus_writes tr) = Some (a, written)
       /\ AliasKind.Status.ConnectedAt (AliasKind.Status a)
          = AliasKind.Status.LastHealthCheck (AliasKind.Status a).
Proof.
  intros tr.
  assert (sdk_calls tr = [(ListBuckets, None); (ServerInfo, None)]) as H
    by (vm_compute; reflexivity).
  split; [exact H |].
  destruct (alias_connection_time_is_recorded_once
              (FakeKind.World AliasKind.t) FakeKind.handle (world0, Some minioAlias)
              minioAliasKey minioAlias None [(ServerInfo, None)])
    as (a & written & Hl & Hc).
  - vm_compute. reflexivity.
  - reflexivity.
  - exact H.
  - exists a, written. split; [exact Hl | exact Hc].
Defined.

(** X28 on the same pass: the alias asks for a health check every thirty
    seconds. *)
Lemma alias_retry_interval_follows_the_health_check_witness :
  let out :=
    krun FakeKind.handle (AliasReconciler.Reconcile minioAliasKey)
      (world0, Some minioAlias) in
  sdk_calls (ktrace_of out) = [(ListBuckets, None); (ServerInfo, None)]
  /\ snd <$> last (kstatus_writes (ktrace_of out)) = Some None
  /\ (kresult_of out).2 = None
  /\ Result.RequeueAfter (kresult_of out).1 = 30 * Second.
Proof.
  intros out.
  assert (sdk_calls (ktrace_of out) = [(ListBuckets, None); (ServerInfo, None)]) as H
    by (vm_compute; reflexivity).
  split; [exact H |]. split; [vm_compute; reflexivity |].
  apply (alias_retry_interval_follows_the_health_check
           (FakeKind.World AliasKind.t) FakeKind.handle (world0, Some minioAlias)
           minioAliasKey minioAlias
           (default minioAlias (fst <$> last (kstatus_writes (ktrace_of out))))
           None [(ServerInfo, None)]).
  - vm_compute. reflexivity.
  - reflexivity.
  - exact H.
  - vm_compute. reflexivity.
Defined.
